(** * ha-solarman: the battery remote-control session

    A shallow embedding of

    - [custom_components/solarman/battery_control.py]
      (class [BatteryControlManager]),
    - the [_battery_control] service handler of
      [custom_components/solarman/services.py],
    - [set_virtual_value] of [custom_components/solarman/virtual_entity.py],

    followed by the properties of the session manager.

    Conventions of the embedding.

    - Python [int] is [Z]; Python [float] is IEEE-754 binary64, taken from the
      standard library's executable specification [SpecFloat] with
      [prec = 53] and [emax = 1024].
    - A coroutine is a computation in the monad [M]: it threads the whole
      world (manager object, coordinator, event-loop task table, clock and
      logger) and either returns or raises.  [try/except Exception] is
      [try_except].
    - [coordinator.device.execute] is the environment: the world records
      every call that was issued, and an arbitrary function of the call's
      position decides whether that call raises.
    - [asyncio] tasks live in a task table; a handle is an index into it.
      A task runs from one [asyncio.sleep] to the next.
    - The monad [M] runs a coroutine in one piece: that is a call which no
      other coroutine interrupts.  The event loop suspends a coroutine at
      every await on the device and runs others in the meantime; for such
      runs every coroutine is also given as a tree ([coro], module [Co]),
      which [Loop] schedules.  Run without interruption a tree is the
      function of the same name in [M] ([runs_as]). *)

From Stdlib Require Import ZArith Lia Bool.
From Stdlib Require Import Floats.SpecFloat.
From stdpp Require Import base option list gmap strings.

Open Scope Z_scope.

(** ** Python exceptions and outcomes *)

Inductive exn : Type :=
  | ZeroDivisionError
  | OverflowError
  | ValueError
  | NoneTypeError
  | CommunicationError (tag : Z)
  | ServiceValidationError (cause : exn).

Inductive outcome (A : Type) : Type :=
  | Returns (a : A)
  | Raises (e : exn).
Arguments Returns {A} a.
Arguments Raises {A} e.

(** ** Python numbers: [int / int], [float * int], [int(float)] *)

Definition prec : Z := 53.
Definition emax : Z := 1024.

(** Conversion of an [int] to a [float] (exact below [2^53]). *)
Definition float_of_int (n : Z) : spec_float :=
  binary_normalize prec emax n 0 false.

(** An [int] as an operand of a true division: its exact value, with the
    exponent 0 and a mantissa of any length. *)
Definition exact_int (n : Z) : spec_float :=
  match n with
  | Z0 => S754_zero false
  | Zpos p => S754_finite false p 0
  | Zneg p => S754_finite true p 0
  end.

(** A rounded quotient that is too large for a float is an
    [OverflowError]. *)
Definition or_overflow (quotient : spec_float) : outcome spec_float :=
  match quotient with
  | S754_infinity _ => Raises OverflowError
  | _ => Returns quotient
  end.

(** [a / b] on two ints: true division.  The operands are not converted to
    floats first: the exact quotient is rounded once, to the nearest float.
    [ZeroDivisionError] on [b = 0]; [OverflowError] when the rounded
    quotient is too large for a float. *)
Definition py_truediv (a b : Z) : outcome spec_float :=
  if b =? 0 then Raises ZeroDivisionError
  else or_overflow (SFdiv prec emax (exact_int a) (exact_int b)).

(** [x * k] with [x] a float and [k] an int. *)
Definition py_mul (x : spec_float) (k : Z) : spec_float :=
  SFmul prec emax x (float_of_int k).

(** The magnitude of a finite float, truncated to an integer. *)
Definition trunc_magnitude (m : positive) (e : Z) : Z :=
  match e with
  | Zneg k => Z.shiftr (Zpos m) (Zpos k)
  | _ => Z.shiftl (Zpos m) e
  end.

(** [int(x)]: truncation toward zero; infinities and NaN raise. *)
Definition py_int (x : spec_float) : outcome Z :=
  match x with
  | S754_zero _ => Returns 0
  | S754_finite s m e =>
      Returns (if s then - trunc_magnitude m e else trunc_magnitude m e)
  | S754_infinity _ => Raises OverflowError
  | S754_nan => Raises ValueError
  end.

(** [battery_control.py] lines 30 and 33:
    [power_percentage = int((power_watts / rated_power) * 1000)] and
    [power_percentage = max(-1200, min(1200, power_percentage))]. *)
Definition power_percentage (power_watts rated_power : Z) : outcome Z :=
  match py_truediv power_watts rated_power with
  | Raises e => Raises e
  | Returns q =>
      match py_int (py_mul q 1000) with
      | Raises e => Raises e
      | Returns power_percentage =>
          Returns (Z.max (-1200) (Z.min 1200 power_percentage))
      end
  end.

(** [t + timedelta(minutes=minutes)] for a [datetime] [t].  A [datetime] is
    counted in whole seconds from [datetime.min], the start of year 1, so
    that it lies from 0 up to, and without, 315537897600, the end of year
    9999 (3652059 days); the microseconds of [t] are those of the sum and
    are left out.  [timedelta] raises [OverflowError] when its days exceed
    999999999 in magnitude, and the sum raises it when the date is out of
    range. *)
Definition add_minutes (t minutes : Z) : outcome Z :=
  let delta := minutes * 60 in
  if negb (Z.abs (delta / 86400) <=? 999999999) then Raises OverflowError
  else
    let t' := t + delta in
    if (0 <=? t') && (t' <? 315537897600) then Returns t'
    else Raises OverflowError.

(** [battery_control.py] lines 28-29:
    [rated_power_data = self.coordinator.data.get("device_rated_power_sensor")]
    and [rated_power = rated_power_data[0] if rated_power_data else 20000].
    A missing key gives [None] and an empty sequence is falsy. *)
Definition rated_power_of (data : gmap string (list Z)) : Z :=
  match data !! "device_rated_power_sensor"%string with
  | Some (reading :: _) => reading
  | _ => 20000
  end.

(** ** The world *)

(** One call [device.execute(code, address, data=...)]. *)
Record write : Type := Write { w_code : Z; w_address : Z; w_data : list Z }.

Inductive pyval : Type :=
  | PNone
  | PBool (b : bool)
  | PInt (n : Z).

Inductive task_kind : Type :=
  | WatchdogPing
  | AutoStop (duration_minutes : Z)
  | ServiceStopControl (duration_minutes : Z).

Inductive task_state : Type :=
  | Created
  | Sleeping (wake_at : Z)
  | Finished
  | Cancelled.

Record task : Type := Task { t_kind : task_kind; t_state : task_state }.

Inductive level : Type := Debug | Info | Error.

Inductive message : Type :=
  | MsgStarted (power_watts duration_minutes : Z)
  | MsgStartFailed (e : exn)
  | MsgStopped
  | MsgStopError (e : exn)
  | MsgPingSent
  | MsgPingFailed (e : exn)
  | MsgStoppedAutomatically.

(** The attributes of [BatteryControlManager] set in [__init__].  An entry
    of [virtual_entities] is the [_virtual_value] of the registered entity. *)
Record Manager : Type := Mgr {
  control_active : bool;
  control_end_time : option Z;
  watchdog_task : option nat;
  virtual_entities : gmap string pyval
}.

Record World : Type := Wld {
  manager : Manager;
  data : gmap string (list Z);
  clock : Z;
  tasks : list task;
  issued : list write;
  device_fails : nat -> option exn;
  logs : list (level * message)
}.

Definition with_manager (m : Manager) (w : World) : World :=
  Wld m (data w) (clock w) (tasks w) (issued w) (device_fails w) (logs w).
Definition with_tasks (ts : list task) (w : World) : World :=
  Wld (manager w) (data w) (clock w) ts (issued w) (device_fails w) (logs w).
Definition with_issued (l : list write) (w : World) : World :=
  Wld (manager w) (data w) (clock w) (tasks w) l (device_fails w) (logs w).
Definition with_logs (l : list (level * message)) (w : World) : World :=
  Wld (manager w) (data w) (clock w) (tasks w) (issued w) (device_fails w) l.
Definition with_clock (t : Z) (w : World) : World :=
  Wld (manager w) (data w) t (tasks w) (issued w) (device_fails w) (logs w).
Definition with_data (d : gmap string (list Z)) (w : World) : World :=
  Wld (manager w) d (clock w) (tasks w) (issued w) (device_fails w) (logs w).

(** Attribute assignments on the manager object. *)
Definition set_control_active (b : bool) (m : Manager) : Manager :=
  Mgr b (control_end_time m) (watchdog_task m) (virtual_entities m).
Definition set_control_end_time (t : option Z) (m : Manager) : Manager :=
  Mgr (control_active m) t (watchdog_task m) (virtual_entities m).
Definition set_watchdog_task (h : option nat) (m : Manager) : Manager :=
  Mgr (control_active m) (control_end_time m) h (virtual_entities m).
Definition set_virtual_entities (e : gmap string pyval) (m : Manager) : Manager :=
  Mgr (control_active m) (control_end_time m) (watchdog_task m) e.

(** [BatteryControlManager.__init__]. *)
Definition new_manager : Manager := Mgr false None None ∅.

Definition init_world (fails : nat -> option exn)
    (d : gmap string (list Z)) (t0 : Z) : World :=
  Wld new_manager d t0 [] [] fails [].

(** ** The coroutine monad *)

Definition M (A : Type) : Type := World -> outcome A * World.

Definition ret {A} (a : A) : M A := fun w => (Returns a, w).
Definition raise {A} (e : exn) : M A := fun w => (Raises e, w).
Definition bind {A B} (m : M A) (k : A -> M B) : M B :=
  fun w =>
    match m w with
    | (Returns a, w') => k a w'
    | (Raises e, w') => (Raises e, w')
    end.
Definition try_except {A} (body : M A) (handler : exn -> M A) : M A :=
  fun w =>
    match body w with
    | (Returns a, w') => (Returns a, w')
    | (Raises e, w') => handler e w'
    end.
Definition lift {A} (o : outcome A) : M A := fun w => (o, w).

Declare Scope coroutine_scope.
Delimit Scope coroutine_scope with co.
Notation "'let*' x ':=' m 'in' k" := (bind m (fun x => k))
  (at level 10, x name, m at level 100, k at level 200) : coroutine_scope.
Notation "m ';;' k" := (bind m (fun _ => k))
  (at level 100, k at level 200, right associativity) : coroutine_scope.
Open Scope coroutine_scope.

Definition get_manager : M Manager := fun w => (Returns (manager w), w).
Definition update_manager (f : Manager -> Manager) : M unit :=
  fun w => (Returns tt, with_manager (f (manager w)) w).

(** [self.coordinator.data]. *)
Definition get_data : M (gmap string (list Z)) :=
  fun w => (Returns (data w), w).

(** [datetime.now()], in whole seconds from [datetime.min]. *)
Definition now : M Z := fun w => (Returns (clock w), w).

Definition log (l : level) (msg : message) : M unit :=
  fun w => (Returns tt, with_logs (logs w ++ [(l, msg)]) w).

(** [await self.coordinator.device.execute(code, address, data=values)]. *)
Definition execute (code address : Z) (values : list Z) : M unit :=
  fun w =>
    let w' := with_issued (issued w ++ [Write code address values]) w in
    match device_fails w (length (issued w)) with
    | None => (Returns tt, w')
    | Some e => (Raises e, w')
    end.

(** [asyncio.create_task(...)]: the handle is the new task's index. *)
Definition create_task (k : task_kind) : M nat :=
  fun w => (Returns (length (tasks w)), with_tasks (tasks w ++ [Task k Created]) w).

Definition is_live (t : task) : bool :=
  match t_state t with
  | Created | Sleeping _ => true
  | Finished | Cancelled => false
  end.

(** [task.cancel()]: no effect on a task that is already done. *)
Definition cancel_task (t : task) : task :=
  if is_live t then Task (t_kind t) Cancelled else t.

Definition cancel (handle : nat) : M unit :=
  fun w => (Returns tt, with_tasks (alter cancel_task handle (tasks w)) w).

(** [for address, value in registers: await ...execute(0x10, address, data=[value])]. *)
Fixpoint write_registers (registers : list (Z * Z)) : M unit :=
  match registers with
  | [] => ret tt
  | (address, value) :: rest =>
      execute 0x10 address [value] ;; write_registers rest
  end.

(** ** [virtual_entity.py] *)

(** [if name in self.virtual_entities:
       self.virtual_entities[name].set_virtual_value(value)]:
    the entity registered under [name], when there is one, takes [value]. *)
Definition assign_virtual_value (name : string) (value : pyval)
    (entities : gmap string pyval) : gmap string pyval :=
  match entities !! name with
  | Some _ => <[name := value]> entities
  | None => entities
  end.

(** [set_virtual_value] assigns [_virtual_value]; the call to
    [async_write_ha_state] that follows belongs to the hosting framework and
    is taken to return normally. *)
Definition set_virtual_value (name : string) (value : pyval) : M unit :=
  update_manager (fun m =>
    set_virtual_entities (assign_virtual_value name value (virtual_entities m)) m).

(** ** [battery_control.py] *)

(** [register_virtual_entity(name, entity)]; [value] is the entity's
    [_virtual_value]. *)
Definition register_virtual_entity (name : string) (value : pyval) : M unit :=
  update_manager (fun m =>
    set_virtual_entities (<[name := value]> (virtual_entities m)) m).

Definition reset_registers : list (Z * Z) :=
  [ (0x044C, 0);      (* Disable remote mode *)
    (0x0455, 0) ].    (* Reset power control *)

Definition stop_battery_control : M unit :=
  let* m := get_manager in
  if negb (control_active m) then ret tt
  else
    try_except
      ((match watchdog_task m with
        | Some handle => cancel handle
        | None => ret tt
        end) ;;
       write_registers reset_registers ;;
       update_manager (set_control_active false) ;;
       update_manager (set_control_end_time None) ;;
       set_virtual_value "Manual Battery Power" (PInt 0) ;;
       set_virtual_value "Manual Control Active" (PBool false) ;;
       log Info MsgStopped)
      (fun e => log Error (MsgStopError e)).

Definition registers (power_percentage : Z) : list (Z * Z) :=
  [ (0x044C, 1);      (* Remote mode enable *)
    (0x0450, 1);      (* Battery side control *)
    (0x0451, 2);      (* Power priority *)
    (0x044D, 300);    (* Watchdog 5 minutes *)
    (0x0455, power_percentage) ].  (* Battery power control *)

Definition start_battery_control (power_watts duration_minutes : Z) : M unit :=
  let* m := get_manager in
  (if control_active m then stop_battery_control else ret tt) ;;
  try_except
    (let* d := get_data in
     let rated_power := rated_power_of d in
     let* pp := lift (power_percentage power_watts rated_power) in
     write_registers (registers pp) ;;
     update_manager (set_control_active true) ;;
     let* t := now in
     let* end_time := lift (add_minutes t duration_minutes) in
     update_manager (set_control_end_time (Some end_time)) ;;
     let* handle := create_task WatchdogPing in
     update_manager (set_watchdog_task (Some handle)) ;;
     create_task (AutoStop duration_minutes) ;;
     log Info (MsgStarted power_watts duration_minutes))
    (fun e =>
       log Error (MsgStartFailed e) ;;
       stop_battery_control ;;
       raise e).

(** The loop condition of [_watchdog_ping] (line 100):
    [self.control_active and datetime.now() < self.control_end_time].
    [and] evaluates the comparison only when the session is active;
    comparing a [datetime] with [None] raises [TypeError], here
    [NoneTypeError]. *)
Definition watchdog_continues : M bool :=
  let* m := get_manager in
  if control_active m then
    let* t := now in
    match control_end_time m with
    | Some deadline => ret (t <? deadline)
    | None => raise NoneTypeError
    end
  else ret false.

(** The body of the loop of [_watchdog_ping] once [asyncio.sleep(240)] has
    returned (lines 103-110). *)
Definition watchdog_wakeup : M unit :=
  try_except
    (let* m := get_manager in
     if control_active m then
       execute 0x10 0x044C [1] ;;
       log Debug MsgPingSent
     else ret tt)
    (fun e => log Error (MsgPingFailed e)).

(** [_auto_stop] once [asyncio.sleep(duration_minutes * 60)] has returned
    (lines 115-116). *)
Definition auto_stop_wakeup : M unit :=
  let* m := get_manager in
  if control_active m then stop_battery_control else ret tt.

(** [stop_control] of [services.py] once its sleep has returned
    (lines 95-100). *)
Definition stop_control_wakeup : M unit :=
  try_except
    (execute 0x10 0x044C [0] ;;      (* Disable remote mode *)
     execute 0x10 0x0455 [0] ;;      (* Reset power *)
     log Info MsgStoppedAutomatically)
    (fun e => log Error (MsgStopError e)).

Definition set_task_state (handle : nat) (s : task_state) : M unit :=
  fun w =>
    (Returns tt,
     with_tasks (alter (fun t => Task (t_kind t) s) handle (tasks w)) w).

Definition sleep_or_finish (handle : nat) (seconds : Z) (again : bool) : M unit :=
  if again then
    let* t := now in set_task_state handle (Sleeping (t + seconds))
  else set_task_state handle Finished.

(** [_watchdog_ping] (lines 98-110) as the event loop runs it: from the
    start of the coroutine ([Created]) or from the return of
    [asyncio.sleep(240)] ([Sleeping]) to the next sleep, or to the end of
    the loop.  [except asyncio.CancelledError: break] is the state
    [Cancelled] of the task. *)
Definition _watchdog_ping (handle : nat) (state : task_state) : M unit :=
  match state with
  | Created =>
      let* again := watchdog_continues in
      sleep_or_finish handle 240 again
  | Sleeping _ =>
      watchdog_wakeup ;;
      let* again := watchdog_continues in
      sleep_or_finish handle 240 again
  | Finished | Cancelled => ret tt
  end.

(** [_auto_stop(duration_minutes)] (lines 112-116), in the same way. *)
Definition _auto_stop (duration_minutes : Z) (handle : nat)
    (state : task_state) : M unit :=
  match state with
  | Created => sleep_or_finish handle (duration_minutes * 60) true
  | Sleeping _ => auto_stop_wakeup ;; set_task_state handle Finished
  | Finished | Cancelled => ret tt
  end.

(** [stop_control()] of [services.py] (lines 93-100), in the same way. *)
Definition stop_control (duration_minutes : Z) (handle : nat)
    (state : task_state) : M unit :=
  match state with
  | Created => sleep_or_finish handle (duration_minutes * 60) true
  | Sleeping _ => stop_control_wakeup ;; set_task_state handle Finished
  | Finished | Cancelled => ret tt
  end.

(** An exception that leaves the coroutine of a task ends the task: the
    event loop keeps the exception in the task object and goes on.  Of the
    three coroutines only [_watchdog_ping] can raise, in the test of its
    loop, which is outside its [try]. *)
Definition or_task_ends (handle : nat) (body : M unit) : M unit :=
  try_except body (fun _ => set_task_state handle Finished).

(** A task can run when it was just created or when its sleep is over. *)
Definition is_due (now : Z) (t : task) : bool :=
  match t_state t with
  | Created => true
  | Sleeping wake_at => negb (now <? wake_at)
  | Finished | Cancelled => false
  end.

(** The event loop resumes task [handle]: the task runs from where it is
    suspended to its next [asyncio.sleep], or to its end.  A task that is
    done, or whose sleep has not elapsed, does not run. *)
Definition resume (handle : nat) : M unit :=
  fun w =>
    match tasks w !! handle with
    | None => (Returns tt, w)
    | Some t =>
        if is_due (clock w) t then
          or_task_ends handle
            match t_kind t with
            | WatchdogPing => _watchdog_ping handle (t_state t)
            | AutoStop duration_minutes =>
                _auto_stop duration_minutes handle (t_state t)
            | ServiceStopControl duration_minutes =>
                stop_control duration_minutes handle (t_state t)
            end w
        else (Returns tt, w)
    end.

(** ** [services.py]: the [battery_control] service *)

(** Lines 78-81 of [_battery_control]. *)
Definition service_power_percentage (d : gmap string (list Z))
    (power_watts : Z) : outcome Z :=
  let rated_power_data := d !! "device_rated_power_sensor"%string in
  let rated_power :=
    match rated_power_data with
    | None | Some [] => 20000
    | Some (x :: _) => x
    end in
  match py_truediv power_watts rated_power with
  | Returns quotient =>
      match py_int (py_mul quotient 1000) with
      | Returns n => Returns (Z.max (-1200) (Z.min 1200 n))
      | Raises e => Raises e
      end
  | Raises e => Raises e
  end.

(** [_battery_control(call)] with the device and the coordinator of the
    call already looked up; [power_watts] and [duration_minutes] are the
    two fields of [call.data]. *)
Definition _battery_control (power_watts duration_minutes : Z) : M unit :=
  try_except
    (let* d := get_data in
     let* power_percentage := lift (service_power_percentage d power_watts) in
     execute 0x10 0x044C [1] ;;      (* Remote mode enable *)
     execute 0x10 0x0450 [1] ;;      (* Battery side control *)
     execute 0x10 0x0451 [2] ;;      (* Power priority *)
     execute 0x10 0x044D [300] ;;    (* Watchdog 5 minutes *)
     execute 0x10 0x0455 [power_percentage] ;;  (* Battery power *)
     log Info (MsgStarted power_watts duration_minutes) ;;
     create_task (ServiceStopControl duration_minutes) ;;
     ret tt)
    (fun e => raise (ServiceValidationError e)).

(** ** Runs of the system *)

Inductive event : Type :=
  | CallStart (power_watts duration_minutes : Z)
  | CallStop
  | CallService (power_watts duration_minutes : Z)
  | Resume (handle : nat)
  | Elapse (seconds : nat)
  | Refresh (d : gmap string (list Z))
  | Register (name : string) (value : pyval).

Definition step (ev : event) (w : World) : World :=
  match ev with
  | CallStart p d => snd (start_battery_control p d w)
  | CallStop => snd (stop_battery_control w)
  | CallService p d => snd (_battery_control p d w)
  | Resume handle => snd (resume handle w)
  | Elapse seconds => with_clock (clock w + Z.of_nat seconds) w
  | Refresh d => with_data d w
  | Register name value => snd (register_virtual_entity name value w)
  end.

Definition run (evs : list event) (w : World) : World :=
  foldl (fun w ev => step ev w) w evs.

Inductive reachable : World -> Prop :=
  | reachable_init fails d t0 : reachable (init_world fails d t0)
  | reachable_step ev w : reachable w -> reachable (step ev w).

(** ** Coroutines that overlap *)

(** The functions above run a coroutine in one piece, from its start to its
    end or from one [asyncio.sleep] to the next.  The event loop does more:
    at every [await ...device.execute(...)] the coroutine is suspended until
    the device has answered, and other coroutines run in the meantime.  To
    follow such runs, the coroutines are written once more as trees, with
    one node for each step between two awaits on the device.  Run without
    interruption, each tree is the function of the same name above. *)

Inductive coro (A : Type) : Type :=
  | Ret (o : outcome A)
  | Get (k : World -> coro A)
  | Upd (f : World -> World) (k : coro A)
  | Await (call : write) (k : outcome unit -> coro A).
Arguments Ret {A} o.
Arguments Get {A} k.
Arguments Upd {A} f k.
Arguments Await {A} call k.

Declare Scope coro_scope.
Delimit Scope coro_scope with coro.

Module Co.

Definition ret {A} (a : A) : coro A := Ret (Returns a).
Definition raise {A} (e : exn) : coro A := Ret (Raises e).
Definition lift {A} (o : outcome A) : coro A := Ret o.

Fixpoint bind {A B} (c : coro A) (k : A -> coro B) : coro B :=
  match c with
  | Ret (Returns a) => k a
  | Ret (Raises e) => Ret (Raises e)
  | Get g => Get (fun w => bind (g w) k)
  | Upd f c' => Upd f (bind c' k)
  | Await call g => Await call (fun answer => bind (g answer) k)
  end.

Fixpoint try_except {A} (body : coro A) (handler : exn -> coro A) : coro A :=
  match body with
  | Ret (Returns a) => Ret (Returns a)
  | Ret (Raises e) => handler e
  | Get g => Get (fun w => try_except (g w) handler)
  | Upd f c' => Upd f (try_except c' handler)
  | Await call g => Await call (fun answer => try_except (g answer) handler)
  end.

Notation "'let*' x ':=' m 'in' k" := (bind m (fun x => k))
  (at level 10, x name, m at level 100, k at level 200) : coro_scope.
Notation "m ';;' k" := (bind m (fun _ => k))
  (at level 100, k at level 200, right associativity) : coro_scope.
Local Open Scope coro_scope.

Definition get_manager : coro Manager := Get (fun w => ret (manager w)).
Definition update_manager (f : Manager -> Manager) : coro unit :=
  Upd (fun w => with_manager (f (manager w)) w) (ret tt).
Definition get_data : coro (gmap string (list Z)) :=
  Get (fun w => ret (data w)).
Definition now : coro Z := Get (fun w => ret (clock w)).
Definition log (l : level) (msg : message) : coro unit :=
  Upd (fun w => with_logs (logs w ++ [(l, msg)]) w) (ret tt).

(** [await self.coordinator.device.execute(code, address, data=values)]:
    the coroutine is suspended here. *)
Definition execute (code address : Z) (values : list Z) : coro unit :=
  Await (Write code address values) (fun answer => Ret answer).

Definition create_task (k : task_kind) : coro nat :=
  Get (fun w =>
    Upd (fun w' => with_tasks (tasks w' ++ [Task k Created]) w')
        (ret (length (tasks w)))).

Definition cancel (handle : nat) : coro unit :=
  Upd (fun w => with_tasks (alter cancel_task handle (tasks w)) w) (ret tt).

Fixpoint write_registers (registers : list (Z * Z)) : coro unit :=
  match registers with
  | [] => ret tt
  | (address, value) :: rest =>
      execute 0x10 address [value] ;; write_registers rest
  end.

Definition set_virtual_value (name : string) (value : pyval) : coro unit :=
  update_manager (fun m =>
    set_virtual_entities (assign_virtual_value name value (virtual_entities m)) m).

Definition stop_battery_control : coro unit :=
  let* m := get_manager in
  if negb (control_active m) then ret tt
  else
    try_except
      ((match watchdog_task m with
        | Some handle => cancel handle
        | None => ret tt
        end) ;;
       write_registers reset_registers ;;
       update_manager (set_control_active false) ;;
       update_manager (set_control_end_time None) ;;
       set_virtual_value "Manual Battery Power" (PInt 0) ;;
       set_virtual_value "Manual Control Active" (PBool false) ;;
       log Info MsgStopped)
      (fun e => log Error (MsgStopError e)).

Definition start_battery_control (power_watts duration_minutes : Z)
    : coro unit :=
  let* m := get_manager in
  (if control_active m then stop_battery_control else ret tt) ;;
  try_except
    (let* d := get_data in
     let rated_power := rated_power_of d in
     let* pp := lift (power_percentage power_watts rated_power) in
     write_registers (registers pp) ;;
     update_manager (set_control_active true) ;;
     let* t := now in
     let* end_time := lift (add_minutes t duration_minutes) in
     update_manager (set_control_end_time (Some end_time)) ;;
     let* handle := create_task WatchdogPing in
     update_manager (set_watchdog_task (Some handle)) ;;
     create_task (AutoStop duration_minutes) ;;
     log Info (MsgStarted power_watts duration_minutes))
    (fun e =>
       log Error (MsgStartFailed e) ;;
       stop_battery_control ;;
       raise e).

Definition watchdog_continues : coro bool :=
  let* m := get_manager in
  if control_active m then
    let* t := now in
    match control_end_time m with
    | Some deadline => ret (t <? deadline)
    | None => raise NoneTypeError
    end
  else ret false.

Definition watchdog_wakeup : coro unit :=
  try_except
    (let* m := get_manager in
     if control_active m then
       execute 0x10 0x044C [1] ;;
       log Debug MsgPingSent
     else ret tt)
    (fun e => log Error (MsgPingFailed e)).

Definition auto_stop_wakeup : coro unit :=
  let* m := get_manager in
  if control_active m then stop_battery_control else ret tt.

Definition stop_control_wakeup : coro unit :=
  try_except
    (execute 0x10 0x044C [0] ;;      (* Disable remote mode *)
     execute 0x10 0x0455 [0] ;;      (* Reset power *)
     log Info MsgStoppedAutomatically)
    (fun e => log Error (MsgStopError e)).

Definition set_task_state (handle : nat) (s : task_state) : coro unit :=
  Upd (fun w =>
         with_tasks (alter (fun t => Task (t_kind t) s) handle (tasks w)) w)
      (ret tt).

Definition sleep_or_finish (handle : nat) (seconds : Z) (again : bool)
    : coro unit :=
  if again then
    let* t := now in set_task_state handle (Sleeping (t + seconds))
  else set_task_state handle Finished.

Definition _watchdog_ping (handle : nat) (state : task_state) : coro unit :=
  match state with
  | Created =>
      let* again := watchdog_continues in
      sleep_or_finish handle 240 again
  | Sleeping _ =>
      watchdog_wakeup ;;
      let* again := watchdog_continues in
      sleep_or_finish handle 240 again
  | Finished | Cancelled => ret tt
  end.

Definition _auto_stop (duration_minutes : Z) (handle : nat)
    (state : task_state) : coro unit :=
  match state with
  | Created => sleep_or_finish handle (duration_minutes * 60) true
  | Sleeping _ => auto_stop_wakeup ;; set_task_state handle Finished
  | Finished | Cancelled => ret tt
  end.

Definition stop_control (duration_minutes : Z) (handle : nat)
    (state : task_state) : coro unit :=
  match state with
  | Created => sleep_or_finish handle (duration_minutes * 60) true
  | Sleeping _ => stop_control_wakeup ;; set_task_state handle Finished
  | Finished | Cancelled => ret tt
  end.

Definition or_task_ends (handle : nat) (body : coro unit) : coro unit :=
  try_except body (fun _ => set_task_state handle Finished).

Definition resume (handle : nat) : coro unit :=
  Get (fun w =>
    match tasks w !! handle with
    | None => ret tt
    | Some t =>
        if is_due (clock w) t then
          or_task_ends handle
            match t_kind t with
            | WatchdogPing => _watchdog_ping handle (t_state t)
            | AutoStop duration_minutes =>
                _auto_stop duration_minutes handle (t_state t)
            | ServiceStopControl duration_minutes =>
                stop_control duration_minutes handle (t_state t)
            end
        else ret tt
    end).

Definition _battery_control (power_watts duration_minutes : Z) : coro unit :=
  try_except
    (let* d := get_data in
     let* power_percentage := lift (service_power_percentage d power_watts) in
     execute 0x10 0x044C [1] ;;      (* Remote mode enable *)
     execute 0x10 0x0450 [1] ;;      (* Battery side control *)
     execute 0x10 0x0451 [2] ;;      (* Power priority *)
     execute 0x10 0x044D [300] ;;    (* Watchdog 5 minutes *)
     execute 0x10 0x0455 [power_percentage] ;;  (* Battery power *)
     log Info (MsgStarted power_watts duration_minutes) ;;
     create_task (ServiceStopControl duration_minutes) ;;
     ret tt)
    (fun e => raise (ServiceValidationError e)).

End Co.

(** What the device answers to the call at [position]. *)
Definition answer (w : World) (position : nat) : outcome unit :=
  match device_fails w position with
  | None => Returns tt
  | Some e => Raises e
  end.

(** A coroutine run without interruption: every call to the device is
    answered before anything else happens. *)
Fixpoint uninterrupted {A} (c : coro A) (w : World) : outcome A * World :=
  match c with
  | Ret o => (o, w)
  | Get k => uninterrupted (k w) w
  | Upd f k => uninterrupted k (f w)
  | Await call k =>
      uninterrupted (k (answer w (length (issued w))))
        (with_issued (issued w ++ [call]) w)
  end.

(** A coroutine run until it awaits the device, or to its end. *)
Inductive paused (A : Type) : Type :=
  | Ended (o : outcome A)
  | AwaitsDevice (position : nat) (k : outcome unit -> coro A).
Arguments Ended {A} o.
Arguments AwaitsDevice {A} position k.

Fixpoint advance {A} (c : coro A) (w : World) : paused A * World :=
  match c with
  | Ret o => (Ended o, w)
  | Get k => advance (k w) w
  | Upd f k => advance k (f w)
  | Await call k =>
      (AwaitsDevice (length (issued w)) k,
       with_issued (issued w ++ [call]) w)
  end.

(** ** The event loop *)

(** A coroutine suspended at a call to the device: the task that runs it
    ([None] for a call from outside the manager: a service call, the
    switch), the position of the awaited call in [issued], and what it does
    with the answer. *)
Record suspended : Type := Suspended {
  s_task : option nat;
  s_position : nat;
  s_resume : outcome unit -> coro unit
}.

Record Loop : Type := Running {
  world : World;
  waiting : list suspended
}.

(** A coroutine starts, or goes on, until it awaits the device. *)
Definition launch (owner : option nat) (c : coro unit) (l : Loop) : Loop :=
  match advance c (world l) with
  | (Ended _, w') => Running w' (waiting l)
  | (AwaitsDevice position k, w') =>
      Running w' (waiting l ++ [Suspended owner position k])
  end.

(** The task of a suspended coroutine was cancelled in the meantime:
    [CancelledError] is raised at its await, and nothing of what follows
    the await runs. *)
Definition is_cancelled (owner : option nat) (w : World) : bool :=
  match owner with
  | None => false
  | Some handle =>
      match tasks w !! handle with
      | Some (Task _ Cancelled) => true
      | _ => false
      end
  end.

Definition is_waiting (handle : nat) (l : Loop) : bool :=
  existsb (fun s => match s_task s with
                    | Some h => Nat.eqb h handle
                    | None => false
                    end) (waiting l).

(** One turn of the event loop: an event of [event] begins (a call enters
    its coroutine, a task wakes up, time passes), or the device answers
    the call that the suspended coroutine number [i] awaits. *)
Inductive turn : Type :=
  | Begin (ev : event)
  | Answer (i : nat).

Definition loop_step (t : turn) (l : Loop) : Loop :=
  match t with
  | Begin (CallStart p d) => launch None (Co.start_battery_control p d) l
  | Begin CallStop => launch None Co.stop_battery_control l
  | Begin (CallService p d) => launch None (Co._battery_control p d) l
  | Begin (Resume handle) =>
      if is_waiting handle l then l
      else launch (Some handle) (Co.resume handle) l
  | Begin ev => Running (step ev (world l)) (waiting l)
  | Answer i =>
      match waiting l !! i with
      | None => l
      | Some s =>
          let l' := Running (world l) (delete i (waiting l)) in
          if is_cancelled (s_task s) (world l) then l'
          else
            launch (s_task s)
              (s_resume s (answer (world l) (s_position s))) l'
      end
  end.

Definition loop_run (ts : list turn) (l : Loop) : Loop :=
  foldl (fun l t => loop_step t l) l ts.

Inductive loop_reachable : Loop -> Prop :=
  | loop_reachable_init fails d t0 :
      loop_reachable (Running (init_world fails d t0) [])
  | loop_reachable_step t l :
      loop_reachable l -> loop_reachable (loop_step t l).

(** Along the uninterrupted run of [c] from [w], the task [owner] is not
    cancelled when an answer of the device arrives. *)
Fixpoint spared (owner : option nat) {A} (c : coro A) (w : World) : Prop :=
  match c with
  | Ret _ => True
  | Get k => spared owner (k w) w
  | Upd f k => spared owner k (f w)
  | Await call k =>
      let w' := with_issued (issued w ++ [call]) w in
      is_cancelled owner w' = false /\
      spared owner (k (answer w (length (issued w)))) w'
  end.

(** [c], run without interruption, is [m]. *)
Definition runs_as {A} (c : coro A) (m : M A) : Prop :=
  forall w, uninterrupted c w = m w.

(** ** Observations *)

Definition is_active (w : World) : bool := control_active (manager w).

Definition is_watchdog (k : task_kind) : bool :=
  match k with WatchdogPing => true | _ => false end.
Definition is_deadline (k : task_kind) : bool :=
  match k with AutoStop _ => true | _ => false end.

(** The number of tasks of a kind that are not done. *)
Definition live_count (p : task_kind -> bool) (w : World) : nat :=
  length (List.filter (fun t => p (t_kind t) && is_live t) (tasks w)).

(** The calls issued by a computation: what it appended to [issued]. *)
Definition issued_by {A} (m : M A) (w : World) : list write :=
  drop (length (issued w)) (issued (snd (m w))).

Definition never_fails : nat -> option exn := fun _ => None.
Definition fails_at (n : nat) (e : exn) : nat -> option exn :=
  fun i => if Nat.eqb i n then Some e else None.

(** The device accepts the next [n] calls. *)
Definition accepts (w : World) (n : nat) : Prop :=
  forall i, (i < n)%nat -> device_fails w (length (issued w) + i) = None.

Definition to_write (r : Z * Z) : write := Write 0x10 r.1 [r.2].

(** ** Binary64 floats: vocabulary of the proofs *)

(** A rounding result that did not overflow: a zero, or a finite float of
    sign [s] with exponent at least [e] and magnitude below [2^B]. *)
Definition rounds_within (s : bool) (e B : Z) (x : spec_float) : Prop :=
  match x with
  | S754_zero s' => s' = s
  | S754_finite s' m' e' => s' = s /\ e <= e' /\ Zpos m' < 2 ^ (B - e')
  | _ => False
  end.


(** [n] is the float [y] with its fractional part dropped:
    [|n| <= |y| < |n| + 1], with the sign of [y]. *)
Definition is_truncation_of (y : spec_float) (n : Z) : Prop :=
  match y with
  | S754_zero _ => n = 0
  | S754_finite s m e =>
      (if s then n <= 0 else 0 <= n) /\
      Z.abs n * 2 ^ Z.max 0 (- e) <= Zpos m * 2 ^ Z.max 0 e
        < (Z.abs n + 1) * 2 ^ Z.max 0 (- e)
  | _ => False
  end.

Definition finite_signed (s : bool) (x : spec_float) : Prop :=
  match x with
  | S754_zero s' | S754_finite s' _ _ => s' = s
  | _ => False
  end.


(** ** Closed forms of the coroutines, used in the proofs *)

(** Among [count] calls from position [from], the first that raises. *)
Fixpoint first_failure (fails : nat -> option exn) (from count : nat)
    : option (nat * exn) :=
  match count with
  | O => None
  | S count' =>
      match fails from with
      | Some e => Some (O, e)
      | None =>
          match first_failure fails (S from) count' with
          | Some (k, e) => Some (S k, e)
          | None => None
          end
      end
  end.

Definition cancel_watchdog (w : World) : World :=
  match watchdog_task (manager w) with
  | Some handle => with_tasks (alter cancel_task handle (tasks w)) w
  | None => w
  end.

Definition idle_manager (m : Manager) : Manager :=
  set_virtual_entities
    (assign_virtual_value "Manual Control Active" (PBool false)
       (assign_virtual_value "Manual Battery Power" (PInt 0)
          (virtual_entities m)))
    (set_control_end_time None (set_control_active false m)).

Definition stop_world (w : World) : World :=
  if control_active (manager w) then
    let w1 := cancel_watchdog w in
    match first_failure (device_fails w) (length (issued w)) 2 with
    | Some (k, e) =>
        with_logs (logs w ++ [(Error, MsgStopError e)])
          (with_issued
             (issued w ++ map to_write (take (S k) reset_registers)) w1)
    | None =>
        with_logs (logs w ++ [(Info, MsgStopped)])
          (with_manager (idle_manager (manager w))
             (with_issued (issued w ++ map to_write reset_registers) w1))
    end
  else w.

Definition started_world (power_watts duration_minutes pp : Z) (w : World)
    : World :=
  with_logs (logs w ++ [(Info, MsgStarted power_watts duration_minutes)])
    (with_tasks
       (tasks w ++ [Task WatchdogPing Created;
                    Task (AutoStop duration_minutes) Created])
       (with_manager
          (set_watchdog_task (Some (length (tasks w)))
             (set_control_end_time (Some (clock w + 60 * duration_minutes))
                (set_control_active true (manager w))))
          (with_issued (issued w ++ map to_write (registers pp)) w))).

(** The five setup writes were accepted and [control_active] was set
    (line 48); the deadline is not yet computed. *)
Definition marked_active (pp : Z) (w : World) : World :=
  with_manager (set_control_active true (manager w))
    (with_issued (issued w ++ map to_write (registers pp)) w).

Definition start_failed (e : exn) (w : World) : outcome unit * World :=
  (Raises e, stop_world (with_logs (logs w ++ [(Error, MsgStartFailed e)]) w)).

(** [start_battery_control] after its first two lines. *)
Definition start_from (power_watts duration_minutes : Z) (w : World)
    : outcome unit * World :=
  match power_percentage power_watts (rated_power_of (data w)) with
  | Raises e => start_failed e w
  | Returns pp =>
      match first_failure (device_fails w) (length (issued w)) 5 with
      | None =>
          match add_minutes (clock w) duration_minutes with
          | Returns _ =>
              (Returns tt, started_world power_watts duration_minutes pp w)
          | Raises e => start_failed e (marked_active pp w)
          end
      | Some (k, e) =>
          start_failed e
            (with_issued
               (issued w ++ map to_write (take (S k) (registers pp))) w)
      end
  end.

(** ** The sentences of the specification that the code does not satisfy,
       as predicates *)

(** "On return the session state is cleared and the indicators are set to
    inactive/zero, regardless of whether the reset writes succeeded." *)
Definition stop_clears_session (w : World) : Prop :=
  let r := stop_battery_control w in
  fst r = Returns tt /\
  control_active (manager (snd r)) = false /\
  control_end_time (manager (snd r)) = None.

(** "[active] implies exactly one live watchdog-refresh timer and exactly
    one live deadline timer; not [active] implies no live timers." *)
Definition timers_match_session (w : World) : Prop :=
  if is_active w
  then live_count is_watchdog w = 1%nat /\ live_count is_deadline w = 1%nat
  else live_count is_watchdog w = 0%nat /\ live_count is_deadline w = 0%nat.

(** "No timer from the prior session is still live": no task of [w] is
    live in [w']. *)
Definition no_prior_timer_live (w w' : World) : Prop :=
  forall i t, (i < length (tasks w))%nat ->
    tasks w' !! i = Some t -> is_live t = false.

(** The reset write (0x044C, 0). *)
Definition is_remote_mode_reset (c : write) : bool :=
  (w_address c =? 0x044C) &&
  match w_data c with [value] => value =? 0 | _ => false end.

(** "Two immediately successive Stop calls issue the reset writes at most
    once." *)
Definition resets_issued_at_most_once (w : World) : Prop :=
  (length (List.filter is_remote_mode_reset
             (issued_by (stop_battery_control ;; stop_battery_control) w))
   <= 1)%nat.

(** "The rated power falls back to 20000 whenever the reading is
    unavailable or non-positive, so the divisor is strictly positive." *)
Definition divisor_always_positive : Prop :=
  forall d : gmap string (list Z), 0 < rated_power_of d.

(** [n / d] rounded to the nearest integer, for [d > 0]; a tie goes to the
    even neighbour. *)
Definition round_div (n d : Z) : Z :=
  let q := n / d in
  let r := n mod d in
  match 2 * r ?= d with
  | Lt => q
  | Gt => q + 1
  | Eq => if Z.even q then q else q + 1
  end.

(** "[clamp(round(powerWatts / ratedPower * 1000), -1200, 1200)]". *)
Definition rounded_percentage (power_watts rated_power : Z) : Z :=
  Z.max (-1200) (Z.min 1200 (round_div (power_watts * 1000) rated_power)).

(** ** What the code maintains about its timers *)

(** Every watchdog task that is not done is the one [watchdog_task] refers
    to, and the session is then active. *)
Definition watchdog_tracked (w : World) : Prop :=
  forall i t, tasks w !! i = Some t ->
    t_kind t = WatchdogPing -> is_live t = true ->
    is_active w = true /\ watchdog_task (manager w) = Some i.

(** [watchdog_task], once set, refers to a watchdog task. *)
Definition handle_names_watchdog (w : World) : Prop :=
  forall handle, watchdog_task (manager w) = Some handle ->
    exists t, tasks w !! handle = Some t /\ t_kind t = WatchdogPing.

Definition no_live_watchdog (w : World) : Prop :=
  forall i t, tasks w !! i = Some t ->
    t_kind t = WatchdogPing -> is_live t = false.

(** The tasks of [w] are still in [w'], with their kinds. *)
Definition kinds_kept (w w' : World) : Prop :=
  forall i t, tasks w !! i = Some t ->
    exists t', tasks w' !! i = Some t' /\ t_kind t' = t_kind t.

Definition same_session (w w' : World) : Prop :=
  tasks w' = tasks w /\ manager w' = manager w.

(** ** Scenarios *)

(** A manager that was just constructed, no telemetry cached, at time 1000;
    [fails] is the behaviour of the device. *)
Definition fresh (fails : nat -> option exn) : World :=
  init_world fails ∅ 1000.

(** The same after [Start(5000, 10)]. *)
Definition started (fails : nat -> option exn) : World :=
  snd (start_battery_control 5000 10 (fresh fails)).

(** Two calls of [Start] that overlap: [Start(5000, 10)] awaits the answer
    to its first write when [Start(1000, 5)] begins; the device then answers
    the ten writes in the order in which they were issued. *)
Definition overlapping_starts : Loop :=
  loop_run
    (Begin (CallStart 5000 10) :: Begin (CallStart 1000 5) ::
     replicate 10 (Answer 0))
    (Running (fresh never_fails) []).

(** The same followed by a [Stop] that nothing interrupts. *)
Definition stopped_after_overlap : Loop :=
  loop_run [Begin CallStop; Answer 0; Answer 0] overlapping_starts.

(** Two calls of [Start] on an active session that overlap: [Start(1000, 5)]
    awaits the answer to the first reset write of its [Stop] sequence when
    [Start(2000, 15)] begins; the device then answers the fourteen writes in
    the order in which they were issued. *)
Definition overlapping_restarts : Loop :=
  loop_run
    (Begin (CallStart 1000 5) :: Begin (CallStart 2000 15) ::
     replicate 14 (Answer 0))
    (Running (started never_fails) []).

(** Two calls of [Start] that overlap, as above, on a device that refuses
    its eighteenth call; the watchdog task of the first call starts and
    sleeps; then comes a [Start] whose deadline is out of range, and 240
    seconds pass.  The session is active, it has no deadline, and the
    watchdog task of the first call, which was never cancelled, is due. *)
Definition active_without_deadline : World :=
  run [Resume 0; CallStart 5000 10000000000; Elapse 240]
    (world
       (loop_run
          (Begin (CallStart 5000 10) :: Begin (CallStart 1000 5) ::
           replicate 10 (Answer 0))
          (Running (fresh (fails_at 17 (CommunicationError 1))) []))).

(** ** Further observations on the session *)

(** [control_end_time] is set only when the session is active. *)
Definition deadline_matches (m : Manager) : Prop :=
  control_end_time m <> None -> control_active m = true.

(** The writes of the register map: function code 0x10, one data word,
    0x044C with 0 or 1, 0x0450 with 1, 0x0451 with 2, 0x044D with 300 and
    0x0455 with a value in [-1200, 1200]. *)
Definition in_register_map (c : write) : bool :=
  (w_code c =? 0x10) &&
  match w_data c with
  | [v] =>
      ((w_address c =? 0x044C) && ((v =? 0) || (v =? 1))) ||
      ((w_address c =? 0x0450) && (v =? 1)) ||
      ((w_address c =? 0x0451) && (v =? 2)) ||
      ((w_address c =? 0x044D) && (v =? 300)) ||
      ((w_address c =? 0x0455) && ((-1200 <=? v) && (v <=? 1200)))
  | _ => false
  end.

(** From [w] to [w'] the task table only grows: every task is still
    there with its kind, and a task that was done is unchanged. *)
Definition tasks_grow (w w' : World) : Prop :=
  forall i t, tasks w !! i = Some t ->
    exists t', tasks w' !! i = Some t' /\ t_kind t' = t_kind t /\
               (is_live t = false -> t' = t).

(** The calls of [w'] are those of [w] followed by calls of the register
    map. *)
Definition issues_register_map (w w' : World) : Prop :=
  exists l, issued w' = issued w ++ l /\ forallb in_register_map l = true.

(** ** Further scenarios *)

(** [Start(5000, 10)], its deadline task starts sleeping, [Start(1000, 60)]
    on the active session, then ten minutes pass. *)
Definition restarted_then_waited : World :=
  run [CallStart 5000 10; Resume 1; CallStart 1000 60; Elapse 600]
      (fresh never_fails).

(** A [battery_control] service call for 10 minutes on top of a manager
    session of 60 minutes; the service's stop task sleeps and ten minutes
    pass. *)
Definition service_over_session : World :=
  run [CallStart 5000 60; CallService 1000 10; Resume 2; Elapse 600]
      (fresh never_fails).

(** ** Further observations on the percentage *)

(** The same outcome with the opposite sign. *)
Definition negated (o : outcome Z) : outcome Z :=
  match o with
  | Returns n => Returns (- n)
  | Raises e => Raises e
  end.

(** The quotient [power_watts * 1000 / rated_power] of the integers,
    truncated toward zero and clamped. *)
Definition exact_percentage (power_watts rated_power : Z) : Z :=
  Z.max (-1200) (Z.min 1200 (Z.quot (power_watts * 1000) rated_power)).

(** [f] holds of the [n] consecutive integers from [start] on. *)
Fixpoint all_from (f : Z -> bool) (start : Z) (n : nat) : bool :=
  match n with
  | O => true
  | S n' => f start && all_from f (start + 1) n'
  end.

(** At the default rated power, [power_percentage] on [power_watts >= 0] is
    the exact percentage, or one less above the rated power. *)
Definition near_exact_at_default (power_watts : Z) : bool :=
  match power_percentage power_watts 20000 with
  | Returns n =>
      (n =? exact_percentage power_watts 20000) ||
      ((20000 <? power_watts) &&
       (n =? exact_percentage power_watts 20000 - 1))
  | Raises _ => false
  end.

(** ** [virtual_entity.py]: the switch of the session *)

(** The switch entity calls the manager.  As everywhere, an entry of
    [virtual_entities] is the [_virtual_value] of the entity registered
    under that name, and entities are registered under distinct names; the
    switch is the entity registered under [self_name].  The records that
    this module writes to its own logger are not kept. *)

(** Python truthiness of a [_virtual_value]; [is_on] is
    [bool(self._virtual_value)]. *)
Definition is_on (value : pyval) : bool :=
  match value with
  | PNone => false
  | PBool b => b
  | PInt n => negb (n =? 0)
  end.

(** [value or default], used as a number: a falsy value gives [default],
    and [True] counts as 1. *)
Definition number_or (default : Z) (value : pyval) : Z :=
  match value with
  | PInt n => if n =? 0 then default else n
  | PBool true => 1
  | PBool false | PNone => default
  end.

(** [needle in hay] on strings. *)
Fixpoint contains (needle hay : string) : bool :=
  String.prefix needle hay ||
  match hay with
  | EmptyString => false
  | String _ rest => contains needle rest
  end.

(** The loop of [async_turn_on] over [virtual_entities.items()] (lines
    87-94); [order] is the order of the keys of the dict, which is the order
    of their registration. *)
Definition pick_entities (order : list string)
    (entities : gmap string pyval) : option pyval * option pyval :=
  foldl (fun found entity_id =>
           match entities !! entity_id with
           | None => found
           | Some entity =>
               if contains "Manual Battery Power" entity_id
               then (Some entity, snd found)
               else if contains "Manual Control Duration" entity_id
               then (fst found, Some entity)
               else found
           end)
        (None, None) order.

(** [self.set_virtual_value(value)] on the switch itself. *)
Definition set_own_value (self_name : string) (value : pyval) : M unit :=
  update_manager (fun m =>
    set_virtual_entities (<[self_name := value]> (virtual_entities m)) m).

(** [SolarmanVirtualSwitchEntity.async_turn_on] (lines 83-108). *)
Definition async_turn_on (self_name : string) (order : list string) : M unit :=
  try_except
    (let* m := get_manager in
     match pick_entities order (virtual_entities m) with
     | (Some power_entity, Some duration_entity) =>
         let power_watts := number_or 0 power_entity in
         let duration_minutes := number_or 1 duration_entity in
         start_battery_control power_watts duration_minutes ;;
         set_own_value self_name (PBool true)
     | _ => ret tt
     end)
    (fun e => set_own_value self_name (PBool false)).

(** [SolarmanVirtualSwitchEntity.async_turn_off] (lines 110-116). *)
Definition async_turn_off (self_name : string) : M unit :=
  try_except
    (stop_battery_control ;;
     set_own_value self_name (PBool false))
    (fun e => ret tt).

(** ** [services.py]: the register services *)

(** The handlers that read and write registers talk to the device only:
    they are functions of the call data and of the device's answer.  The
    device and the coordinator of the call are taken as already looked up,
    as for [_battery_control]. *)

(** The members of [FUNCTION_CODE] that [services.py] uses; their values
    are declared outside the files at hand. *)
Record function_codes : Type := FunctionCodes {
  READ_HOLDING_REGISTERS : Z;
  READ_INPUT_REGISTERS : Z;
  WRITE_SINGLE_REGISTER : Z;
  WRITE_MULTIPLE_REGISTERS : Z
}.

(** [call.data]: one field for each [SERVICES_PARAM_*] key the handlers
    read ([None] when the key is absent); the keys are distinct. *)
Record call_data : Type := CallData {
  cd_address : option Z;
  cd_register : option Z;
  cd_count : option Z;
  cd_quantity : option Z;
  cd_value : option Z;
  cd_values : option (list Z)
}.

(** [a or b] on optional ints: [None] and 0 are falsy. *)
Definition int_or (a b : option Z) : option Z :=
  match a with
  | Some n => if n =? 0 then b else Some n
  | None => b
  end.

Inductive payload : Type :=
  | Word (value : Z)
  | Words (values : list Z).

(** [values or value]: [None] and the empty list are falsy. *)
Definition values_or (values : option (list Z)) (value : option Z)
    : option payload :=
  match values with
  | Some (v :: vs) => Some (Words (v :: vs))
  | Some [] | None => Word <$> value
  end.

(** One call [device.execute(code, address, data=..., count=...)] and what
    the device answers. *)
Record request : Type := Request {
  rq_code : Z;
  rq_address : option Z;
  rq_data : option payload;
  rq_count : option Z
}.

Inductive reply : Type :=
  | Response (registers : option (list Z))
  | DeviceRaises (e : exn).

(** What a handler wraps in [ServiceValidationError(e, ...,
    translation_key = "call_failed")]. *)
Inductive cause : Type :=
  | TypeError
  | IndexError
  | DeviceError (e : exn).

Inductive handled (A : Type) : Type :=
  | Done (a : A)
  | CallFailed (c : cause).
Arguments Done {A} a.
Arguments CallFailed {A} c.

(** [for i in range(0, count): yield address + i, response[i]] over the
    indices that are left. *)
Fixpoint read_pairs (address : option Z) (response : list Z)
    (indices : list nat) : handled (list (Z * Z)) :=
  match indices with
  | [] => Done []
  | i :: rest =>
      match address with
      | None => CallFailed TypeError
      | Some a =>
          match response !! i with
          | None => CallFailed IndexError
          | Some v =>
              match read_pairs address response rest with
              | Done pairs => Done ((a + Z.of_nat i, v) :: pairs)
              | CallFailed c => CallFailed c
              end
          end
      end
  end.

(** [_read_registers(call, code)] (lines 38-46), with every pair it
    yields. *)
Definition _read_registers (code : Z) (d : call_data)
    (device : request -> reply) : handled (list (Z * Z)) :=
  let address := int_or (cd_address d) (cd_register d) in
  let count := int_or (cd_count d) (cd_quantity d) in
  match device (Request code address None count) with
  | DeviceRaises e => CallFailed (DeviceError e)
  | Response None => Done []
  | Response (Some response) =>
      match count with
      | None => CallFailed TypeError
      | Some c => read_pairs address response (seq 0 (Z.to_nat c))
      end
  end.

(** [{k: v async for k, v in ...}]. *)
Definition to_dict (pairs : list (Z * Z)) : gmap Z Z :=
  foldl (fun m kv => <[kv.1 := kv.2]> m) ∅ pairs.

Definition _read_holding_registers (fc : function_codes) (d : call_data)
    (device : request -> reply) : handled (gmap Z Z) :=
  match _read_registers (READ_HOLDING_REGISTERS fc) d device with
  | Done pairs => Done (to_dict pairs)
  | CallFailed c => CallFailed c
  end.

Definition _read_input_registers (fc : function_codes) (d : call_data)
    (device : request -> reply) : handled (gmap Z Z) :=
  match _read_registers (READ_INPUT_REGISTERS fc) d device with
  | Done pairs => Done (to_dict pairs)
  | CallFailed c => CallFailed c
  end.

(** The call of [_write_single_register] (line 59). *)
Definition write_single_request (fc : function_codes) (d : call_data)
    : request :=
  Request (WRITE_SINGLE_REGISTER fc)
          (int_or (cd_address d) (cd_register d))
          (Word <$> cd_value d) None.

(** The call of [_write_multiple_registers] (line 110). *)
Definition write_multiple_request (fc : function_codes) (d : call_data)
    : request :=
  Request (WRITE_MULTIPLE_REGISTERS fc)
          (int_or (cd_address d) (cd_register d))
          (values_or (cd_values d) (cd_value d)) None.

Definition write_outcome (r : reply) : handled unit :=
  match r with
  | Response _ => Done tt
  | DeviceRaises e => CallFailed (DeviceError e)
  end.

Definition _write_single_register (fc : function_codes) (d : call_data)
    (device : request -> reply) : handled unit :=
  write_outcome (device (write_single_request fc d)).

Definition _write_multiple_registers (fc : function_codes) (d : call_data)
    (device : request -> reply) : handled unit :=
  write_outcome (device (write_multiple_request fc d)).

(** Call data and a device for the examples: a read of two registers from
    address 100, answered with three words. *)
Definition modbus_codes : function_codes := FunctionCodes 3 4 6 16.
Definition read_two_from_100 : call_data :=
  CallData (Some 100) None (Some 2) None None None.
Definition answers (response : list Z) : request -> reply :=
  fun _ => Response (Some response).

(** * Properties *)

(** ** Python numbers *)

Lemma digits2_pos_size p : digits2_pos p = Pos.size p.
Proof. induction p; cbn; congruence. Qed.

Lemma Zdigits2_log2 p : Zpos (digits2_pos p) = Z.log2 (Zpos p) + 1.
Proof.
  rewrite digits2_pos_size. destruct p; cbn; try lia.
Qed.

(** [m < 2^k] says that [m] has at most [k] binary digits. *)
Lemma Zdigits2_le m k : 0 <= m -> 0 <= k -> m < 2 ^ k -> Zdigits2 m <= k.
Proof.
  intros Hm Hk H. destruct m as [|p|p]; cbn; [lia| |lia].
  rewrite Zdigits2_log2. apply Z.log2_lt_pow2 in H; lia.
Qed.

Lemma Zdigits2_gt p : Zpos p < 2 ^ Zpos (digits2_pos p).
Proof.
  rewrite Zdigits2_log2. pose proof (Z.log2_spec (Zpos p) eq_refl). 
  replace (Z.log2 (Zpos p) + 1) with (Z.succ (Z.log2 (Zpos p))) by lia. lia.
Qed.

Lemma shr_m_shr_1 mrs : 0 <= shr_m mrs -> shr_m (shr_1 mrs) = shr_m mrs / 2.
Proof.
  destruct mrs as [m r s]. cbn. intros Hm.
  destruct m as [|[p|p|]|p]; cbn [shr_m]; try lia; try reflexivity.
  - apply Z.div_unique with (r := 1); lia.
  - apply Z.div_unique with (r := 0); lia.
Qed.

Lemma shr_m_iter n mrs :
  0 <= shr_m mrs ->
  shr_m (SpecFloat.iter_pos shr_1 n mrs) = shr_m mrs / 2 ^ Zpos n.
Proof.
  revert mrs. induction n as [n IH|n IH|]; intros mrs Hm; cbn [SpecFloat.iter_pos].
  - assert (H1 : 0 <= shr_m (shr_1 mrs)).
    { rewrite shr_m_shr_1 by exact Hm. apply Z.div_pos; lia. }
    assert (H2 : 0 <= shr_m (SpecFloat.iter_pos shr_1 n (shr_1 mrs))).
    { rewrite IH by exact H1. apply Z.div_pos; lia. }
    rewrite IH, IH, shr_m_shr_1 by assumption.
    rewrite !Z.div_div by lia. f_equal.
    replace (Zpos n~1) with (Zpos n + Zpos n + 1) by lia.
    rewrite !Z.pow_add_r by lia. change (2 ^ 1) with 2. ring.
  - assert (H2 : 0 <= shr_m (SpecFloat.iter_pos shr_1 n mrs)).
    { rewrite IH by exact Hm. apply Z.div_pos; lia. }
    rewrite IH, IH by assumption.
    rewrite !Z.div_div by lia. f_equal.
    replace (Zpos n~0) with (Zpos n + Zpos n) by lia.
    now rewrite Z.pow_add_r by lia.
  - rewrite shr_m_shr_1 by exact Hm. reflexivity.
Qed.

Lemma fexp_eq e : fexp prec emax e = Z.max (e - 53) (-1074).
Proof. reflexivity. Qed.

(** [shr_fexp] moves the exponent up to [max e (fexp (digits m + e))] and
    divides the mantissa accordingly. *)
Lemma shr_fexp_spec m e l mrs e' :
  0 <= m ->
  shr_fexp prec emax m e l = (mrs, e') ->
  e' = Z.max e (Z.max (Zdigits2 m + e - 53) (-1074)) /\
  shr_m mrs = m / 2 ^ (e' - e).
Proof.
  intros Hm. unfold shr_fexp, shr. rewrite fexp_eq.
  assert (Hrec : shr_m (shr_record_of_loc m l) = m)
    by (now destruct l as [|[]]).
  destruct (Z.max (Zdigits2 m + e - 53) (-1074) - e) as [|n|n] eqn:Hn;
    intros [= <- <-].
  - split; [lia|]. rewrite Hrec, Z.sub_diag. now rewrite Z.div_1_r.
  - split; [lia|]. rewrite shr_m_iter by lia. rewrite Hrec.
    f_equal. f_equal. lia.
  - split; [lia|]. rewrite Hrec, Z.sub_diag. now rewrite Z.div_1_r.
Qed.

Lemma round_nearest_even_bounds m l :
  m <= round_nearest_even m l <= m + 1.
Proof.
  destruct l as [|[]]; cbn; try lia. destruct (Z.even m); lia.
Qed.

Lemma pow2_nonneg_exp m k : 0 <= m -> m < 2 ^ k -> 0 <= k.
Proof.
  intros Hm H. destruct (Z.neg_nonneg_cases k) as [Hk|Hk]; [|exact Hk].
  rewrite Z.pow_neg_r in H by exact Hk. lia.
Qed.

Lemma div_pow2_lt m a b :
  0 <= m -> 0 <= a -> 0 <= b -> m < 2 ^ (a + b) -> m / 2 ^ a < 2 ^ b.
Proof.
  intros Hm Ha Hb H. apply Z.div_lt_upper_bound; [lia|].
  now rewrite <- Z.pow_add_r by lia.
Qed.

Lemma binary_round_aux_bounded s m e l B :
  0 <= m -> m < 2 ^ (B - e) -> e <= 971 -> -1074 <= B <= 1022 ->
  rounds_within s e (B + 1) (binary_round_aux prec emax s m e l).
Proof.
  intros Hm Hlt He HB. unfold binary_round_aux.
  pose proof (pow2_nonneg_exp m (B - e) Hm Hlt) as HBe.
  destruct (shr_fexp prec emax m e l) as [mrs1 e1] eqn:Hshr1.
  destruct (shr_fexp_spec m e l mrs1 e1 Hm Hshr1) as [He1 Hm1].
  pose proof (Zdigits2_le m (B - e) Hm HBe Hlt) as Hd.
  assert (Hm1lt : shr_m mrs1 < 2 ^ (B - e1)).
  { rewrite Hm1. apply div_pow2_lt; try lia.
    replace (e1 - e + (B - e1)) with (B - e) by lia. exact Hlt. }
  assert (Hm1pos : 0 <= shr_m mrs1).
  { rewrite Hm1. apply Z.div_pos; [lia|]. apply Z.pow_pos_nonneg; lia. }
  pose proof (round_nearest_even_bounds (shr_m mrs1) (loc_of_shr_record mrs1))
    as Hround.
  set (m1' := round_nearest_even (shr_m mrs1) (loc_of_shr_record mrs1)) in *.
  assert (Hm1'lt : m1' < 2 ^ (B + 1 - e1)).
  { replace (B + 1 - e1) with (1 + (B - e1)) by lia.
    rewrite Z.pow_add_r by lia. change (2 ^ 1) with 2. lia. }
  assert (Hm1'pos : 0 <= m1') by lia.
  destruct (shr_fexp prec emax m1' e1 loc_Exact) as [mrs2 e2] eqn:Hshr2.
  destruct (shr_fexp_spec m1' e1 loc_Exact mrs2 e2 Hm1'pos Hshr2) as [He2 Hm2].
  pose proof (Zdigits2_le m1' (B + 1 - e1) Hm1'pos ltac:(lia) Hm1'lt) as Hd'.
  assert (Hm2lt : shr_m mrs2 < 2 ^ (B + 1 - e2)).
  { rewrite Hm2. apply div_pow2_lt; try lia.
    replace (e2 - e1 + (B + 1 - e2)) with (B + 1 - e1) by lia. exact Hm1'lt. }
  assert (Hm2pos : 0 <= shr_m mrs2).
  { rewrite Hm2. apply Z.div_pos; [lia|]. apply Z.pow_pos_nonneg; lia. }
  destruct (shr_m mrs2) as [|m2|m2]; cbn; [reflexivity| |lia].
  change (emax - prec) with 971.
  destruct (Z.leb_spec e2 971) as [_|Hgt]; [|lia].
  cbn. repeat split; [lia|exact Hm2lt].
Qed.

Lemma digits2_pos_le_53 p : Zpos p < 2 ^ 53 -> Zpos (digits2_pos p) <= 53.
Proof. intros H. apply (Zdigits2_le (Zpos p) 53); lia. Qed.

Lemma Zdigits2_ge p : 2 ^ (Zpos (digits2_pos p) - 1) <= Zpos p.
Proof.
  rewrite Zdigits2_log2. pose proof (Z.log2_spec (Zpos p) eq_refl).
  replace (Z.log2 (Zpos p) + 1 - 1) with (Z.log2 (Zpos p)) by lia. lia.
Qed.

Lemma div_eucl_div_mod a b : Z.div_eucl a b = (a / b, a mod b).
Proof. unfold Z.div, Z.modulo. now destruct (Z.div_eucl a b). Qed.

(** The quotient of two non-zero integers below [2^53] in magnitude is
    zero or finite: no overflow and no NaN. *)
Lemma SFdiv_bounded s1 m1 s2 m2 :
  Zpos m1 < 2 ^ 53 -> Zpos m2 < 2 ^ 53 ->
  rounds_within (xorb s1 s2)
    (Zpos (digits2_pos m1) - Zpos (digits2_pos m2) - 53)
    (Zpos (digits2_pos m1) - Zpos (digits2_pos m2) + 2)
    (SFdiv prec emax (S754_finite s1 m1 0) (S754_finite s2 m2 0)).
Proof.
  intros H1 H2. unfold SFdiv, SFdiv_core_binary. cbn [Zdigits2].
  pose proof (digits2_pos_le_53 m1 H1) as Hd1.
  pose proof (digits2_pos_le_53 m2 H2) as Hd2.
  pose proof (Zdigits2_gt m1) as Hlt1. pose proof (Zdigits2_ge m2) as Hge2.
  set (d1 := Zpos (digits2_pos m1)) in *.
  set (d2 := Zpos (digits2_pos m2)) in *.
  assert (Hp1 : 1 <= d1) by (subst d1; lia).
  assert (Hp2 : 1 <= d2) by (subst d2; lia).
  rewrite fexp_eq.
  replace (Z.min (Z.max (d1 + 0 - (d2 + 0) - 53) (-1074)) (0 - 0))
    with (d1 - d2 - 53) by lia.
  replace (0 - 0 - (d1 - d2 - 53)) with (53 + d2 - d1) by lia.
  destruct (53 + d2 - d1) as [|k|k] eqn:Hk; try lia.
  rewrite div_eucl_div_mod, Z.shiftl_mul_pow2 by lia.
  assert (Hpow : Zpos m1 * 2 ^ Zpos k < 2 ^ 54 * Zpos m2).
  { apply Z.lt_le_trans with (2 ^ d1 * 2 ^ Zpos k).
    - apply Z.mul_lt_mono_pos_r; [apply Z.pow_pos_nonneg; lia|exact Hlt1].
    - rewrite <- Z.pow_add_r by lia.
      replace (d1 + Zpos k) with (54 + (d2 - 1)) by lia.
      rewrite Z.pow_add_r by lia.
      apply Z.mul_le_mono_nonneg_l; [apply Z.pow_nonneg; lia|exact Hge2]. }
  replace (d1 - d2 + 2) with (d1 - d2 + 1 + 1) by lia.
  apply binary_round_aux_bounded; try lia.
  - apply Z.div_pos; [|lia]. apply Z.mul_nonneg_nonneg; [lia|].
    apply Z.pow_nonneg; lia.
  - replace (d1 - d2 + 1 - (d1 - d2 - 53)) with 54 by lia.
    apply Z.div_lt_upper_bound; lia.
Qed.

Lemma rounds_within_returns s e B x :
  rounds_within s e B x -> or_overflow x = Returns x.
Proof. destruct x; cbn; tauto. Qed.

Lemma rounds_within_finite_signed s e B x :
  rounds_within s e B x -> finite_signed s x.
Proof. destruct x; cbn; tauto. Qed.

Lemma float_of_int_1000 :
  float_of_int 1000 = S754_finite false 8796093022208000 (-43).
Proof. reflexivity. Qed.

Lemma py_mul_1000_finite s e B x :
  rounds_within s e B x -> -1000 <= e -> B <= 1000 ->
  finite_signed s (py_mul x 1000).
Proof.
  intros Hx He HB. unfold py_mul. rewrite float_of_int_1000.
  destruct x as [s'| | |s' mx ex]; cbn in Hx; try contradiction.
  - subst s'. cbn. now destruct s.
  - destruct Hx as (-> & Hex & Hmx). cbn [SFmul].
    replace (xorb s false) with s by (now destruct s).
    pose proof (pow2_nonneg_exp (Zpos mx) (B - ex) ltac:(lia) Hmx) as Hpos.
    apply (rounds_within_finite_signed s (ex + -43) (B + 10 + 1)).
    apply binary_round_aux_bounded; try lia.
    rewrite Pos2Z.inj_mul.
    replace (B + 10 - (ex + -43)) with ((B - ex) + 53) by lia.
    rewrite Z.pow_add_r by lia.
    assert (8796093022208000 < 2 ^ 53) by reflexivity.
    nia.
Qed.

Lemma trunc_magnitude_nonneg m e : 0 <= trunc_magnitude m e.
Proof.
  unfold trunc_magnitude. destruct e.
  - apply Z.shiftl_nonneg. lia.
  - apply Z.shiftl_nonneg. lia.
  - apply Z.shiftr_nonneg. lia.
Qed.

Lemma py_int_truncates y n : py_int y = Returns n -> is_truncation_of y n.
Proof.
  destruct y as [s| | |s m e]; cbn; try discriminate.
  - now intros [= <-].
  - intros [= <-]. pose proof (trunc_magnitude_nonneg m e) as Hpos.
    split; [destruct s; lia|].
    replace (Z.abs (if s then - trunc_magnitude m e else trunc_magnitude m e))
      with (trunc_magnitude m e) by (destruct s; lia).
    unfold trunc_magnitude. destruct e as [|k|k].
    + change (Z.shiftl (Zpos m) 0) with (Zpos m).
      change (Z.max 0 (- 0)) with 0. change (Z.max 0 0) with 0.
      change (2 ^ 0) with 1. lia.
    + rewrite Z.shiftl_mul_pow2 by lia.
      replace (Z.max 0 (- Zpos k)) with 0 by lia.
      replace (Z.max 0 (Zpos k)) with (Zpos k) by lia.
      change (2 ^ 0) with 1. lia.
    + rewrite Z.shiftr_div_pow2 by lia.
      replace (Z.max 0 (- Zneg k)) with (Zpos k) by lia.
      replace (Z.max 0 (Zneg k)) with 0 by lia.
      change (2 ^ 0) with 1.
      assert (Hp : 0 < 2 ^ Zpos k) by (apply Z.pow_pos_nonneg; lia).
      pose proof (Z.div_mod (Zpos m) (2 ^ Zpos k) ltac:(lia)) as Hdm.
      pose proof (Z.mod_pos_bound (Zpos m) (2 ^ Zpos k) Hp) as Hmod.
      nia.
Qed.

Lemma py_int_finite s y :
  finite_signed s y ->
  exists n, py_int y = Returns n /\ (if s then n <= 0 else 0 <= n).
Proof.
  destruct y as [s'| | |s' m e]; cbn; try contradiction; intros ->.
  - exists 0. split; [reflexivity|destruct s; lia].
  - eexists. split; [reflexivity|].
    pose proof (trunc_magnitude_nonneg m e). destruct s; lia.
Qed.

Lemma exact_int_finite n :
  n <> 0 -> - 2 ^ 53 < n < 2 ^ 53 ->
  exists m, exact_int n = S754_finite (n <? 0) m 0 /\ Zpos m < 2 ^ 53.
Proof.
  intros Hn Hlt. destruct n as [|p|p]; [contradiction| |];
    exists p; (split; [reflexivity|lia]).
Qed.

Lemma power_percentage_total p r :
  - 2 ^ 53 < p < 2 ^ 53 -> 0 < r < 2 ^ 53 ->
  exists y n,
    py_truediv p r = Returns y /\
    py_int (py_mul y 1000) = Returns n /\
    (0 <= p -> 0 <= n) /\ (p <= 0 -> n <= 0).
Proof.
  intros Hp Hr. unfold py_truediv.
  destruct (Z.eqb_spec r 0) as [?|_]; [lia|].
  destruct (exact_int_finite r ltac:(lia) ltac:(lia)) as (m2 & -> & Hm2).
  replace (r <? 0) with false by (symmetry; apply Z.ltb_ge; lia).
  destruct (Z.eq_dec p 0) as [->|Hp0].
  - eexists _, 0. split; [reflexivity|]. split; [reflexivity|]. lia.
  - destruct (exact_int_finite p Hp0 Hp) as (m1 & -> & Hm1).
    pose proof (SFdiv_bounded (p <? 0) m1 false m2 Hm1 Hm2) as Hdiv.
    replace (xorb (p <? 0) false) with (p <? 0) in Hdiv
      by (now destruct (p <? 0)).
    rewrite (rounds_within_returns _ _ _ _ Hdiv).
    pose proof (digits2_pos_le_53 m1 Hm1). pose proof (digits2_pos_le_53 m2 Hm2).
    apply py_mul_1000_finite in Hdiv; try lia.
    destruct (py_int_finite _ _ Hdiv) as (n & Hn & Hsign).
    eexists _, n. split; [reflexivity|]. split; [exact Hn|].
    destruct (Z.ltb_spec p 0); lia.
Qed.

(** An integer divided by its half is exactly 2. *)
Lemma SFdiv_double s p :
  SFdiv prec emax (S754_finite s p~0 0) (S754_finite false p 0) =
  S754_finite s 4503599627370496 (-51).
Proof.
  unfold SFdiv, SFdiv_core_binary. cbn [Zdigits2 digits2_pos].
  rewrite Pos2Z.inj_succ, fexp_eq.
  replace (Z.min
             (Z.max (Z.succ (Zpos (digits2_pos p)) + 0 -
                     (Zpos (digits2_pos p) + 0) - 53) (-1074)) (0 - 0))
    with (-52) by lia.
  change (0 - 0 - -52) with 52.
  rewrite div_eucl_div_mod, Z.shiftl_mul_pow2 by lia.
  replace (Zpos p~0 * 2 ^ 52) with (2 ^ 53 * Zpos p)
    by (change (2 ^ 53) with (2 * 2 ^ 52); lia).
  rewrite Z.div_mul, Z.mod_mul by lia.
  replace (new_location (Zpos p) 0) with loc_Exact
    by (unfold new_location; now destruct (Z.even (Zpos p))).
  replace (xorb s false) with s by (now destruct s).
  now destruct s.
Qed.

Lemma power_percentage_double r :
  0 < r -> 2 * r < 2 ^ 53 ->
  power_percentage (2 * r) r = Returns 1200 /\
  power_percentage (- (2 * r)) r = Returns (-1200).
Proof.
  intros Hr Hlt. destruct r as [|p|p]; try lia.
  unfold power_percentage, py_truediv.
  destruct (Z.eqb_spec (Zpos p) 0) as [?|_]; [lia|].
  change (2 * Zpos p) with (Zpos p~0). change (- Zpos p~0) with (Zneg p~0).
  cbn [exact_int]. rewrite !SFdiv_double.
  split; reflexivity.
Qed.

(** [int()] drops the fraction where rounding to nearest would not, and the
    double-precision product can fall just below an integer. *)
Example power_percentage_15_20000 : power_percentage 15 20000 = Returns 0.
Proof. reflexivity. Qed.

Example power_percentage_1015_1000 : power_percentage 1015 1000 = Returns 1014.
Proof. reflexivity. Qed.

(** C4, as amended.  For every integer [power_watts] and every positive
    [rated_power], both below [2^53] in magnitude, the computation of the
    setpoint raises nothing and gives
    [clamp(int(power_watts / rated_power * 1000), -1200, 1200)], where the
    quotient and the product are the binary64 ones and [int] drops the
    fractional part (it does not round to nearest).  The setpoint is in
    [-1200, 1200], its sign is never opposite to the sign of the input, and
    twice the rated power gives 1200, minus twice the rated power -1200. *)
Theorem power_percentage_truncates (power_watts rated_power : Z) :
  - 2 ^ 53 < power_watts < 2 ^ 53 ->
  0 < rated_power < 2 ^ 53 ->
  (exists y n,
     py_truediv power_watts rated_power = Returns y /\
     py_int (py_mul y 1000) = Returns n /\
     is_truncation_of (py_mul y 1000) n /\
     power_percentage power_watts rated_power =
       Returns (Z.max (-1200) (Z.min 1200 n)) /\
     -1200 <= Z.max (-1200) (Z.min 1200 n) <= 1200 /\
     (0 <= power_watts -> 0 <= Z.max (-1200) (Z.min 1200 n)) /\
     (power_watts <= 0 -> Z.max (-1200) (Z.min 1200 n) <= 0)) /\
  (2 * rated_power < 2 ^ 53 ->
   power_percentage (2 * rated_power) rated_power = Returns 1200 /\
   power_percentage (- (2 * rated_power)) rated_power = Returns (-1200)).
Proof.
  intros Hp Hr. split.
  - destruct (power_percentage_total power_watts rated_power Hp Hr)
      as (y & n & Hy & Hn & Hpos & Hneg).
    exists y, n. split; [exact Hy|]. split; [exact Hn|].
    split; [now apply py_int_truncates|].
    split; [unfold power_percentage; now rewrite Hy, Hn|]. lia.
  - intros H2. apply power_percentage_double; lia.
Qed.

Lemma power_percentage_truncates_witness :
  power_percentage (2 * 20000) 20000 = Returns 1200 /\
  power_percentage (- (2 * 20000)) 20000 = Returns (-1200).
Proof.
  destruct (power_percentage_truncates 5000 20000) as [_ H]; [lia|lia|].
  apply H. lia.
Defined.

(** C4, as the specification states it, fails: 15 W at a rated power of
    20000 W is 0.75 tenths of a percent, which rounds to 1; the code
    computes 0. *)
Lemma power_percentage_is_not_rounded :
  rounded_percentage 15 20000 = 1 /\
  power_percentage 15 20000 = Returns 0 /\
  power_percentage 15 20000 <> Returns (rounded_percentage 15 20000).
Proof. split; [reflexivity|]. split; [reflexivity|discriminate]. Qed.

(** ** The rated power *)

(** C5, as amended.  The rated power is 20000 when the cached reading is
    unavailable (the key is missing or its value is empty); a reading that
    is present is used as it is.  Hence, when the reading is unavailable or
    positive, the divisor is strictly positive and the division does not
    raise [ZeroDivisionError], whatever the power. *)
Theorem rated_power_fallback (d : gmap string (list Z)) :
  (d !! "device_rated_power_sensor"%string = None \/
   d !! "device_rated_power_sensor"%string = Some [] ->
   rated_power_of d = 20000) /\
  (forall reading rest,
     d !! "device_rated_power_sensor"%string = Some (reading :: rest) ->
     rated_power_of d = reading) /\
  ((d !! "device_rated_power_sensor"%string = None \/
    d !! "device_rated_power_sensor"%string = Some [] \/
    exists reading rest,
      d !! "device_rated_power_sensor"%string = Some (reading :: rest) /\
      0 < reading) ->
   0 < rated_power_of d /\
   forall power_watts,
     py_truediv power_watts (rated_power_of d) <> Raises ZeroDivisionError).
Proof.
  unfold rated_power_of. split; [|split].
  - intros [-> | ->]; reflexivity.
  - intros reading rest ->. reflexivity.
  - intros H.
    assert (Hpos : 0 < match d !! "device_rated_power_sensor"%string with
                       | Some (reading :: _) => reading
                       | _ => 20000
                       end).
    { destruct H as [-> |[-> |(reading & rest & -> & Hpos)]];
        [reflexivity|reflexivity|exact Hpos]. }
    split; [exact Hpos|]. intros power_watts. unfold py_truediv.
    destruct (Z.eqb_spec
                (match d !! "device_rated_power_sensor"%string with
                 | Some (reading :: _) => reading
                 | _ => 20000
                 end) 0) as [Heq|_]; [lia|].
    now destruct (SFdiv _ _ _ _).
Qed.

Lemma rated_power_fallback_witness :
  rated_power_of ∅ = 20000 /\
  rated_power_of {[ "device_rated_power_sensor"%string := [8000] ]} = 8000.
Proof.
  split.
  - destruct (rated_power_fallback ∅) as [H _]. apply H. now left.
  - destruct (rated_power_fallback
                {[ "device_rated_power_sensor"%string := [8000] ]})
      as (_ & H & _).
    apply (H 8000 []). reflexivity.
Defined.

(** C5, as the specification states it, fails: a cached reading of 0 is
    used as the divisor, and [Start] raises [ZeroDivisionError]. *)
Lemma zero_reading_is_the_divisor :
  ~ divisor_always_positive /\
  rated_power_of {[ "device_rated_power_sensor"%string := [0] ]} = 0 /\
  fst (start_battery_control 5000 10
         (init_world never_fails
            {[ "device_rated_power_sensor"%string := [0] ]} 1000)) =
    Raises ZeroDivisionError.
Proof.
  split; [|split; reflexivity]. intros H.
  specialize (H {[ "device_rated_power_sensor"%string := [0] ]}).
  vm_compute in H. discriminate H.
Qed.

(** ** The coroutines in closed form *)

Arguments assign_virtual_value : simpl never.

Lemma length_snoc {A} (l : list A) x : length (l ++ [x]) = S (length l).
Proof. rewrite length_app. cbn. lia. Qed.

Ltac co_unfold :=
  unfold try_except, bind, ret, raise, lift, get_manager, get_data,
    update_manager, set_virtual_value, log, cancel, now, create_task, execute.

Lemma with_issued_same w : with_issued (issued w) w = w.
Proof. now destruct w. Qed.

Lemma write_registers_eq regs w :
  write_registers regs w =
  match first_failure (device_fails w) (length (issued w)) (length regs) with
  | None => (Returns tt, with_issued (issued w ++ map to_write regs) w)
  | Some (k, e) =>
      (Raises e,
       with_issued (issued w ++ map to_write (take (S k) regs)) w)
  end.
Proof.
  revert w. induction regs as [|[address value] rest IH]; intros w; cbn.
  - now rewrite app_nil_r, with_issued_same.
  - unfold bind at 1. unfold execute at 1.
    destruct (device_fails w (length (issued w))) as [e|]; [reflexivity|].
    rewrite IH. cbn. rewrite length_snoc.
    destruct (first_failure _ _ _) as [[k e]|];
      cbn; now rewrite <- app_assoc.
Qed.

Lemma stop_battery_control_eq w :
  stop_battery_control w = (Returns tt, stop_world w).
Proof.
  unfold stop_battery_control, stop_world, cancel_watchdog.
  unfold bind at 1. unfold get_manager at 1.
  destruct (control_active (manager w)); [|reflexivity].
  cbn [negb]. unfold try_except, bind at 1.
  destruct (watchdog_task (manager w)) as [handle|].
  - unfold cancel at 1. unfold bind at 1. rewrite write_registers_eq. cbn.
    destruct (device_fails w (length (issued w))); [reflexivity|].
    destruct (device_fails w (S (length (issued w)))); reflexivity.
  - unfold ret at 1. unfold bind at 1. rewrite write_registers_eq. cbn.
    destruct (device_fails w (length (issued w))); [reflexivity|].
    destruct (device_fails w (S (length (issued w)))); reflexivity.
Qed.

Lemma add_minutes_returns t d t' :
  add_minutes t d = Returns t' -> t' = t + 60 * d.
Proof.
  unfold add_minutes. destruct (negb _); [discriminate|].
  destruct (_ && _); [|discriminate]. intros [= <-]. lia.
Qed.

Lemma add_minutes_raises t d e :
  add_minutes t d = Raises e -> e = OverflowError.
Proof.
  unfold add_minutes. destruct (negb _); [now intros [= <-]|].
  destruct (_ && _); [discriminate|now intros [= <-]].
Qed.

Lemma start_battery_control_eq p d w :
  start_battery_control p d w =
  start_from p d (if control_active (manager w) then stop_world w else w).
Proof.
  unfold start_battery_control. unfold bind at 1. unfold get_manager at 1.
  unfold bind at 1.
  assert (Hpre :
    (if control_active (manager w) then stop_battery_control else ret tt) w =
    (Returns tt, if control_active (manager w) then stop_world w else w)).
  { destruct (control_active (manager w)); [apply stop_battery_control_eq|reflexivity]. }
  rewrite Hpre. generalize (if control_active (manager w) then stop_world w else w).
  clear. intros w. unfold start_from, try_except.
  unfold bind at 1. unfold get_data. unfold bind at 1. unfold lift.
  destruct (power_percentage p (rated_power_of (data w))) as [pp|e].
  - unfold bind at 1. rewrite write_registers_eq.
    change (length (registers pp)) with 5%nat.
    destruct (first_failure _ _ _) as [[k e]|].
    + unfold start_failed, bind, log, raise. now rewrite stop_battery_control_eq.
    + unfold bind at 1. unfold update_manager at 1.
      unfold bind at 1. unfold now at 1. unfold bind at 1.
      cbn [clock with_manager with_issued].
      destruct (add_minutes (clock w) d) as [end_time|e] eqn:Hend.
      * apply add_minutes_returns in Hend. subst end_time.
        unfold started_world, bind, update_manager, create_task, log. cbn.
        now rewrite <- app_assoc.
      * unfold start_failed, marked_active, bind, log, raise.
        now rewrite stop_battery_control_eq.
  - unfold start_failed, bind, log, raise. now rewrite stop_battery_control_eq.
Qed.

Lemma first_failure_None fails from n :
  first_failure fails from n = None <->
  forall i, (i < n)%nat -> fails (from + i)%nat = None.
Proof.
  revert from. induction n as [|n IH]; intros from; cbn.
  - split; [intros _ i Hi; lia|reflexivity].
  - destruct (fails from) as [e|] eqn:Hfrom.
    + split; [discriminate|]. intros H. specialize (H 0%nat).
      rewrite Nat.add_0_r, Hfrom in H. discriminate H. lia.
    + specialize (IH (S from)).
      destruct (first_failure fails (S from) n) as [[k e]|].
      * split; [discriminate|]. intros H.
        assert (Hn : Some (k, e) = None); [|discriminate Hn].
        apply IH. intros i Hi.
        replace (S from + i)%nat with (from + S i)%nat by lia.
        apply H. lia.
      * split; [|reflexivity]. intros _ i Hi.
        destruct i as [|i]; [now rewrite Nat.add_0_r|].
        replace (from + S i)%nat with (S from + i)%nat by lia.
        apply IH; [reflexivity|lia].
Qed.

Lemma accepts_first_failure w n :
  accepts w n <-> first_failure (device_fails w) (length (issued w)) n = None.
Proof. symmetry. apply first_failure_None. Qed.

Lemma lookup_assign_virtual_value name value (entities : gmap string pyval) :
  assign_virtual_value name value entities !! name =
  (fun _ => value) <$> entities !! name.
Proof.
  unfold assign_virtual_value.
  destruct (entities !! name) eqn:H; cbn.
  - now rewrite lookup_insert_eq.
  - now rewrite H.
Qed.

Lemma lookup_assign_virtual_value_ne name name' value
    (entities : gmap string pyval) :
  name <> name' ->
  assign_virtual_value name value entities !! name' = entities !! name'.
Proof.
  intros Hne. unfold assign_virtual_value.
  destruct (entities !! name); [now rewrite lookup_insert_ne|reflexivity].
Qed.

(** ** Stop *)

Lemma stop_when_idle w :
  is_active w = false -> stop_battery_control w = (Returns tt, w).
Proof.
  intros H. rewrite stop_battery_control_eq. unfold stop_world.
  unfold is_active in H. now rewrite H.
Qed.

Lemma stop_accepted w :
  is_active w = true -> accepts w 2 ->
  stop_world w =
  with_logs (logs w ++ [(Info, MsgStopped)])
    (with_manager (idle_manager (manager w))
       (with_issued (issued w ++ map to_write reset_registers)
          (cancel_watchdog w))).
Proof.
  intros Ha Hacc. unfold stop_world. unfold is_active in Ha. rewrite Ha.
  apply accepts_first_failure in Hacc. now rewrite Hacc.
Qed.

Lemma manager_cancel_watchdog w : manager (cancel_watchdog w) = manager w.
Proof. unfold cancel_watchdog. now destruct (watchdog_task (manager w)). Qed.

Lemma stop_rejected w :
  is_active w = true -> ~ accepts w 2 ->
  exists k e,
    first_failure (device_fails w) (length (issued w)) 2 = Some (k, e) /\
    stop_world w =
    with_logs (logs w ++ [(Error, MsgStopError e)])
      (with_issued (issued w ++ map to_write (take (S k) reset_registers))
         (cancel_watchdog w)).
Proof.
  intros Ha Hacc. unfold stop_world. unfold is_active in Ha. rewrite Ha.
  rewrite accepts_first_failure in Hacc.
  destruct (first_failure _ _ _) as [[k e]|]; [|contradiction].
  now exists k, e.
Qed.

(** C2, as amended.  [Stop] on an active session never raises.  When the
    device accepts both reset writes, the session is cleared
    ([control_active] false, [control_end_time] [None]) and the registered
    indicators "Manual Battery Power" and "Manual Control Active" are set to
    0 and False.  When a reset write is refused, the error is logged and the
    manager object is left exactly as it was: still active, same deadline,
    same indicators. *)
Theorem stop_clears_when_resets_accepted (w : World) :
  is_active w = true ->
  let r := stop_battery_control w in
  fst r = Returns tt /\
  (accepts w 2 ->
     control_active (manager (snd r)) = false /\
     control_end_time (manager (snd r)) = None /\
     virtual_entities (manager (snd r)) !! "Manual Battery Power"%string =
       ((fun _ => PInt 0) <$>
          virtual_entities (manager w) !! "Manual Battery Power"%string) /\
     virtual_entities (manager (snd r)) !! "Manual Control Active"%string =
       ((fun _ => PBool false) <$>
          virtual_entities (manager w) !! "Manual Control Active"%string) /\
     issued (snd r) =
       issued w ++ [Write 0x10 0x044C [0]; Write 0x10 0x0455 [0]]) /\
  (~ accepts w 2 ->
     manager (snd r) = manager w /\
     exists e, logs (snd r) = logs w ++ [(Error, MsgStopError e)]).
Proof.
  intros Ha r. subst r. rewrite stop_battery_control_eq. cbn [fst snd].
  split; [reflexivity|]. split.
  - intros Hacc. rewrite (stop_accepted w Ha Hacc). cbn.
    repeat split; try reflexivity.
    + rewrite lookup_assign_virtual_value_ne by discriminate.
      apply lookup_assign_virtual_value.
    + rewrite lookup_assign_virtual_value.
      now rewrite lookup_assign_virtual_value_ne by discriminate.
  - intros Hacc. destruct (stop_rejected w Ha Hacc) as (k & e & _ & ->). cbn.
    split; [apply manager_cancel_watchdog|]. exists e.
    unfold cancel_watchdog. now destruct (watchdog_task (manager w)).
Qed.

Lemma stop_clears_when_resets_accepted_witness :
  fst (stop_battery_control (started never_fails)) = Returns tt /\
  control_active
    (manager (snd (stop_battery_control (started never_fails)))) = false.
Proof.
  pose proof (stop_clears_when_resets_accepted (started never_fails)) as H.
  destruct H as (H1 & H2 & _); [reflexivity|].
  split; [exact H1|]. apply H2. intros i _. reflexivity.
Defined.

(** C2, as the specification states it, fails: a device that refuses the
    first reset write leaves the session active after [Stop]. *)
Lemma stop_clears_session_fails :
  is_active (started (fails_at 5 (CommunicationError 1))) = true /\
  ~ stop_clears_session (started (fails_at 5 (CommunicationError 1))).
Proof.
  split; [reflexivity|]. intros (_ & H & _). vm_compute in H. discriminate H.
Qed.

(** C9, as amended.  [Stop] on an idle session is a no-op: nothing is
    issued, nothing changes, nothing is raised.  Consequently, when the
    device accepts the reset writes of a first [Stop], a second [Stop] right
    after it is a no-op and the reset writes were issued once. *)
Theorem stop_when_idle_is_noop (w : World) :
  (is_active w = false -> stop_battery_control w = (Returns tt, w)) /\
  (accepts w 2 ->
   let w' := snd (stop_battery_control w) in
   stop_battery_control w' = (Returns tt, w') /\
   resets_issued_at_most_once w).
Proof.
  split; [apply stop_when_idle|]. intros Hacc w'.
  assert (Hidle : is_active w' = false).
  { subst w'. rewrite stop_battery_control_eq. cbn [snd].
    destruct (is_active w) eqn:Ha.
    - now rewrite (stop_accepted w Ha Hacc).
    - unfold stop_world. unfold is_active in Ha. now rewrite Ha. }
  split; [now apply stop_when_idle|].
  unfold resets_issued_at_most_once, issued_by, bind.
  fold w'. replace (stop_battery_control w) with (Returns tt, w')
    by (subst w'; now rewrite stop_battery_control_eq).
  rewrite (stop_when_idle w' Hidle). cbn [snd].
  subst w'. rewrite stop_battery_control_eq. cbn [snd].
  destruct (is_active w) eqn:Ha.
  - rewrite (stop_accepted w Ha Hacc). cbn [issued with_logs with_manager with_issued].
    rewrite drop_app_length. cbn. lia.
  - unfold stop_world. unfold is_active in Ha. rewrite Ha.
    rewrite drop_all. cbn. lia.
Qed.

Lemma stop_when_idle_is_noop_witness :
  stop_battery_control (fresh never_fails) = (Returns tt, fresh never_fails) /\
  resets_issued_at_most_once (started never_fails).
Proof.
  split.
  - destruct (stop_when_idle_is_noop (fresh never_fails)) as [H _].
    apply H. reflexivity.
  - destruct (stop_when_idle_is_noop (started never_fails)) as [_ H].
    apply H. intros i _. reflexivity.
Defined.

(** C9, as the specification states it, fails: when the device refuses the
    second reset write of the first [Stop], the session stays active and the
    second [Stop] issues the reset writes again. *)
Lemma resets_issued_twice :
  ~ resets_issued_at_most_once (started (fails_at 6 (CommunicationError 1))) /\
  issued_by (stop_battery_control ;; stop_battery_control)
    (started (fails_at 6 (CommunicationError 1))) =
  [Write 0x10 0x044C [0]; Write 0x10 0x0455 [0];
   Write 0x10 0x044C [0]; Write 0x10 0x0455 [0]].
Proof.
  split; [|reflexivity]. unfold resets_issued_at_most_once.
  vm_compute. lia.
Qed.

(** ** Start *)

Lemma clock_stop_world w : clock (stop_world w) = clock w.
Proof.
  unfold stop_world. destruct (control_active (manager w)); [|reflexivity].
  cbv zeta. unfold cancel_watchdog.
  destruct (first_failure _ _ _) as [[k e]|];
    now destruct (watchdog_task (manager w)).
Qed.

Lemma data_stop_world w : data (stop_world w) = data w.
Proof.
  unfold stop_world. destruct (control_active (manager w)); [|reflexivity].
  cbv zeta. unfold cancel_watchdog.
  destruct (first_failure _ _ _) as [[k e]|];
    now destruct (watchdog_task (manager w)).
Qed.

Lemma start_from_success p d w :
  fst (start_from p d w) = Returns tt ->
  exists pp,
    power_percentage p (rated_power_of (data w)) = Returns pp /\
    snd (start_from p d w) = started_world p d pp w.
Proof.
  unfold start_from, start_failed.
  destruct (power_percentage p (rated_power_of (data w))) as [pp|e];
    [|discriminate].
  destruct (first_failure _ _ _) as [[k e]|]; [discriminate|].
  destruct (add_minutes (clock w) d); [|discriminate].
  intros _. now exists pp.
Qed.


Lemma issued_by_app {A} (m : M A) w l :
  issued (snd (m w)) = issued w ++ l -> issued_by m w = l.
Proof. intros H. unfold issued_by. rewrite H. apply drop_app_length. Qed.

Lemma start_from_idle p d w :
  is_active w = false ->
  start_battery_control p d w = start_from p d w.
Proof.
  intros H. rewrite start_battery_control_eq. unfold is_active in H.
  now rewrite H.
Qed.

Lemma issued_stop_world w :
  issued (stop_world w) = issued w ++ issued_by stop_battery_control w.
Proof.
  unfold issued_by. rewrite stop_battery_control_eq. cbn [snd].
  assert (H : exists l, issued (stop_world w) = issued w ++ l).
  { unfold stop_world. destruct (control_active (manager w));
      [|exists []; now rewrite app_nil_r].
    cbv zeta. destruct (first_failure _ _ _) as [[k e]|]; eexists; reflexivity. }
  destruct H as [l ->]. now rewrite drop_app_length.
Qed.

Lemma start_battery_control_eq_stop p d w :
  start_battery_control p d w = start_from p d (stop_world w).
Proof.
  rewrite start_battery_control_eq. unfold stop_world.
  now destruct (control_active (manager w)).
Qed.

(** C7.  With a rated power of 20000, a successful [Start(5000, 10)] issues
    the five writes (0x044C,1), (0x0450,1), (0x0451,2), (0x044D,300),
    (0x0455,250) in this order, after the reset writes of the [Stop]
    sequence when the session was active and after nothing when it was
    idle, and leaves the session active with the deadline 600 seconds after
    the clock reading.  From an idle session, [Start(5000, 10)] succeeds
    exactly when the device accepts the five calls and the clock reading
    plus ten minutes is still a [datetime]. *)
Theorem start_5000_10_writes (w : World) :
  rated_power_of (data w) = 20000 ->
  let r := start_battery_control 5000 10 w in
  (is_active w = false ->
   (fst r = Returns tt <->
    accepts w 5 /\ add_minutes (clock w) 10 = Returns (clock w + 600))) /\
  (fst r = Returns tt ->
   issued_by (start_battery_control 5000 10) w =
     issued_by stop_battery_control w ++
     [Write 0x10 0x044C [1]; Write 0x10 0x0450 [1]; Write 0x10 0x0451 [2];
      Write 0x10 0x044D [300]; Write 0x10 0x0455 [250]] /\
   (is_active w = false ->
    issued_by (start_battery_control 5000 10) w =
      [Write 0x10 0x044C [1]; Write 0x10 0x0450 [1]; Write 0x10 0x0451 [2];
       Write 0x10 0x044D [300]; Write 0x10 0x0455 [250]]) /\
   is_active (snd r) = true /\
   control_end_time (manager (snd r)) = Some (clock w + 600)).
Proof.
  intros Hrated r. split.
  - intros Hidle. subst r. rewrite (start_from_idle 5000 10 w Hidle).
    unfold start_from. rewrite Hrated.
    change (power_percentage 5000 20000) with (Returns 250 : outcome Z).
    rewrite accepts_first_failure.
    destruct (first_failure _ _ _) as [[k e]|];
      [split; [discriminate|intros [H _]; discriminate H]|].
    destruct (add_minutes (clock w) 10) as [end_time|e] eqn:Hend.
    + apply add_minutes_returns in Hend. subst end_time.
      split; [intros _; split; [reflexivity|f_equal; lia]|reflexivity].
    + split; [discriminate|intros [_ H]; discriminate H].
  - subst r. rewrite start_battery_control_eq_stop. intros Hok.
    destruct (start_from_success 5000 10 (stop_world w) Hok) as (pp & Hpp & Hw).
    rewrite data_stop_world, Hrated in Hpp.
    change (power_percentage 5000 20000) with (Returns 250 : outcome Z) in Hpp.
    injection Hpp as <-.
    assert (Hissued :
      issued_by (start_battery_control 5000 10) w =
      issued_by stop_battery_control w ++ map to_write (registers 250)).
    { apply issued_by_app. rewrite start_battery_control_eq_stop, Hw.
      unfold started_world. cbn [issued with_logs with_tasks with_manager
                                   with_issued].
      now rewrite issued_stop_world, <- app_assoc. }
    split; [exact Hissued|]. split; [|split].
    + intros Hidle. rewrite Hissued. unfold issued_by at 1.
      rewrite (stop_when_idle w Hidle). cbn [snd]. now rewrite drop_all.
    + now rewrite Hw.
    + rewrite Hw. unfold started_world. cbn. now rewrite clock_stop_world.
Qed.

Lemma start_5000_10_writes_witness :
  issued_by (start_battery_control 5000 10) (fresh never_fails) =
    [Write 0x10 0x044C [1]; Write 0x10 0x0450 [1]; Write 0x10 0x0451 [2];
     Write 0x10 0x044D [300]; Write 0x10 0x0455 [250]] /\
  is_active (started never_fails) = true /\
  control_end_time (manager (started never_fails)) = Some 1600.
Proof.
  destruct (start_5000_10_writes (fresh never_fails) eq_refl) as [_ H].
  destruct H as (_ & H1 & H2 & H3); [reflexivity|].
  split; [apply H1; reflexivity|]. split; [exact H2|exact H3].
Defined.

(** C1: the code at the failing input.  From an idle session, the device
    refuses the fifth setup write (to 0x0455).  [Start] re-raises the
    device's error and the session is idle, but the calls issued end with
    the refused write: [stop_battery_control], called by the handler,
    returns at once because [control_active] is still false, so neither
    (0x044C,0) nor (0x0455,0) is issued. *)
Theorem start_failure_issues_no_reset :
  let r := start_battery_control 5000 10
             (fresh (fails_at 4 (CommunicationError 1))) in
  fst r = Raises (CommunicationError 1) /\
  is_active (snd r) = false /\
  issued (snd r) =
    [Write 0x10 0x044C [1]; Write 0x10 0x0450 [1]; Write 0x10 0x0451 [2];
     Write 0x10 0x044D [300]; Write 0x10 0x0455 [250]] /\
  List.filter is_remote_mode_reset (issued (snd r)) = [].
Proof. vm_compute. repeat split. Qed.

(** The same for every input: from an idle session, when the device
    refuses one of the five setup writes, [Start] raises, the session is
    idle and no reset write was issued. *)
Lemma refused_start_from_idle_never_resets p d w :
  is_active w = false ->
  ~ accepts w 5 ->
  (exists e, fst (start_battery_control p d w) = Raises e) /\
  is_active (snd (start_battery_control p d w)) = false /\
  List.filter is_remote_mode_reset
    (issued_by (start_battery_control p d) w) = [].
Proof.
  intros Hidle Hrefused. unfold issued_by.
  rewrite (start_from_idle p d w Hidle).
  unfold start_from, start_failed.
  assert (Hstop : forall w', is_active w' = false -> stop_world w' = w').
  { intros w' H. unfold stop_world. unfold is_active in H. now rewrite H. }
  rewrite accepts_first_failure in Hrefused.
  destruct (power_percentage p (rated_power_of (data w))) as [pp|e'].
  - destruct (first_failure _ _ _) as [[k e']|]; [|contradiction].
    rewrite Hstop by exact Hidle. cbn [fst snd].
    split; [now eexists|]. split; [exact Hidle|].
    cbn [issued with_logs with_issued]. rewrite drop_app_length.
    do 5 (destruct k as [|k]; [reflexivity|]). reflexivity.
  - rewrite Hstop by exact Hidle. cbn [fst snd].
    split; [now eexists|]. split; [exact Hidle|].
    cbn [issued with_logs]. now rewrite drop_all.
Qed.

(** ** The watchdog *)

Lemma watchdog_tick_eq w handle wake_at deadline :
  tasks w !! handle = Some (Task WatchdogPing (Sleeping wake_at)) ->
  wake_at <= clock w ->
  is_active w = true ->
  control_end_time (manager w) = Some deadline ->
  clock w < deadline ->
  resume handle w =
  (Returns tt,
   with_tasks
     (alter (fun t => Task (t_kind t) (Sleeping (clock w + 240))) handle
        (tasks w))
     (with_logs
        (logs w ++
         [match device_fails w (length (issued w)) with
          | None => (Debug, MsgPingSent)
          | Some e => (Error, MsgPingFailed e)
          end])
        (with_issued (issued w ++ [Write 0x10 0x044C [1]]) w))).
Proof.
  intros Htask Hdue Hactive Hend Hbefore. unfold resume. rewrite Htask.
  unfold is_due. cbn [t_kind t_state _watchdog_ping].
  destruct (Z.ltb_spec (clock w) wake_at) as [?|_]; [lia|]. cbn [negb].
  unfold is_active in Hactive.
  unfold or_task_ends, watchdog_wakeup, watchdog_continues, sleep_or_finish,
    set_task_state.
  co_unfold. rewrite Hactive.
  destruct (device_fails w (length (issued w))) as [e|]; cbn;
    rewrite Hactive, Hend; cbn;
    destruct (Z.ltb_spec (clock w) deadline) as [_|?]; try lia; reflexivity.
Qed.

(** C8.  A watchdog task that wakes while the session is active and the
    deadline is ahead issues the single call (0x044C,1), whether the device
    accepts it or not; nothing is raised, the manager object is untouched
    (the session stays active), a refused call is logged as an error, and
    the task sleeps for another 240 seconds.  At its next wake-up, still
    before the deadline, it issues (0x044C,1) again. *)
Theorem watchdog_tick_refreshes_once (w : World) (handle : nat)
    (wake_at deadline : Z) :
  tasks w !! handle = Some (Task WatchdogPing (Sleeping wake_at)) ->
  wake_at <= clock w ->
  is_active w = true ->
  control_end_time (manager w) = Some deadline ->
  clock w < deadline ->
  let r := resume handle w in
  fst r = Returns tt /\
  issued (snd r) = issued w ++ [Write 0x10 0x044C [1]] /\
  manager (snd r) = manager w /\
  tasks (snd r) !! handle =
    Some (Task WatchdogPing (Sleeping (clock w + 240))) /\
  (forall e, device_fails w (length (issued w)) = Some e ->
     logs (snd r) = logs w ++ [(Error, MsgPingFailed e)]) /\
  (forall seconds : nat,
     240 <= Z.of_nat seconds -> clock w + Z.of_nat seconds < deadline ->
     let r' := resume handle (step (Elapse seconds) (snd r)) in
     fst r' = Returns tt /\
     issued (snd r') =
       issued w ++ [Write 0x10 0x044C [1]; Write 0x10 0x044C [1]]).
Proof.
  intros Htask Hdue Hactive Hend Hbefore r. subst r.
  rewrite (watchdog_tick_eq w handle wake_at deadline) by assumption.
  cbn [fst snd issued manager tasks logs with_tasks with_logs with_issued].
  assert (Hnew :
    alter (fun t => Task (t_kind t) (Sleeping (clock w + 240))) handle (tasks w)
      !! handle = Some (Task WatchdogPing (Sleeping (clock w + 240)))).
  { rewrite list_lookup_alter_eq, Htask. reflexivity. }
  repeat split; try assumption.
  - intros e He. now rewrite He.
  - erewrite watchdog_tick_eq; [reflexivity|cbn; exact Hnew|cbn; lia|
      exact Hactive|exact Hend|cbn; lia].
  - erewrite watchdog_tick_eq; [|cbn; exact Hnew|cbn; lia|
      exact Hactive|exact Hend|cbn; lia].
    cbn. now rewrite <- app_assoc.
Qed.

Lemma watchdog_tick_refreshes_once_witness :
  let w := step (Elapse 240) (step (Resume 0) (started (fails_at 5 (CommunicationError 1)))) in
  let r := resume 0 w in
  fst r = Returns tt /\
  issued (snd r) = issued w ++ [Write 0x10 0x044C [1]] /\
  manager (snd r) = manager w /\
  logs (snd r) = logs w ++ [(Error, MsgPingFailed (CommunicationError 1))].
Proof.
  intros w r.
  destruct (watchdog_tick_refreshes_once w 0 1240 1600)
    as (H1 & H2 & H3 & _ & H5 & _);
    [reflexivity|vm_compute; discriminate|reflexivity|reflexivity|reflexivity|].
  split; [exact H1|]. split; [exact H2|]. split; [exact H3|].
  apply H5. reflexivity.
Defined.

(** ** The [battery_control] service *)

Lemma service_power_percentage_eq (d : gmap string (list Z)) (p : Z) :
  service_power_percentage d p = power_percentage p (rated_power_of d).
Proof.
  unfold service_power_percentage, power_percentage, rated_power_of.
  destruct (d !! "device_rated_power_sensor"%string) as [[|x rest]|];
    match goal with
    | |- context [py_truediv ?a ?b] => destruct (py_truediv a b) as [q|e]
    end; try reflexivity;
    now destruct (py_int (py_mul q 1000)).
Qed.

Lemma service_writes_eq pp (k : M unit) w :
  (execute 0x10 0x044C [1] ;; execute 0x10 0x0450 [1] ;;
   execute 0x10 0x0451 [2] ;; execute 0x10 0x044D [300] ;;
   execute 0x10 0x0455 [pp] ;; k) w =
  (write_registers (registers pp) ;; k) w.
Proof.
  unfold registers, write_registers, bind, ret.
  repeat match goal with
         | |- context [execute ?c ?a ?v ?x] =>
             destruct (execute c a v x) as [[[]|?] ?]; try reflexivity
         end.
Qed.

Lemma _battery_control_eq p d w :
  _battery_control p d w =
  match power_percentage p (rated_power_of (data w)) with
  | Raises e => (Raises (ServiceValidationError e), w)
  | Returns pp =>
      match first_failure (device_fails w) (length (issued w)) 5 with
      | None =>
          (Returns tt,
           with_tasks (tasks w ++ [Task (ServiceStopControl d) Created])
             (with_logs (logs w ++ [(Info, MsgStarted p d)])
                (with_issued (issued w ++ map to_write (registers pp)) w)))
      | Some (k, e) =>
          (Raises (ServiceValidationError e),
           with_issued
             (issued w ++ map to_write (take (S k) (registers pp))) w)
      end
  end.
Proof.
  unfold _battery_control, try_except.
  unfold bind at 1. unfold get_data. unfold bind at 1. unfold lift.
  rewrite service_power_percentage_eq.
  destruct (power_percentage p (rated_power_of (data w))) as [pp|e];
    [|reflexivity].
  rewrite service_writes_eq. unfold bind at 1. rewrite write_registers_eq.
  change (length (registers pp)) with 5%nat.
  destruct (first_failure _ _ _) as [[k e]|]; reflexivity.
Qed.

(** C10.  For every [power_watts], every duration and every cached
    telemetry, in every state of the manager, the service handler computes
    the same clamped percentage as [start_battery_control]; it never touches
    the manager object and adds no watchdog or deadline task (at most its
    own detached stop task).  It succeeds exactly when the percentage is
    computed and the device accepts five calls, and then it has issued the
    five setup writes, with function code 0x10, in the order of [registers].
    A successful [start_battery_control] has issued the same five writes,
    after the reset writes of its [Stop] sequence when the session was
    active. *)
Theorem service_issues_same_writes (p d : Z) (w : World) :
  service_power_percentage (data w) p =
    power_percentage p (rated_power_of (data w)) /\
  manager (snd (_battery_control p d w)) = manager w /\
  (tasks (snd (_battery_control p d w)) = tasks w \/
   tasks (snd (_battery_control p d w)) =
     tasks w ++ [Task (ServiceStopControl d) Created]) /\
  (fst (_battery_control p d w) = Returns tt <->
   accepts w 5 /\
   exists pp, power_percentage p (rated_power_of (data w)) = Returns pp) /\
  (fst (_battery_control p d w) = Returns tt ->
   exists pp,
     power_percentage p (rated_power_of (data w)) = Returns pp /\
     issued_by (_battery_control p d) w =
       [Write 0x10 0x044C [1]; Write 0x10 0x0450 [1]; Write 0x10 0x0451 [2];
        Write 0x10 0x044D [300]; Write 0x10 0x0455 [pp]]) /\
  (fst (start_battery_control p d w) = Returns tt ->
   exists pp,
     power_percentage p (rated_power_of (data w)) = Returns pp /\
     issued_by (start_battery_control p d) w =
       issued_by stop_battery_control w ++
       [Write 0x10 0x044C [1]; Write 0x10 0x0450 [1]; Write 0x10 0x0451 [2];
        Write 0x10 0x044D [300]; Write 0x10 0x0455 [pp]] /\
     (is_active w = false ->
      issued_by (start_battery_control p d) w =
        [Write 0x10 0x044C [1]; Write 0x10 0x0450 [1]; Write 0x10 0x0451 [2];
         Write 0x10 0x044D [300]; Write 0x10 0x0455 [pp]])).
Proof.
  split; [apply service_power_percentage_eq|].
  split; [|split; [|split; [|split]]].
  - rewrite _battery_control_eq.
    destruct (power_percentage p (rated_power_of (data w))) as [pp|e];
      [|reflexivity].
    now destruct (first_failure _ _ _) as [[k e]|].
  - rewrite _battery_control_eq.
    destruct (power_percentage p (rated_power_of (data w))) as [pp|e];
      [|now left].
    destruct (first_failure _ _ _) as [[k e]|]; [now left|now right].
  - rewrite _battery_control_eq, accepts_first_failure.
    destruct (power_percentage p (rated_power_of (data w))) as [pp|e].
    + destruct (first_failure _ _ _) as [[k e]|].
      * split; [discriminate|intros [H _]; discriminate H].
      * split; [intros _; split; [reflexivity|now exists pp]|reflexivity].
    + split; [discriminate|intros [_ [pp H]]; discriminate H].
  - intros Hok. rewrite _battery_control_eq in Hok.
    destruct (power_percentage p (rated_power_of (data w))) as [pp|e] eqn:Hpp;
      [|discriminate].
    destruct (first_failure _ _ _) as [[k e]|] eqn:Hff; [discriminate|].
    exists pp. split; [reflexivity|]. apply issued_by_app.
    now rewrite _battery_control_eq, Hpp, Hff.
  - rewrite start_battery_control_eq_stop. intros Hok.
    destruct (start_from_success p d (stop_world w) Hok) as (pp & Hpp & Hw).
    rewrite data_stop_world in Hpp. exists pp. split; [exact Hpp|].
    assert (Hissued :
      issued_by (start_battery_control p d) w =
      issued_by stop_battery_control w ++ map to_write (registers pp)).
    { apply issued_by_app. rewrite start_battery_control_eq_stop, Hw.
      unfold started_world. cbn [issued with_logs with_tasks with_manager
                                   with_issued].
      now rewrite issued_stop_world, <- app_assoc. }
    split; [exact Hissued|].
    intros Hidle. rewrite Hissued. unfold issued_by at 1.
    rewrite (stop_when_idle w Hidle). cbn [snd]. now rewrite drop_all.
Qed.

Lemma service_issues_same_writes_witness :
  fst (_battery_control 5000 10 (started never_fails)) = Returns tt /\
  issued_by (_battery_control 5000 10) (started never_fails) =
    [Write 0x10 0x044C [1]; Write 0x10 0x0450 [1]; Write 0x10 0x0451 [2];
     Write 0x10 0x044D [300]; Write 0x10 0x0455 [250]] /\
  issued_by (start_battery_control 5000 10) (fresh never_fails) =
    issued_by (_battery_control 5000 10) (started never_fails).
Proof.
  destruct (service_issues_same_writes 5000 10 (started never_fails))
    as (_ & _ & _ & Hiff & Hservice & _).
  assert (Hok : fst (_battery_control 5000 10 (started never_fails)) =
                Returns tt).
  { apply Hiff. split; [intros i _; reflexivity|now exists 250]. }
  destruct (Hservice Hok) as (pp & Hpp & Hissued).
  assert (Hpp250 : pp = 250) by (vm_compute in Hpp; now inversion Hpp).
  subst pp. split; [exact Hok|]. split; [exact Hissued|].
  destruct (service_issues_same_writes 5000 10 (fresh never_fails))
    as (_ & _ & _ & _ & _ & Hstart).
  destruct Hstart as (pp & Hpp' & _ & Hidle); [reflexivity|].
  assert (Hpp250 : pp = 250) by (vm_compute in Hpp'; now inversion Hpp').
  subst pp. rewrite Hissued. apply Hidle. reflexivity.
Defined.

(** ** The coroutines as trees *)

Lemma runs_as_bind {A B} (c : coro A) (g : A -> coro B) (m : M A)
    (k : A -> M B) :
  runs_as c m -> (forall a, runs_as (g a) (k a)) ->
  runs_as (Co.bind c g) (bind m k).
Proof.
  intros Hc Hg w. unfold bind. rewrite <- Hc. clear Hc m. revert w.
  induction c as [[a|e]|k0 IH|f c IH|call k0 IH]; intros w; cbn;
    [apply Hg|reflexivity|apply IH|apply IH|apply IH].
Qed.

Lemma runs_as_try_except {A} (c : coro A) (h : exn -> coro A) (m : M A)
    (k : exn -> M A) :
  runs_as c m -> (forall e, runs_as (h e) (k e)) ->
  runs_as (Co.try_except c h) (try_except m k).
Proof.
  intros Hc Hh w. unfold try_except. rewrite <- Hc. clear Hc m. revert w.
  induction c as [[a|e]|k0 IH|f c IH|call k0 IH]; intros w; cbn;
    [reflexivity|apply Hh|apply IH|apply IH|apply IH].
Qed.

Lemma runs_as_ret {A} (a : A) : runs_as (Co.ret a) (ret a).
Proof. intros w. reflexivity. Qed.

Lemma runs_as_raise {A} (e : exn) : runs_as (@Co.raise A e) (raise e).
Proof. intros w. reflexivity. Qed.

Lemma runs_as_lift {A} (o : outcome A) : runs_as (Co.lift o) (lift o).
Proof. intros w. reflexivity. Qed.

Lemma runs_as_get_manager : runs_as Co.get_manager get_manager.
Proof. intros w. reflexivity. Qed.

Lemma runs_as_update_manager f :
  runs_as (Co.update_manager f) (update_manager f).
Proof. intros w. reflexivity. Qed.

Lemma runs_as_get_data : runs_as Co.get_data get_data.
Proof. intros w. reflexivity. Qed.

Lemma runs_as_now : runs_as Co.now now.
Proof. intros w. reflexivity. Qed.

Lemma runs_as_log l msg : runs_as (Co.log l msg) (log l msg).
Proof. intros w. reflexivity. Qed.

Lemma runs_as_execute code address values :
  runs_as (Co.execute code address values) (execute code address values).
Proof.
  intros w. cbn. unfold answer, execute.
  now destruct (device_fails w (length (issued w))).
Qed.

Lemma runs_as_create_task k : runs_as (Co.create_task k) (create_task k).
Proof. intros w. reflexivity. Qed.

Lemma runs_as_cancel handle : runs_as (Co.cancel handle) (cancel handle).
Proof. intros w. reflexivity. Qed.

Lemma runs_as_set_task_state handle s :
  runs_as (Co.set_task_state handle s) (set_task_state handle s).
Proof. intros w. reflexivity. Qed.

Lemma runs_as_set_virtual_value name value :
  runs_as (Co.set_virtual_value name value) (set_virtual_value name value).
Proof. intros w. reflexivity. Qed.

Create HintDb runs.

#[local] Hint Resolve
  runs_as_ret runs_as_raise runs_as_lift runs_as_get_manager
  runs_as_update_manager runs_as_get_data runs_as_now runs_as_log
  runs_as_execute runs_as_create_task runs_as_cancel runs_as_set_task_state
  runs_as_set_virtual_value : runs.

(** The two presentations of a coroutine have the same text: the proof
    follows it. *)
Ltac runs_as_step :=
  first
    [ apply runs_as_bind
    | apply runs_as_try_except
    | solve [auto with runs]
    | match goal with
      | |- runs_as (match ?x with _ => _ end) _ => destruct x
      end
    | intro ].

Lemma runs_as_write_registers regs :
  runs_as (Co.write_registers regs) (write_registers regs).
Proof.
  induction regs as [|[address value] rest IH];
    cbn [Co.write_registers write_registers]; repeat runs_as_step.
Qed.

#[local] Hint Resolve runs_as_write_registers : runs.

Lemma runs_as_stop_battery_control :
  runs_as Co.stop_battery_control stop_battery_control.
Proof.
  unfold Co.stop_battery_control, stop_battery_control.
  repeat runs_as_step.
Qed.

#[local] Hint Resolve runs_as_stop_battery_control : runs.

Lemma runs_as_start_battery_control p d :
  runs_as (Co.start_battery_control p d) (start_battery_control p d).
Proof.
  unfold Co.start_battery_control, start_battery_control.
  repeat runs_as_step.
Qed.

Lemma runs_as__battery_control p d :
  runs_as (Co._battery_control p d) (_battery_control p d).
Proof.
  unfold Co._battery_control, _battery_control. repeat runs_as_step.
Qed.

Lemma runs_as_sleep_or_finish handle seconds again :
  runs_as (Co.sleep_or_finish handle seconds again)
          (sleep_or_finish handle seconds again).
Proof.
  unfold Co.sleep_or_finish, sleep_or_finish. repeat runs_as_step.
Qed.

#[local] Hint Resolve runs_as_sleep_or_finish : runs.

Lemma runs_as_watchdog_continues :
  runs_as Co.watchdog_continues watchdog_continues.
Proof.
  unfold Co.watchdog_continues, watchdog_continues. repeat runs_as_step.
Qed.

Lemma runs_as_watchdog_wakeup : runs_as Co.watchdog_wakeup watchdog_wakeup.
Proof.
  unfold Co.watchdog_wakeup, watchdog_wakeup. repeat runs_as_step.
Qed.

Lemma runs_as_auto_stop_wakeup :
  runs_as Co.auto_stop_wakeup auto_stop_wakeup.
Proof.
  unfold Co.auto_stop_wakeup, auto_stop_wakeup. repeat runs_as_step.
Qed.

Lemma runs_as_stop_control_wakeup :
  runs_as Co.stop_control_wakeup stop_control_wakeup.
Proof.
  unfold Co.stop_control_wakeup, stop_control_wakeup. repeat runs_as_step.
Qed.

#[local] Hint Resolve runs_as_watchdog_continues runs_as_watchdog_wakeup
  runs_as_auto_stop_wakeup runs_as_stop_control_wakeup : runs.

Lemma runs_as_resume handle : runs_as (Co.resume handle) (resume handle).
Proof.
  intros w. unfold Co.resume, resume. cbn [uninterrupted].
  destruct (tasks w !! handle) as [[kind state]|]; [|reflexivity].
  destruct (is_due (clock w) _); [|reflexivity]. cbn [t_kind t_state].
  destruct kind as [|minutes|minutes], state as [|wake_at| |];
    cbn [Co._watchdog_ping _watchdog_ping Co._auto_stop _auto_stop
         Co.stop_control stop_control];
    revert w;
    match goal with
    | |- forall w, uninterrupted ?c w = ?m w => change (runs_as c m)
    end;
    repeat runs_as_step.
Qed.

(** ** A coroutine that is answered at once *)

Lemma loop_run_app ts1 ts2 l :
  loop_run (ts1 ++ ts2) l = loop_run ts2 (loop_run ts1 l).
Proof. apply foldl_app. Qed.

Lemma loop_reachable_run ts l :
  loop_reachable l -> loop_reachable (loop_run ts l).
Proof.
  revert l. induction ts as [|t ts IH]; intros l Hl; [exact Hl|].
  cbn. apply IH. now constructor.
Qed.

Lemma spared_None {A} (c : coro A) w : spared None c w.
Proof.
  revert w. induction c as [o|k IH|f c IH|call k IH]; intros w; cbn;
    [exact I|apply IH|apply IH|].
  split; [reflexivity|apply IH].
Qed.

(** When the device answers each call of a coroutine before anything else
    happens, the event loop ends where the uninterrupted run ends, and the
    coroutines that were suspended before are still suspended. *)
Lemma answered_at_once owner (c : coro unit) (w : World)
    (ws : list suspended) :
  spared owner c w ->
  exists n,
    loop_run (replicate n (Answer (length ws)))
      (launch owner c (Running w ws)) =
    Running (snd (uninterrupted c w)) ws.
Proof.
  revert w. induction c as [o|k IH|f c IH|call k IH]; intros w Hspared.
  - now exists 0%nat.
  - exact (IH w w Hspared).
  - exact (IH (f w) Hspared).
  - destruct Hspared as [Hlive Hspared].
    destruct (IH _ _ Hspared) as [n Hn]. exists (S n).
    cbn [replicate loop_run foldl]. unfold launch at 1.
    cbn [advance world waiting fst snd loop_step].
    rewrite (list_lookup_middle ws [] _ (length ws) eq_refl).
    cbn [s_task s_position s_resume]. rewrite Hlive.
    rewrite (delete_middle ws []), app_nil_r. exact Hn.
Qed.

(** A call from outside the manager that no other coroutine interrupts is
    the function of the first part. *)
Lemma call_answered_at_once (c : coro unit) (m : M unit) (w : World) :
  runs_as c m ->
  exists n,
    loop_run (replicate n (Answer 0)) (launch None c (Running w [])) =
    Running (snd (m w)) [].
Proof.
  intros Hruns. rewrite <- Hruns.
  apply (answered_at_once None c w []), spared_None.
Qed.

Lemma not_cancelled_while_due handle kind state w w' :
  tasks w !! handle = Some (Task kind state) ->
  is_due (clock w) (Task kind state) = true ->
  tasks w' = tasks w ->
  is_cancelled (Some handle) w' = false.
Proof.
  intros Ht Hdue Htasks. unfold is_cancelled. rewrite Htasks, Ht.
  now destruct state.
Qed.

Lemma resume_spared handle w :
  handle_names_watchdog w -> spared (Some handle) (Co.resume handle) w.
Proof.
  intros Hnames. unfold Co.resume. cbn [spared].
  destruct (tasks w !! handle) as [[kind state]|] eqn:Ht; [|exact I].
  destruct (is_due (clock w) _) eqn:Hdue; [|exact I]. cbn [t_kind t_state].
  pose proof (fun w' => not_cancelled_while_due handle kind state w w' Ht Hdue)
    as Hlive.
  destruct kind as [|minutes|minutes], state as [|wake_at| |];
    try discriminate Hdue.
  - cbn. destruct (control_active (manager w)); cbn; [|exact I].
    destruct (control_end_time (manager w)) as [deadline|]; cbn; [|exact I].
    now destruct (clock w <? deadline).
  - cbn. destruct (control_active (manager w)) eqn:Hactive; cbn;
      rewrite ?Hactive; cbn; [|exact I].
    split; [now apply Hlive|]. unfold answer.
    destruct (device_fails w (length (issued w))); cbn; rewrite ?Hactive; cbn;
      (destruct (control_end_time (manager w)) as [deadline|]; cbn;
       [now destruct (clock w <? deadline)|exact I]).
  - cbn. exact I.
  - cbn. destruct (control_active (manager w)) eqn:Hactive; cbn;
      rewrite ?Hactive; cbn; [|exact I].
    assert (Hother : forall other,
              watchdog_task (manager w) = Some other ->
              alter cancel_task other (tasks w) !! handle =
                Some (Task (AutoStop minutes) (Sleeping wake_at))).
    { intros other Hother. destruct (Hnames other Hother) as (t & Hto & Hk).
      rewrite list_lookup_alter_ne; [exact Ht|].
      intros ->. rewrite Ht in Hto. injection Hto as <-. discriminate. }
    destruct (watchdog_task (manager w)) as [other|]; cbn.
    + rewrite (Hother other eq_refl). split; [reflexivity|].
      unfold answer. cbn.
      destruct (device_fails w (length (issued w))); cbn; [exact I|].
      rewrite (Hother other eq_refl). split; [reflexivity|].
      unfold answer. cbn.
      match goal with
      | |- context [device_fails w ?n] => now destruct (device_fails w n)
      end.
    + split; [now apply Hlive|]. unfold answer. cbn.
      destruct (device_fails w (length (issued w))); cbn; [exact I|].
      split; [now apply Hlive|].
      unfold answer. cbn.
      match goal with
      | |- context [device_fails w ?n] => now destruct (device_fails w n)
      end.
  - cbn. exact I.
  - cbn. split; [now apply Hlive|]. unfold answer. cbn.
    destruct (device_fails w (length (issued w))); cbn; [exact I|].
    split; [now apply Hlive|]. unfold answer. cbn.
    match goal with
    | |- context [device_fails w ?n] => now destruct (device_fails w n)
    end.
Qed.

(** ** Timers *)

Lemma filter_none {A} (P : A -> bool) (l : list A) :
  (forall i a, l !! i = Some a -> P a = false) -> List.filter P l = [].
Proof.
  induction l as [|a l IH]; intros H; [reflexivity|]. cbn.
  rewrite (H 0%nat a eq_refl). apply IH. intros i b Hb. exact (H (S i) b Hb).
Qed.

Lemma filter_at_most_one {A} (P : A -> bool) (l : list A) :
  (forall i j a b, l !! i = Some a -> l !! j = Some b ->
     P a = true -> P b = true -> i = j) ->
  (length (List.filter P l) <= 1)%nat.
Proof.
  induction l as [|a l IH]; intros H; cbn; [lia|].
  destruct (P a) eqn:Ha.
  - rewrite filter_none; [cbn; lia|]. intros i b Hb.
    destruct (P b) eqn:HPb; [|reflexivity].
    discriminate (H 0%nat (S i) a b eq_refl Hb Ha HPb).
  - apply IH. intros i j x y Hx Hy HPx HPy.
    specialize (H (S i) (S j) x y Hx Hy HPx HPy). lia.
Qed.

Lemma is_live_cancel_task t : is_live (cancel_task t) = false.
Proof. unfold cancel_task. destruct (is_live t) eqn:H; [reflexivity|exact H]. Qed.

Lemma t_kind_cancel_task t : t_kind (cancel_task t) = t_kind t.
Proof. unfold cancel_task. now destruct (is_live t). Qed.

Lemma tasks_stop_world w :
  tasks (stop_world w) =
  if control_active (manager w) then tasks (cancel_watchdog w) else tasks w.
Proof.
  unfold stop_world. destruct (control_active (manager w)); [|reflexivity].
  cbv zeta. now destruct (first_failure _ _ _) as [[k e]|].
Qed.

Lemma stop_world_idle w : is_active w = false -> stop_world w = w.
Proof. intros H. unfold stop_world. unfold is_active in H. now rewrite H. Qed.

Lemma length_tasks_stop_world w :
  length (tasks (stop_world w)) = length (tasks w).
Proof.
  rewrite tasks_stop_world.
  destruct (control_active (manager w)); [|reflexivity].
  unfold cancel_watchdog.
  destruct (watchdog_task (manager w)); [apply length_alter|reflexivity].
Qed.

Lemma watchdog_task_stop_world w :
  watchdog_task (manager (stop_world w)) = watchdog_task (manager w).
Proof.
  unfold stop_world. destruct (control_active (manager w)); [|reflexivity].
  cbv zeta. destruct (first_failure _ _ _) as [[k e]|]; cbn;
    [apply f_equal, manager_cancel_watchdog|reflexivity].
Qed.

Lemma no_live_watchdog_tracked w : no_live_watchdog w -> watchdog_tracked w.
Proof. intros H i t Ht Hk Hl. rewrite (H i t Ht Hk) in Hl. discriminate. Qed.

Lemma tracked_idle w :
  watchdog_tracked w -> is_active w = false -> no_live_watchdog w.
Proof.
  intros H Hidle i t Ht Hk. destruct (is_live t) eqn:Hl; [|reflexivity].
  destruct (H i t Ht Hk Hl) as [Ha _]. congruence.
Qed.

Lemma cancel_watchdog_no_live w :
  watchdog_tracked w -> no_live_watchdog (cancel_watchdog w).
Proof.
  intros H i t Ht Hk. unfold cancel_watchdog in Ht.
  destruct (watchdog_task (manager w)) as [handle|] eqn:Hh.
  - cbn in Ht. destruct (decide (handle = i)) as [->|Hne].
    + rewrite list_lookup_alter_eq in Ht.
      destruct (tasks w !! i); [|discriminate]. cbn in Ht.
      injection Ht as <-. apply is_live_cancel_task.
    + rewrite list_lookup_alter_ne in Ht by exact Hne.
      destruct (is_live t) eqn:Hl; [|reflexivity].
      destruct (H i t Ht Hk Hl) as [_ Hi]. congruence.
  - destruct (is_live t) eqn:Hl; [|reflexivity].
    destruct (H i t Ht Hk Hl) as [_ Hi]. congruence.
Qed.

Lemma stop_world_no_live w :
  watchdog_tracked w -> is_active w = true -> no_live_watchdog (stop_world w).
Proof.
  intros H Ha i t Ht. rewrite tasks_stop_world in Ht.
  unfold is_active in Ha. rewrite Ha in Ht.
  exact (cancel_watchdog_no_live w H i t Ht).
Qed.

Lemma stop_world_tracked w : watchdog_tracked w -> watchdog_tracked (stop_world w).
Proof.
  intros H. destruct (is_active w) eqn:Ha.
  - apply no_live_watchdog_tracked. now apply stop_world_no_live.
  - unfold stop_world. unfold is_active in Ha. now rewrite Ha.
Qed.

Lemma start_from_tracked p d w :
  no_live_watchdog w -> watchdog_tracked (snd (start_from p d w)).
Proof.
  intros H. unfold start_from, start_failed.
  assert (Hfail : forall w', tasks w' = tasks w ->
            watchdog_tracked (stop_world w')).
  { intros w' Htasks. apply stop_world_tracked, no_live_watchdog_tracked.
    intros i t Ht. rewrite Htasks in Ht. exact (H i t Ht). }
  destruct (power_percentage p (rated_power_of (data w))) as [pp|e].
  - destruct (first_failure _ _ _) as [[k e]|]; cbn [snd].
    + now apply Hfail.
    + destruct (add_minutes (clock w) d) as [end_time|e]; cbn [snd];
        [|now apply Hfail].
      intros i t Ht Hk Hl. unfold started_world in *. cbn in Ht |- *.
      split; [reflexivity|]. apply lookup_app_Some in Ht as [Ht|[Hi Ht]].
      * rewrite (H i t Ht Hk) in Hl. discriminate.
      * destruct (i - length (tasks w))%nat as [|[|n]] eqn:Hn; cbn in Ht.
        -- f_equal. lia.
        -- injection Ht as <-. discriminate.
        -- discriminate.
  - cbn [snd]. now apply Hfail.
Qed.

Lemma start_tracked p d w :
  watchdog_tracked w -> watchdog_tracked (snd (start_battery_control p d w)).
Proof.
  intros H. rewrite start_battery_control_eq. apply start_from_tracked.
  destruct (control_active (manager w)) eqn:Ha.
  - now apply stop_world_no_live.
  - now apply tracked_idle.
Qed.

Lemma kinds_kept_refl w w' : tasks w' = tasks w -> kinds_kept w w'.
Proof. intros H i t Ht. exists t. now rewrite H. Qed.

Lemma kinds_kept_alter f handle w w' :
  (forall t, t_kind (f t) = t_kind t) ->
  tasks w' = alter f handle (tasks w) -> kinds_kept w w'.
Proof.
  intros Hf H i t Ht. rewrite H.
  destruct (decide (handle = i)) as [->|Hne].
  - exists (f t). now rewrite list_lookup_alter_eq, Ht.
  - exists t. now rewrite list_lookup_alter_ne.
Qed.

Lemma kinds_kept_app l w w' : tasks w' = tasks w ++ l -> kinds_kept w w'.
Proof. intros H i t Ht. exists t. rewrite H. split; [now apply lookup_app_l_Some|reflexivity]. Qed.

Lemma kinds_kept_stop_world w : kinds_kept w (stop_world w).
Proof.
  rewrite <- (with_issued_same w) at 1.
  destruct (control_active (manager w)) eqn:Ha.
  - unfold cancel_watchdog.
    destruct (watchdog_task (manager w)) as [handle|] eqn:Hh.
    + apply (kinds_kept_alter cancel_task handle);
        [apply t_kind_cancel_task|].
      rewrite tasks_stop_world, Ha. unfold cancel_watchdog. now rewrite Hh.
    + apply kinds_kept_refl.
      rewrite tasks_stop_world, Ha. unfold cancel_watchdog. now rewrite Hh.
  - apply kinds_kept_refl. now rewrite tasks_stop_world, Ha.
Qed.

Lemma handle_names_watchdog_kept w w' :
  handle_names_watchdog w -> kinds_kept w w' ->
  watchdog_task (manager w') = watchdog_task (manager w) ->
  handle_names_watchdog w'.
Proof.
  intros H Hk Hh handle Hhandle. rewrite Hh in Hhandle.
  destruct (H handle Hhandle) as (t & Ht & Hkind).
  destruct (Hk handle t Ht) as (t' & Ht' & Hkind'). exists t'.
  split; congruence.
Qed.

Lemma stop_world_names w :
  handle_names_watchdog w -> handle_names_watchdog (stop_world w).
Proof.
  intros H. apply (handle_names_watchdog_kept w); [exact H| |].
  - apply kinds_kept_stop_world.
  - apply watchdog_task_stop_world.
Qed.

Lemma start_from_names p d w :
  handle_names_watchdog w -> handle_names_watchdog (snd (start_from p d w)).
Proof.
  intros H. unfold start_from, start_failed.
  assert (Hfail : forall w', tasks w' = tasks w ->
    watchdog_task (manager w') = watchdog_task (manager w) ->
    handle_names_watchdog (stop_world w')).
  { intros w' Htasks Hhandle. apply stop_world_names.
    apply (handle_names_watchdog_kept w); [exact H| |exact Hhandle].
    now apply kinds_kept_refl. }
  destruct (power_percentage p (rated_power_of (data w))) as [pp|e].
  - destruct (first_failure _ _ _) as [[k e]|]; cbn [snd].
    + now apply Hfail.
    + destruct (add_minutes (clock w) d) as [end_time|e]; cbn [snd];
        [|now apply Hfail].
      intros handle Hh. unfold started_world in *. cbn in Hh |- *.
      injection Hh as <-. exists (Task WatchdogPing Created).
      split; [|reflexivity].
      rewrite lookup_app_r by lia. now rewrite Nat.sub_diag.
  - cbn [snd]. now apply Hfail.
Qed.

Lemma start_names p d w :
  handle_names_watchdog w ->
  handle_names_watchdog (snd (start_battery_control p d w)).
Proof.
  intros H. rewrite start_battery_control_eq. apply start_from_names.
  destruct (control_active (manager w)); [now apply stop_world_names|exact H].
Qed.

Lemma watchdog_wakeup_returns w :
  exists w1, watchdog_wakeup w = (Returns tt, w1) /\ same_session w w1.
Proof.
  unfold watchdog_wakeup. co_unfold.
  destruct (control_active (manager w)); [|now exists w].
  destruct (device_fails w (length (issued w))); cbn;
    eexists; (split; [reflexivity|]); split; reflexivity.
Qed.

Lemma stop_control_wakeup_returns w :
  exists w1, stop_control_wakeup w = (Returns tt, w1) /\ same_session w w1.
Proof.
  unfold stop_control_wakeup. co_unfold.
  destruct (device_fails w (length (issued w))); cbn;
    [|destruct (device_fails w (length (issued w ++ _))); cbn];
    eexists; (split; [reflexivity|]); split; reflexivity.
Qed.

Lemma auto_stop_wakeup_eq w : auto_stop_wakeup w = (Returns tt, stop_world w).
Proof.
  unfold auto_stop_wakeup. unfold bind, get_manager.
  destruct (control_active (manager w)) eqn:Ha;
    [apply stop_battery_control_eq|].
  unfold ret, stop_world. now rewrite Ha.
Qed.

Lemma sleep_or_finish_eq handle seconds again w :
  sleep_or_finish handle seconds again w =
  (Returns tt,
   with_tasks
     (alter (fun t => Task (t_kind t)
                        (if again then Sleeping (clock w + seconds)
                         else Finished))
        handle (tasks w)) w).
Proof. now destruct again. Qed.

Lemma try_except_returns {A} (body : M A) handler w a w' :
  body w = (Returns a, w') -> try_except body handler w = (Returns a, w').
Proof. intros H. unfold try_except. now rewrite H. Qed.

Lemma try_except_bind {A B} (m : M A) (k : A -> M B) handler w a w1 :
  m w = (Returns a, w1) ->
  try_except (bind m k) handler w = try_except (k a) handler w1.
Proof. intros H. unfold try_except, bind. now rewrite H. Qed.

(** The test of the loop of [_watchdog_ping] and what follows it: the task
    sleeps or ends, and nothing else changes. *)
Lemma watchdog_loop_eq handle w :
  exists s,
    try_except
      (bind watchdog_continues
         (fun again => sleep_or_finish handle 240 again))
      (fun _ => set_task_state handle Finished) w =
    (Returns tt,
     with_tasks (alter (fun t => Task (t_kind t) s) handle (tasks w)) w).
Proof.
  unfold watchdog_continues, sleep_or_finish, set_task_state. co_unfold.
  destruct (control_active (manager w)); [|now eexists].
  destruct (control_end_time (manager w)) as [deadline|]; [|now eexists].
  destruct (clock w <? deadline); now eexists.
Qed.

(** What a resumed task does to the world: nothing, or it runs its
    wake-up code and then changes its own state. *)
Lemma resume_cases handle w :
  snd (resume handle w) = w \/
  exists t0 s w1,
    tasks w !! handle = Some t0 /\ is_live t0 = true /\
    snd (resume handle w) =
      with_tasks (alter (fun t => Task (t_kind t) s) handle (tasks w1)) w1 /\
    (same_session w w1 \/ (w1 = stop_world w /\ t_kind t0 <> WatchdogPing)).
Proof.
  unfold resume. destruct (tasks w !! handle) as [[kind state]|] eqn:Ht;
    [|now left].
  unfold is_due. cbn [t_kind t_state].
  destruct state as [|wake_at| |]; try (now left);
    [|destruct (clock w <? wake_at); [now left|]]; cbn [negb];
    destruct kind as [|minutes|minutes];
    cbn [_watchdog_ping _auto_stop stop_control]; unfold or_task_ends; right.
  - destruct (watchdog_loop_eq handle w) as [s ->]. eexists _, s, w.
    repeat (split; [reflexivity|]). left. split; reflexivity.
  - rewrite (try_except_returns _ _ _ _ _ (sleep_or_finish_eq _ _ _ w)).
    eexists _, _, w.
    repeat (split; [reflexivity|]). left. split; reflexivity.
  - rewrite (try_except_returns _ _ _ _ _ (sleep_or_finish_eq _ _ _ w)).
    eexists _, _, w.
    repeat (split; [reflexivity|]). left. split; reflexivity.
  - destruct (watchdog_wakeup_returns w) as (w1 & Hw1 & Hsame).
    rewrite (try_except_bind _ _ _ _ _ _ Hw1).
    destruct (watchdog_loop_eq handle w1) as [s ->]. eexists _, s, w1.
    repeat (split; [reflexivity|]). now left.
  - unfold try_except, bind.
    rewrite auto_stop_wakeup_eq. unfold set_task_state. eexists _, _, _.
    repeat (split; [reflexivity|]). right. split; [reflexivity|discriminate].
  - destruct (stop_control_wakeup_returns w) as (w1 & Hw1 & Hsame).
    rewrite (try_except_bind _ _ _ _ _ _ Hw1).
    unfold try_except, set_task_state. eexists _, _, w1.
    repeat (split; [reflexivity|]). now left.
Qed.

Lemma resume_tracked handle w :
  watchdog_tracked w -> watchdog_tracked (snd (resume handle w)).
Proof.
  intros H. destruct (resume_cases handle w)
    as [->|(t0 & s & w1 & Ht0 & Hlive & -> & Hcase)]; [exact H|].
  intros i t Ht Hk Hl. unfold is_active. cbn in Ht |- *.
  destruct Hcase as [[Htasks Hmgr]|[-> Hkind]].
  - rewrite Htasks in Ht. rewrite Hmgr.
    destruct (decide (handle = i)) as [<-|Hne].
    + rewrite list_lookup_alter_eq, Ht0 in Ht. cbn in Ht.
      injection Ht as <-. cbn in Hk. exact (H handle t0 Ht0 Hk Hlive).
    + rewrite list_lookup_alter_ne in Ht by exact Hne. exact (H i t Ht Hk Hl).
  - destruct (decide (handle = i)) as [<-|Hne].
    + destruct (kinds_kept_stop_world w handle t0 Ht0) as (t' & Ht' & Hk').
      rewrite list_lookup_alter_eq, Ht' in Ht. cbn in Ht.
      injection Ht as <-. cbn in Hk. congruence.
    + rewrite list_lookup_alter_ne in Ht by exact Hne.
      exact (stop_world_tracked w H i t Ht Hk Hl).
Qed.

Lemma resume_names handle w :
  handle_names_watchdog w -> handle_names_watchdog (snd (resume handle w)).
Proof.
  intros H. destruct (resume_cases handle w)
    as [->|(t0 & s & w1 & Ht0 & Hlive & -> & Hcase)]; [exact H|].
  assert (H1 : handle_names_watchdog w1).
  { destruct Hcase as [[Htasks Hmgr]|[-> _]]; [|now apply stop_world_names].
    apply (handle_names_watchdog_kept w); [exact H| |now rewrite Hmgr].
    now apply kinds_kept_refl. }
  apply (handle_names_watchdog_kept w1); [exact H1| |reflexivity].
  now apply (kinds_kept_alter (fun t => Task (t_kind t) s) handle).
Qed.

Lemma service_session p d w :
  manager (snd (_battery_control p d w)) = manager w /\
  (tasks (snd (_battery_control p d w)) = tasks w \/
   tasks (snd (_battery_control p d w)) =
     tasks w ++ [Task (ServiceStopControl d) Created]).
Proof.
  rewrite _battery_control_eq.
  destruct (power_percentage p (rated_power_of (data w))) as [pp|e];
    [|now split; [|left]].
  destruct (first_failure _ _ _) as [[k e]|];
    split; try reflexivity; [now left|now right].
Qed.

Lemma service_tracked p d w :
  watchdog_tracked w -> watchdog_tracked (snd (_battery_control p d w)).
Proof.
  intros H i t Ht Hk Hl. destruct (service_session p d w) as [Hm Htasks].
  unfold is_active. rewrite Hm. destruct Htasks as [Heq|Heq];
    rewrite Heq in Ht; [exact (H i t Ht Hk Hl)|].
  apply lookup_app_Some in Ht as [Ht|[Hi Ht]]; [exact (H i t Ht Hk Hl)|].
  destruct (i - length (tasks w))%nat; cbn in Ht; [|discriminate].
  injection Ht as <-. discriminate.
Qed.

Lemma service_names p d w :
  handle_names_watchdog w ->
  handle_names_watchdog (snd (_battery_control p d w)).
Proof.
  intros H. destruct (service_session p d w) as [Hm Htasks].
  apply (handle_names_watchdog_kept w); [exact H| |now rewrite Hm].
  destruct Htasks as [Heq|Heq];
    [now apply kinds_kept_refl|now apply (kinds_kept_app _ _ _ Heq)].
Qed.

Lemma reachable_session w :
  reachable w -> watchdog_tracked w /\ handle_names_watchdog w.
Proof.
  induction 1 as [fails d t0|ev w Hw [IHt IHn]].
  - split; [intros i t Ht|intros handle Hh]; discriminate.
  - destruct ev as [p d|  |p d|handle|seconds|d|name value]; cbn [step].
    + split; [now apply start_tracked|now apply start_names].
    + rewrite stop_battery_control_eq. cbn [snd].
      split; [now apply stop_world_tracked|now apply stop_world_names].
    + split; [now apply service_tracked|now apply service_names].
    + split; [now apply resume_tracked|now apply resume_names].
    + split; [exact IHt|exact IHn].
    + split; [exact IHt|exact IHn].
    + split; [exact IHt|exact IHn].
Qed.

Lemma reachable_run evs w : reachable w -> reachable (run evs w).
Proof.
  revert w. induction evs as [|ev evs IH]; intros w Hw; [exact Hw|].
  cbn. apply IH. now constructor.
Qed.

(** ** Calls that do not overlap *)

(** An event of [step] is a run of the event loop in which the coroutine
    of the event is answered at once: nothing else runs while it awaits
    the device. *)
Lemma step_in_loop ev w :
  handle_names_watchdog w ->
  exists ts, loop_run ts (Running w []) = Running (step ev w) [].
Proof.
  intros Hnames.
  destruct ev as [p d|  |p d|handle|seconds|d|name value];
    try (now exists [Begin (Elapse seconds)]);
    try (now exists [Begin (Refresh d)]);
    try (now exists [Begin (Register name value)]).
  - destruct (call_answered_at_once _ _ w (runs_as_start_battery_control p d))
      as [n Hn].
    now exists (Begin (CallStart p d) :: replicate n (Answer 0)).
  - destruct (call_answered_at_once _ _ w runs_as_stop_battery_control)
      as [n Hn].
    now exists (Begin CallStop :: replicate n (Answer 0)).
  - destruct (call_answered_at_once _ _ w (runs_as__battery_control p d))
      as [n Hn].
    now exists (Begin (CallService p d) :: replicate n (Answer 0)).
  - destruct (answered_at_once (Some handle) (Co.resume handle) w []
                (resume_spared handle w Hnames)) as [n Hn].
    rewrite runs_as_resume in Hn.
    now exists (Begin (Resume handle) :: replicate n (Answer 0)).
Qed.

(** Every state of [reachable] is a state of the event loop in which no
    coroutine is suspended: [reachable] is what the event loop does when
    calls and wake-ups do not overlap. *)
Lemma reachable_in_loop w : reachable w -> loop_reachable (Running w []).
Proof.
  induction 1 as [fails d t0|ev w Hw IH]; [constructor|].
  destruct (step_in_loop ev w (proj2 (reachable_session w Hw))) as [ts <-].
  now apply loop_reachable_run.
Qed.


Lemma stop_world_keeps_deadline w i t :
  handle_names_watchdog w ->
  tasks w !! i = Some t -> is_deadline (t_kind t) = true ->
  tasks (stop_world w) !! i = Some t.
Proof.
  intros Hn Hi Hd. rewrite tasks_stop_world.
  destruct (control_active (manager w)); [|exact Hi].
  unfold cancel_watchdog.
  destruct (watchdog_task (manager w)) as [handle|] eqn:Hh; [|exact Hi].
  cbn. destruct (Hn handle Hh) as (t' & Ht' & Hk').
  rewrite list_lookup_alter_ne; [exact Hi|].
  intros <-. rewrite Hi in Ht'. injection Ht' as <-.
  rewrite Hk' in Hd. discriminate.
Qed.

Lemma live_count_none w :
  no_live_watchdog w -> live_count is_watchdog w = 0%nat.
Proof.
  intros Hnone. unfold live_count. rewrite filter_none; [reflexivity|].
  intros i t Hi. destruct (t_kind t) eqn:Hk; try reflexivity.
  cbn. exact (Hnone i t Hi Hk).
Qed.

Lemma stop_world_no_live_tracked w :
  watchdog_tracked w -> no_live_watchdog (stop_world w).
Proof.
  intros Ht. destruct (is_active w) eqn:Ha.
  - now apply stop_world_no_live.
  - rewrite stop_world_idle by exact Ha. now apply tracked_idle.
Qed.

(** C3, as amended.  In every state reached by calls and wake-ups that do
    not overlap, at most one watchdog task is live, it is the one
    [watchdog_task] refers to, and there is none when the session is not
    active.  A successful [Start] creates the two timers: after it exactly
    one watchdog task is live, the new one, to which [watchdog_task] refers,
    and the deadline task of the new duration is live.  [Stop] on an active
    session cancels the watchdog task, whether its reset writes are
    accepted or not.  A deadline task is never cancelled: [Stop] leaves
    every deadline task as it was. *)
Theorem watchdog_timer_invariant (w : World) :
  reachable w ->
  (forall i t, tasks w !! i = Some t ->
     t_kind t = WatchdogPing -> is_live t = true ->
     is_active w = true /\ watchdog_task (manager w) = Some i) /\
  (live_count is_watchdog w <= 1)%nat /\
  (is_active w = false -> live_count is_watchdog w = 0%nat) /\
  (forall p d, fst (start_battery_control p d w) = Returns tt ->
     let w' := snd (start_battery_control p d w) in
     is_active w' = true /\
     live_count is_watchdog w' = 1%nat /\
     watchdog_task (manager w') = Some (length (tasks w)) /\
     tasks w' =
       tasks (snd (stop_battery_control w)) ++
       [Task WatchdogPing Created; Task (AutoStop d) Created]) /\
  (is_active w = true ->
   live_count is_watchdog (snd (stop_battery_control w)) = 0%nat) /\
  (forall i t, tasks w !! i = Some t -> is_deadline (t_kind t) = true ->
     tasks (snd (stop_battery_control w)) !! i = Some t).
Proof.
  intros Hreach. destruct (reachable_session w Hreach) as [Ht Hn].
  split; [exact Ht|]. split; [|split; [|split; [|split]]].
  - apply filter_at_most_one. intros i j a b Ha Hb HPa HPb.
    apply andb_true_iff in HPa as [Hka Hla], HPb as [Hkb Hlb].
    destruct (t_kind a) eqn:Hkinda; try discriminate.
    destruct (t_kind b) eqn:Hkindb; try discriminate.
    destruct (Ht i a Ha Hkinda Hla) as [_ Hi].
    destruct (Ht j b Hb Hkindb Hlb) as [_ Hj]. congruence.
  - intros Hidle. apply live_count_none. now apply tracked_idle.
  - intros p d Hok w'. subst w'.
    rewrite start_battery_control_eq_stop in Hok |- *.
    destruct (start_from_success p d (stop_world w) Hok) as (pp & _ & ->).
    rewrite stop_battery_control_eq. unfold started_world.
    cbn [snd manager tasks with_logs with_tasks with_manager with_issued
         watchdog_task set_watchdog_task].
    rewrite length_tasks_stop_world.
    split; [reflexivity|]. split; [|now split].
    pose proof (live_count_none _ (stop_world_no_live_tracked w Ht)) as Hnone.
    unfold live_count in *.
    cbn [tasks with_logs with_tasks with_manager with_issued].
    rewrite List.filter_app, length_app, Hnone. reflexivity.
  - intros Hactive. rewrite stop_battery_control_eq. cbn [snd].
    apply live_count_none. now apply stop_world_no_live.
  - intros i t Hi Hd. rewrite stop_battery_control_eq. cbn [snd].
    now apply stop_world_keeps_deadline.
Qed.

Lemma watchdog_timer_invariant_witness :
  (live_count is_watchdog (started never_fails) <= 1)%nat /\
  live_count is_watchdog
    (snd (start_battery_control 1000 5 (started never_fails))) = 1%nat /\
  live_count is_watchdog
    (snd (stop_battery_control (started never_fails))) = 0%nat /\
  tasks (snd (stop_battery_control (started never_fails))) !! 1%nat =
    Some (Task (AutoStop 10) Created).
Proof.
  assert (Hreach : reachable (started never_fails)).
  { apply (reachable_step (CallStart 5000 10)). apply reachable_init. }
  destruct (watchdog_timer_invariant (started never_fails) Hreach)
    as (_ & H1 & _ & H2 & H3 & H4).
  split; [exact H1|].
  split; [destruct (H2 1000 5) as (_ & H & _); [reflexivity|exact H]|].
  split; [apply H3; reflexivity|].
  apply H4; reflexivity.
Defined.

(** C3, as the specification states it, fails, in three ways.  After a
    successful [Start] and a successful [Stop] the session is idle and the
    deadline task of the session is still live.  After a successful [Start]
    and a [Stop] whose first reset write is refused, the session is active
    and no watchdog task is live.  And when two calls of [Start] overlap,
    each creates a watchdog task: the session is active with two live
    watchdog tasks, and after a [Stop] it is idle with one of them still
    live. *)
Lemma timers_match_session_fails :
  (reachable (run [CallStart 5000 10; CallStop] (fresh never_fails)) /\
   ~ timers_match_session
       (run [CallStart 5000 10; CallStop] (fresh never_fails))) /\
  (reachable (run [CallStart 5000 10; CallStop]
                (fresh (fails_at 5 (CommunicationError 1)))) /\
   ~ timers_match_session
       (run [CallStart 5000 10; CallStop]
          (fresh (fails_at 5 (CommunicationError 1))))) /\
  (loop_reachable overlapping_starts /\
   waiting overlapping_starts = [] /\
   is_active (world overlapping_starts) = true /\
   live_count is_watchdog (world overlapping_starts) = 2%nat /\
   ~ timers_match_session (world overlapping_starts)) /\
  (loop_reachable stopped_after_overlap /\
   waiting stopped_after_overlap = [] /\
   is_active (world stopped_after_overlap) = false /\
   live_count is_watchdog (world stopped_after_overlap) = 1%nat /\
   ~ timers_match_session (world stopped_after_overlap)).
Proof.
  split; [|split; [|split]].
  - split; [apply reachable_run, reachable_init|].
    vm_compute. intros [_ H]. discriminate H.
  - split; [apply reachable_run, reachable_init|].
    vm_compute. intros [H _]. discriminate H.
  - split; [apply loop_reachable_run, loop_reachable_init|].
    split; [reflexivity|]. split; [reflexivity|]. split; [reflexivity|].
    vm_compute. intros [H _]. discriminate H.
  - split; [do 2 apply loop_reachable_run; apply loop_reachable_init|].
    split; [reflexivity|]. split; [reflexivity|]. split; [reflexivity|].
    vm_compute. intros [H _]. discriminate H.
Qed.

(** ** Start on an active session *)

Lemma tasks_stop_world_other w i :
  watchdog_task (manager w) <> Some i ->
  tasks (stop_world w) !! i = tasks w !! i.
Proof.
  intros Hne. rewrite tasks_stop_world.
  destruct (control_active (manager w)); [|reflexivity].
  unfold cancel_watchdog.
  destruct (watchdog_task (manager w)) as [handle|]; [|reflexivity].
  cbn. apply list_lookup_alter_ne. congruence.
Qed.

Lemma tasks_stop_world_handle w handle t :
  is_active w = true ->
  watchdog_task (manager w) = Some handle ->
  tasks (stop_world w) !! handle = Some t -> is_live t = false.
Proof.
  intros Ha Hh. rewrite tasks_stop_world. unfold is_active in Ha.
  rewrite Ha. unfold cancel_watchdog. rewrite Hh. cbn.
  rewrite list_lookup_alter_eq.
  destruct (tasks w !! handle); [|discriminate].
  intros [= <-]. apply is_live_cancel_task.
Qed.

(** C6, as amended.  On an active session whose [Stop] sequence is accepted
    by the device, [Start] is [Stop] followed by [Start]: same outcome, same
    world.  After a successful such [Start], deadline, timers and setpoint
    are those of the new parameters: the task table is the one [Stop] left,
    followed by a new watchdog task, to which [watchdog_task] refers, and by
    a new deadline task of the new duration; the calls issued are the two
    reset writes and the five setup writes with the new setpoint.  The
    watchdog task that the session tracked is cancelled; so no watchdog
    task of the prior session is live, provided the session tracked every
    live watchdog task, as it does when no calls have overlapped.  Every
    other task is left as it was: a deadline task of the prior session that
    was live is still live.  The call is the one that the event loop runs
    when it begins nothing else before the device has answered the call's
    writes. *)
Theorem start_when_active_restarts (p d : Z) (w : World) :
  is_active w = true ->
  accepts w 2 ->
  start_battery_control p d w =
    start_battery_control p d (snd (stop_battery_control w)) /\
  (exists n,
     loop_run (Begin (CallStart p d) :: replicate n (Answer 0))
       (Running w []) =
     Running (snd (start_battery_control p d w)) []) /\
  (fst (start_battery_control p d w) = Returns tt ->
   let w' := snd (start_battery_control p d w) in
   control_end_time (manager w') = Some (clock w + 60 * d) /\
   watchdog_task (manager w') = Some (length (tasks w)) /\
   tasks w' =
     tasks (snd (stop_battery_control w)) ++
     [Task WatchdogPing Created; Task (AutoStop d) Created] /\
   (forall handle t,
      watchdog_task (manager w) = Some handle ->
      (handle < length (tasks w))%nat ->
      tasks w' !! handle = Some t -> is_live t = false) /\
   (watchdog_tracked w ->
    forall i t, (i < length (tasks w))%nat -> tasks w' !! i = Some t ->
      t_kind t = WatchdogPing -> is_live t = false) /\
   (forall i t, tasks w !! i = Some t ->
      watchdog_task (manager w) <> Some i -> tasks w' !! i = Some t) /\
   (handle_names_watchdog w ->
    forall i t, tasks w !! i = Some t -> is_deadline (t_kind t) = true ->
      tasks w' !! i = Some t) /\
   exists pp,
     power_percentage p (rated_power_of (data w)) = Returns pp /\
     issued_by (start_battery_control p d) w =
       [Write 0x10 0x044C [0]; Write 0x10 0x0455 [0];
        Write 0x10 0x044C [1]; Write 0x10 0x0450 [1]; Write 0x10 0x0451 [2];
        Write 0x10 0x044D [300]; Write 0x10 0x0455 [pp]]).
Proof.
  intros Hactive Hacc.
  assert (Hidle : is_active (stop_world w) = false)
    by (now rewrite (stop_accepted w Hactive Hacc)).
  assert (Heq : start_battery_control p d w = start_from p d (stop_world w)).
  { rewrite start_battery_control_eq. unfold is_active in Hactive.
    now rewrite Hactive. }
  split; [|split].
  - rewrite stop_battery_control_eq. cbn [snd].
    now rewrite (start_from_idle p d (stop_world w) Hidle).
  - destruct (call_answered_at_once _ _ w (runs_as_start_battery_control p d))
      as [n Hn].
    now exists n.
  - intros Hok w'. subst w'. unfold issued_by. rewrite Heq in Hok |- *.
    destruct (start_from_success p d (stop_world w) Hok) as (pp & Hpp & Hw').
    rewrite Hw', stop_battery_control_eq. unfold started_world.
    cbn [snd manager tasks issued with_logs with_tasks with_manager
         with_issued control_end_time watchdog_task set_watchdog_task
         set_control_end_time set_control_active].
    rewrite clock_stop_world, length_tasks_stop_world.
    split; [reflexivity|]. split; [reflexivity|]. split; [reflexivity|].
    split; [|split; [|split; [|split]]].
    + intros handle t Hhandle Hlt Hlook.
      rewrite lookup_app_l in Hlook by (rewrite length_tasks_stop_world; lia).
      exact (tasks_stop_world_handle w handle t Hactive Hhandle Hlook).
    + intros Ht i t Hi Hlook Hk.
      rewrite lookup_app_l in Hlook by (rewrite length_tasks_stop_world; lia).
      exact (stop_world_no_live w Ht Hactive i t Hlook Hk).
    + intros i t Hi Hne. apply lookup_app_l_Some.
      now rewrite tasks_stop_world_other.
    + intros Hn i t Hi Hd. apply lookup_app_l_Some.
      now apply stop_world_keeps_deadline.
    + exists pp. rewrite data_stop_world in Hpp. split; [exact Hpp|].
      rewrite (stop_accepted w Hactive Hacc).
      cbn [issued with_logs with_manager with_issued].
      now rewrite <- app_assoc, drop_app_length.
Qed.

Lemma start_when_active_restarts_witness :
  start_battery_control 1000 5 (started never_fails) =
    start_battery_control 1000 5
      (snd (stop_battery_control (started never_fails))) /\
  control_end_time
    (manager (snd (start_battery_control 1000 5 (started never_fails)))) =
    Some 1300 /\
  tasks (snd (start_battery_control 1000 5 (started never_fails))) =
    [Task WatchdogPing Cancelled; Task (AutoStop 10) Created;
     Task WatchdogPing Created; Task (AutoStop 5) Created].
Proof.
  assert (Hacc : accepts (started never_fails) 2) by (intros i _; reflexivity).
  destruct (start_when_active_restarts 1000 5 (started never_fails)
              eq_refl Hacc) as (H1 & _ & H2).
  split; [exact H1|].
  destruct H2 as (H2 & _ & H3 & _); [reflexivity|].
  split; [exact H2|exact H3].
Defined.

(** C6, as the specification states it, fails.  After [Start(5000, 10)]
    followed by [Start(1000, 5)], the deadline task of the first session
    (task 1) is still live.  After two calls of [Start] that overlapped, a
    further [Start(2000, 15)] cancels the watchdog task that the session
    tracks (task 2) and leaves the other one (task 0) live.  And when
    [Start(1000, 5)] and [Start(2000, 15)] overlap on an active session, the
    watchdog and deadline tasks of both calls are live at the end, next to
    the deadline task of the prior session. *)
Lemma prior_deadline_timer_still_live :
  (is_active (started never_fails) = true /\
   fst (start_battery_control 1000 5 (started never_fails)) = Returns tt /\
   ~ no_prior_timer_live (started never_fails)
       (snd (start_battery_control 1000 5 (started never_fails)))) /\
  (loop_reachable overlapping_starts /\
   waiting overlapping_starts = [] /\
   is_active (world overlapping_starts) = true /\
   fst (start_battery_control 2000 15 (world overlapping_starts)) =
     Returns tt /\
   tasks (snd (start_battery_control 2000 15 (world overlapping_starts)))
     !! 0%nat = Some (Task WatchdogPing Created) /\
   ~ no_prior_timer_live (world overlapping_starts)
       (snd (start_battery_control 2000 15 (world overlapping_starts)))) /\
  (loop_reachable overlapping_restarts /\
   waiting overlapping_restarts = [] /\
   manager (world overlapping_restarts) =
     Mgr true (Some 1900) (Some 4%nat) ∅ /\
   tasks (world overlapping_restarts) =
     [Task WatchdogPing Cancelled; Task (AutoStop 10) Created;
      Task WatchdogPing Created; Task (AutoStop 5) Created;
      Task WatchdogPing Created; Task (AutoStop 15) Created] /\
   ~ no_prior_timer_live (started never_fails)
       (world overlapping_restarts)).
Proof.
  split; [|split].
  - split; [reflexivity|]. split; [reflexivity|]. intros H.
    specialize (H 1%nat (Task (AutoStop 10) Created)).
    discriminate H; [vm_compute; lia|reflexivity].
  - split; [apply loop_reachable_run, loop_reachable_init|].
    split; [reflexivity|]. split; [reflexivity|]. split; [reflexivity|].
    split; [reflexivity|]. intros H.
    specialize (H 0%nat (Task WatchdogPing Created)).
    discriminate H; [vm_compute; lia|reflexivity].
  - split.
    { apply loop_reachable_run, (reachable_in_loop (started never_fails)).
      apply (reachable_step (CallStart 5000 10)), reachable_init. }
    split; [reflexivity|]. split; [reflexivity|]. split; [reflexivity|].
    intros H. specialize (H 1%nat (Task (AutoStop 10) Created)).
    discriminate H; [vm_compute; lia|reflexivity].
Qed.

(** * Further properties of the code *)

(** ** What the session keeps *)

Lemma manager_stop_world w :
  manager (stop_world w) = manager w \/
  (is_active w = true /\ manager (stop_world w) = idle_manager (manager w)).
Proof.
  unfold stop_world, is_active.
  destruct (control_active (manager w)); [|now left]. cbv zeta.
  destruct (first_failure _ _ _) as [[k e]|]; cbn.
  - left. apply manager_cancel_watchdog.
  - right. now split.
Qed.

Lemma deadline_matches_stop_world w :
  deadline_matches (manager w) -> deadline_matches (manager (stop_world w)).
Proof.
  intros H. destruct (manager_stop_world w) as [-> |[_ ->]]; [exact H|].
  unfold deadline_matches. cbn. congruence.
Qed.

Lemma deadline_matches_start_from p d w :
  deadline_matches (manager w) ->
  deadline_matches (manager (snd (start_from p d w))).
Proof.
  intros H. unfold start_from, start_failed.
  destruct (power_percentage p (rated_power_of (data w))) as [pp|e].
  - destruct (first_failure _ _ _) as [[k e]|]; cbn [snd].
    + now apply deadline_matches_stop_world.
    + destruct (add_minutes (clock w) d) as [end_time|e]; cbn [snd].
      * unfold deadline_matches. reflexivity.
      * apply deadline_matches_stop_world. unfold deadline_matches.
        reflexivity.
  - cbn [snd]. now apply deadline_matches_stop_world.
Qed.

Lemma deadline_matches_resume handle w :
  deadline_matches (manager w) ->
  deadline_matches (manager (snd (resume handle w))).
Proof.
  intros H. destruct (resume_cases handle w)
    as [->|(t0 & s & w1 & _ & _ & -> & Hcase)]; [exact H|].
  cbn. destruct Hcase as [[_ ->]|[-> _]];
    [exact H|now apply deadline_matches_stop_world].
Qed.

(** X1.  In every reachable state a deadline is set only while the session
    is active: when [control_end_time] is not [None], [control_active] is
    true. *)
Theorem deadline_set_only_when_active (w : World) :
  reachable w ->
  control_end_time (manager w) <> None -> is_active w = true.
Proof.
  intros Hreach. change (deadline_matches (manager w)).
  induction Hreach as [fails d t0|ev w Hw IH].
  - intros H. now contradiction H.
  - destruct ev as [p d|  |p d|handle|seconds|d|name value]; cbn [step].
    + rewrite start_battery_control_eq_stop.
      now apply deadline_matches_start_from, deadline_matches_stop_world.
    + rewrite stop_battery_control_eq.
      now apply deadline_matches_stop_world.
    + now rewrite (proj1 (service_session p d w)).
    + now apply deadline_matches_resume.
    + exact IH.
    + exact IH.
    + exact IH.
Qed.

Lemma deadline_set_only_when_active_witness :
  is_active (started never_fails) = true.
Proof.
  apply (deadline_set_only_when_active (started never_fails)).
  - apply (reachable_step (CallStart 5000 10)). apply reachable_init.
  - discriminate.
Defined.

Lemma power_percentage_range p r pp :
  power_percentage p r = Returns pp -> -1200 <= pp <= 1200.
Proof.
  unfold power_percentage. destruct (py_truediv p r) as [q|e]; [|discriminate].
  destruct (py_int (py_mul q 1000)) as [n|e]; [|discriminate].
  intros [= <-]. lia.
Qed.

Lemma issues_register_map_refl w w' :
  issued w' = issued w -> issues_register_map w w'.
Proof. intros H. exists []. now rewrite app_nil_r. Qed.

Lemma issues_register_map_trans w1 w2 w3 :
  issues_register_map w1 w2 -> issues_register_map w2 w3 ->
  issues_register_map w1 w3.
Proof.
  intros (l1 & H1 & Hl1) (l2 & H2 & Hl2). exists (l1 ++ l2).
  rewrite H2, H1, <- app_assoc. split; [reflexivity|].
  now rewrite forallb_app, Hl1, Hl2.
Qed.

Lemma forallb_take {A} (P : A -> bool) k (l : list A) :
  forallb P l = true -> forallb P (take k l) = true.
Proof.
  revert k. induction l as [|a l IH]; intros [|k] H; try reflexivity.
  cbn in H |- *. apply andb_true_iff in H as [Ha Hl].
  now rewrite Ha, IH.
Qed.

Lemma map_take {A B} (f : A -> B) k (l : list A) :
  map f (take k l) = take k (map f l).
Proof.
  revert k. induction l as [|a l IH]; intros [|k]; try reflexivity.
  cbn. now rewrite IH.
Qed.

Lemma reset_prefix_in_register_map k :
  forallb in_register_map (map to_write (take k reset_registers)) = true.
Proof. rewrite map_take. now apply forallb_take. Qed.

Lemma setup_prefix_in_register_map k pp :
  -1200 <= pp <= 1200 ->
  forallb in_register_map (map to_write (take k (registers pp))) = true.
Proof.
  intros Hpp. rewrite map_take. apply forallb_take.
  unfold registers, in_register_map, to_write. cbn.
  destruct (Z.leb_spec (-1200) pp); [|lia].
  destruct (Z.leb_spec pp 1200); [reflexivity|lia].
Qed.

Lemma stop_world_issues w : issues_register_map w (stop_world w).
Proof.
  unfold stop_world. destruct (control_active (manager w));
    [|now apply issues_register_map_refl].
  cbv zeta. unfold cancel_watchdog.
  destruct (first_failure _ _ _) as [[k e]|].
  - exists (map to_write (take (S k) reset_registers)).
    split; [now destruct (watchdog_task (manager w))|].
    apply reset_prefix_in_register_map.
  - exists (map to_write reset_registers).
    split; [now destruct (watchdog_task (manager w))|reflexivity].
Qed.

Lemma start_from_issues p d w :
  issues_register_map w (snd (start_from p d w)).
Proof.
  unfold start_from, start_failed.
  destruct (power_percentage p (rated_power_of (data w))) as [pp|e] eqn:Hpp.
  - apply power_percentage_range in Hpp.
    destruct (first_failure _ _ _) as [[k e]|]; cbn [snd].
    + eapply issues_register_map_trans; [|apply stop_world_issues].
      exists (map to_write (take (S k) (registers pp))).
      split; [reflexivity|now apply setup_prefix_in_register_map].
    + destruct (add_minutes (clock w) d) as [end_time|e]; cbn [snd].
      * exists (map to_write (registers pp)). split; [reflexivity|].
        now apply (setup_prefix_in_register_map 5).
      * eapply issues_register_map_trans; [|apply stop_world_issues].
        exists (map to_write (registers pp)). split; [reflexivity|].
        now apply (setup_prefix_in_register_map 5).
  - cbn [snd]. eapply issues_register_map_trans; [|apply stop_world_issues].
    now apply issues_register_map_refl.
Qed.

Lemma service_issues p d w :
  issues_register_map w (snd (_battery_control p d w)).
Proof.
  rewrite _battery_control_eq.
  destruct (power_percentage p (rated_power_of (data w))) as [pp|e] eqn:Hpp;
    [|now apply issues_register_map_refl].
  apply power_percentage_range in Hpp.
  destruct (first_failure _ _ _) as [[k e]|]; cbn [snd].
  - exists (map to_write (take (S k) (registers pp))).
    split; [reflexivity|now apply setup_prefix_in_register_map].
  - exists (map to_write (registers pp)). split; [reflexivity|].
    now apply (setup_prefix_in_register_map 5).
Qed.

Lemma watchdog_wakeup_issues w :
  issues_register_map w (snd (watchdog_wakeup w)).
Proof.
  unfold watchdog_wakeup. co_unfold.
  destruct (control_active (manager w));
    [|now apply issues_register_map_refl].
  destruct (device_fails w (length (issued w))); cbn;
    now exists [Write 0x10 0x044C [1]].
Qed.

Lemma stop_control_wakeup_issues w :
  issues_register_map w (snd (stop_control_wakeup w)).
Proof.
  unfold stop_control_wakeup. co_unfold.
  destruct (device_fails w (length (issued w))); cbn;
    [now exists [Write 0x10 0x044C [0]]|].
  destruct (device_fails w (length (issued w ++ _))); cbn;
    exists [Write 0x10 0x044C [0]; Write 0x10 0x0455 [0]];
    now rewrite <- app_assoc.
Qed.

Lemma resume_issues handle w : issues_register_map w (snd (resume handle w)).
Proof.
  unfold resume. destruct (tasks w !! handle) as [[kind state]|];
    [|now apply issues_register_map_refl].
  destruct (is_due (clock w) _); [|now apply issues_register_map_refl].
  cbn [t_kind t_state].
  destruct kind as [|minutes|minutes]; destruct state as [|wake_at| |];
    cbn [_watchdog_ping _auto_stop stop_control]; unfold or_task_ends;
    try (now apply issues_register_map_refl);
    try (rewrite (try_except_returns _ _ _ _ _ (sleep_or_finish_eq _ _ _ w));
         now apply issues_register_map_refl).
  - destruct (watchdog_loop_eq handle w) as [s ->].
    now apply issues_register_map_refl.
  - pose proof (watchdog_wakeup_issues w) as H.
    destruct (watchdog_wakeup_returns w) as (w1 & Hw1 & _).
    rewrite Hw1 in H. rewrite (try_except_bind _ _ _ _ _ _ Hw1).
    cbn [snd] in H.
    destruct (watchdog_loop_eq handle w1) as [s ->]. cbn [snd].
    eapply issues_register_map_trans; [exact H|].
    now apply issues_register_map_refl.
  - unfold try_except, bind. rewrite auto_stop_wakeup_eq.
    unfold set_task_state.
    cbn [snd]. eapply issues_register_map_trans; [apply stop_world_issues|].
    now apply issues_register_map_refl.
  - pose proof (stop_control_wakeup_issues w) as H.
    destruct (stop_control_wakeup_returns w) as (w1 & Hw1 & _).
    rewrite Hw1 in H. rewrite (try_except_bind _ _ _ _ _ _ Hw1).
    cbn [snd] in H. unfold try_except, set_task_state. cbn [snd].
    eapply issues_register_map_trans; [exact H|].
    now apply issues_register_map_refl.
Qed.

Lemma step_issues ev w : issues_register_map w (step ev w).
Proof.
  destruct ev as [p d|  |p d|handle|seconds|d|name value]; cbn [step];
    try (now apply issues_register_map_refl).
  - rewrite start_battery_control_eq_stop.
    eapply issues_register_map_trans;
      [apply stop_world_issues|apply start_from_issues].
  - rewrite stop_battery_control_eq. apply stop_world_issues.
  - apply service_issues.
  - apply resume_issues.
Qed.

(** X2.  Whatever the device answers and whatever is asked of the manager
    and of the [battery_control] service, every call they issue is a write
    of the register map: function code 0x10 with one data word, to 0x044C
    (0 or 1), 0x0450 (1), 0x0451 (2), 0x044D (300) or 0x0455; in particular
    the setpoint written to 0x0455 is always within [-1200, 1200]. *)
Theorem issued_calls_in_register_map (w : World) :
  reachable w ->
  forall c, c ∈ issued w ->
    in_register_map c = true /\
    (w_address c = 0x0455 ->
     exists v, w_data c = [v] /\ -1200 <= v <= 1200).
Proof.
  intros Hreach.
  assert (Hall : forallb in_register_map (issued w) = true).
  { induction Hreach as [fails d t0|ev w Hw IH]; [reflexivity|].
    destruct (step_issues ev w) as (l & -> & Hl).
    now rewrite forallb_app, IH, Hl. }
  intros c Hc. apply list_elem_of_In in Hc.
  rewrite forallb_forall in Hall. specialize (Hall c Hc).
  split; [exact Hall|]. intros Haddr.
  unfold in_register_map in Hall. rewrite Haddr in Hall.
  destruct (w_data c) as [|v [|v' rest]];
    try (rewrite andb_false_r in Hall; discriminate).
  exists v. split; [reflexivity|].
  apply andb_true_iff in Hall as [_ Hall]. cbn in Hall.
  apply andb_true_iff in Hall as [H1 H2]. lia.
Qed.

Lemma issued_calls_in_register_map_witness :
  in_register_map (Write 0x10 0x0455 [250]) = true.
Proof.
  assert (Hreach : reachable (started never_fails)).
  { apply (reachable_step (CallStart 5000 10)). apply reachable_init. }
  apply (issued_calls_in_register_map (started never_fails) Hreach).
  apply list_elem_of_In. vm_compute. tauto.
Defined.

Lemma tasks_grow_refl w w' : tasks w' = tasks w -> tasks_grow w w'.
Proof. intros H i t Ht. exists t. now rewrite H. Qed.

Lemma tasks_grow_trans w1 w2 w3 :
  tasks_grow w1 w2 -> tasks_grow w2 w3 -> tasks_grow w1 w3.
Proof.
  intros H12 H23 i t Ht. destruct (H12 i t Ht) as (t2 & Ht2 & Hk2 & Hd2).
  destruct (H23 i t2 Ht2) as (t3 & Ht3 & Hk3 & Hd3). exists t3.
  split; [exact Ht3|]. split; [congruence|]. intros Hdone.
  specialize (Hd2 Hdone). subst t2. now apply Hd3.
Qed.

Lemma tasks_grow_app l w w' : tasks w' = tasks w ++ l -> tasks_grow w w'.
Proof.
  intros H i t Ht. exists t. rewrite H.
  split; [now apply lookup_app_l_Some|now split].
Qed.

Lemma tasks_grow_stop_world w : tasks_grow w (stop_world w).
Proof.
  intros i t Ht. rewrite tasks_stop_world.
  destruct (control_active (manager w)); [|now exists t].
  unfold cancel_watchdog.
  destruct (watchdog_task (manager w)) as [handle|]; [|now exists t]. cbn.
  destruct (decide (handle = i)) as [->|Hne].
  - exists (cancel_task t). rewrite list_lookup_alter_eq, Ht.
    split; [reflexivity|]. split; [apply t_kind_cancel_task|].
    intros Hdone. unfold cancel_task. now rewrite Hdone.
  - exists t. now rewrite list_lookup_alter_ne.
Qed.

Lemma tasks_grow_resumed handle s t0 w w1 :
  tasks_grow w w1 -> tasks w !! handle = Some t0 -> is_live t0 = true ->
  tasks_grow w
    (with_tasks (alter (fun t => Task (t_kind t) s) handle (tasks w1)) w1).
Proof.
  intros Hgrow Ht0 Hlive i t Ht. cbn.
  destruct (Hgrow i t Ht) as (t1 & Ht1 & Hk1 & Hd1).
  destruct (decide (handle = i)) as [->|Hne].
  - exists (Task (t_kind t1) s). rewrite list_lookup_alter_eq, Ht1.
    split; [reflexivity|]. split; [exact Hk1|]. intros Hdone. congruence.
  - exists t1. now rewrite list_lookup_alter_ne.
Qed.

Lemma tasks_grow_step ev w : tasks_grow w (step ev w).
Proof.
  destruct ev as [p d|  |p d|handle|seconds|d|name value]; cbn [step];
    try (now apply tasks_grow_refl).
  - rewrite start_battery_control_eq_stop.
    apply (tasks_grow_trans w (stop_world w)); [apply tasks_grow_stop_world|].
    generalize (stop_world w). clear w. intros w.
    unfold start_from, start_failed.
    destruct (power_percentage p (rated_power_of (data w))) as [pp|e].
    + destruct (first_failure _ _ _) as [[k e]|]; cbn [snd].
      * eapply tasks_grow_trans; [|apply tasks_grow_stop_world].
        now apply tasks_grow_refl.
      * destruct (add_minutes (clock w) d) as [end_time|e]; cbn [snd].
        -- now apply (tasks_grow_app
                        [Task WatchdogPing Created; Task (AutoStop d) Created]).
        -- eapply tasks_grow_trans; [|apply tasks_grow_stop_world].
           now apply tasks_grow_refl.
    + cbn [snd]. eapply tasks_grow_trans; [|apply tasks_grow_stop_world].
      now apply tasks_grow_refl.
  - rewrite stop_battery_control_eq. apply tasks_grow_stop_world.
  - destruct (service_session p d w) as [_ [H|H]];
      [now apply tasks_grow_refl|now apply (tasks_grow_app _ _ _ H)].
  - destruct (resume_cases handle w)
      as [->|(t0 & s & w1 & Ht0 & Hlive & -> & Hcase)];
      [now apply tasks_grow_refl|].
    apply (tasks_grow_resumed handle s t0); [|exact Ht0|exact Hlive].
    destruct Hcase as [[Htasks _]|[-> _]];
      [now apply tasks_grow_refl|apply tasks_grow_stop_world].
Qed.

(** X3.  Along every run the task table only grows: a task keeps its
    index and its kind (a handle stays valid and keeps referring to the same
    coroutine), and a task that is finished or cancelled is never changed
    again, so it never runs or becomes live a second time. *)
Theorem tasks_only_grow (evs : list event) (w : World) :
  (length (tasks w) <= length (tasks (run evs w)))%nat /\
  forall i t, tasks w !! i = Some t ->
    exists t', tasks (run evs w) !! i = Some t' /\ t_kind t' = t_kind t /\
               (is_live t = false -> t' = t).
Proof.
  assert (Hgrow : tasks_grow w (run evs w)).
  { revert w. induction evs as [|ev evs IH]; intros w;
      [now apply tasks_grow_refl|].
    cbn. eapply tasks_grow_trans; [apply tasks_grow_step|apply IH]. }
  split; [|exact Hgrow].
  destruct (tasks w) as [|t0 ts] eqn:Hts; [cbn; lia|].
  assert (Hlast : is_Some (tasks w !! (length (tasks w) - 1)%nat)).
  { apply lookup_lt_is_Some. rewrite Hts. cbn. lia. }
  destruct Hlast as [t Ht]. destruct (Hgrow _ t Ht) as (t' & Ht' & _).
  apply lookup_lt_Some in Ht'. rewrite Hts in Ht'. cbn in Ht' |- *. lia.
Qed.

(** ** The deadline task *)

Lemma auto_stop_due_eq w handle minutes wake_at :
  tasks w !! handle = Some (Task (AutoStop minutes) (Sleeping wake_at)) ->
  wake_at <= clock w ->
  resume handle w =
  (Returns tt,
   with_tasks
     (alter (fun t => Task (t_kind t) Finished) handle (tasks (stop_world w)))
     (stop_world w)).
Proof.
  intros Htask Hdue. unfold resume, is_due. rewrite Htask.
  cbn [t_kind t_state _auto_stop].
  destruct (Z.ltb_spec (clock w) wake_at) as [?|_]; [lia|]. cbn [negb].
  unfold or_task_ends, try_except, bind. now rewrite auto_stop_wakeup_eq.
Qed.

Lemma finished_after_stop_world w handle t :
  tasks w !! handle = Some t ->
  alter (fun t => Task (t_kind t) Finished) handle (tasks (stop_world w))
    !! handle = Some (Task (t_kind t) Finished).
Proof.
  intros Ht. destruct (tasks_grow_stop_world w handle t Ht) as (t' & Ht' & Hk & _).
  now rewrite list_lookup_alter_eq, Ht', <- Hk.
Qed.

(** X4.  [_auto_stop] does not look at [control_end_time]: when its sleep
    is over and a session is active, it runs the [Stop] sequence even though
    the deadline of that session is still ahead.  A deadline task left over
    from an earlier session (it is never cancelled) thus ends a later
    session early. *)
Theorem auto_stop_ends_any_active_session (w : World) (handle : nat)
    (minutes wake_at deadline : Z) :
  tasks w !! handle = Some (Task (AutoStop minutes) (Sleeping wake_at)) ->
  wake_at <= clock w ->
  is_active w = true ->
  control_end_time (manager w) = Some deadline ->
  clock w < deadline ->
  accepts w 2 ->
  let r := resume handle w in
  fst r = Returns tt /\
  is_active (snd r) = false /\
  control_end_time (manager (snd r)) = None /\
  issued (snd r) =
    issued w ++ [Write 0x10 0x044C [0]; Write 0x10 0x0455 [0]] /\
  tasks (snd r) !! handle = Some (Task (AutoStop minutes) Finished).
Proof.
  intros Htask Hdue Hactive _ _ Hacc r. subst r.
  rewrite (auto_stop_due_eq w handle minutes wake_at Htask Hdue).
  cbn [fst snd manager issued tasks with_tasks].
  split; [reflexivity|].
  split; [|split; [|split]];
    try (rewrite (stop_accepted w Hactive Hacc); reflexivity).
  apply (finished_after_stop_world w handle _ Htask).
Qed.

Lemma auto_stop_ends_any_active_session_witness :
  control_end_time (manager restarted_then_waited) = Some 4600 /\
  clock restarted_then_waited = 1600 /\
  is_active (snd (resume 1 restarted_then_waited)) = false.
Proof.
  split; [reflexivity|]. split; [reflexivity|].
  destruct (auto_stop_ends_any_active_session
              restarted_then_waited 1 10 1600 4600) as (_ & H & _);
    [reflexivity|vm_compute; discriminate|reflexivity|reflexivity|
     reflexivity|intros i _; reflexivity|exact H].
Defined.

(** X5.  When the sleep of [_auto_stop] is over and the session is idle
    (it was stopped in the meantime), the task ends without a call to the
    device and without touching the manager. *)
Theorem auto_stop_on_idle_does_nothing (w : World) (handle : nat)
    (minutes wake_at : Z) :
  tasks w !! handle = Some (Task (AutoStop minutes) (Sleeping wake_at)) ->
  wake_at <= clock w ->
  is_active w = false ->
  let r := resume handle w in
  fst r = Returns tt /\
  issued (snd r) = issued w /\
  manager (snd r) = manager w /\
  logs (snd r) = logs w /\
  tasks (snd r) =
    alter (fun t => Task (t_kind t) Finished) handle (tasks w).
Proof.
  intros Htask Hdue Hidle r. subst r.
  rewrite (auto_stop_due_eq w handle minutes wake_at Htask Hdue).
  assert (Hstop : stop_world w = w).
  { unfold stop_world. unfold is_active in Hidle. now rewrite Hidle. }
  rewrite Hstop. repeat split.
Qed.

Lemma auto_stop_on_idle_does_nothing_witness :
  let w := run [CallStart 5000 10; Resume 1; CallStop; Elapse 600]
               (fresh never_fails) in
  issued (snd (resume 1 w)) = issued w /\
  manager (snd (resume 1 w)) = manager w.
Proof.
  intros w.
  destruct (auto_stop_on_idle_does_nothing w 1 10 1600)
    as (_ & H1 & H2 & _); [reflexivity|vm_compute; discriminate|reflexivity|].
  split; [exact H1|exact H2].
Defined.

(** ** The watchdog after the deadline *)

(** X6.  The loop of [_watchdog_ping] tests the deadline before it sleeps,
    not after: a watchdog that wakes when the deadline has passed and the
    session is still active issues one more (0x044C,1), and only then ends.
    It leaves the manager as it is. *)
Theorem watchdog_refreshes_once_after_deadline (w : World) (handle : nat)
    (wake_at deadline : Z) :
  tasks w !! handle = Some (Task WatchdogPing (Sleeping wake_at)) ->
  wake_at <= clock w ->
  is_active w = true ->
  control_end_time (manager w) = Some deadline ->
  deadline <= clock w ->
  let r := resume handle w in
  fst r = Returns tt /\
  issued (snd r) = issued w ++ [Write 0x10 0x044C [1]] /\
  manager (snd r) = manager w /\
  tasks (snd r) !! handle = Some (Task WatchdogPing Finished).
Proof.
  intros Htask Hdue Hactive Hend Hlate r. subst r.
  unfold resume, is_due. rewrite Htask. cbn [t_kind t_state _watchdog_ping].
  destruct (Z.ltb_spec (clock w) wake_at) as [?|_]; [lia|]. cbn [negb].
  unfold is_active in Hactive.
  unfold or_task_ends, watchdog_wakeup, watchdog_continues, sleep_or_finish,
    set_task_state.
  co_unfold. rewrite Hactive.
  destruct (device_fails w (length (issued w))) as [e|]; cbn;
    rewrite Hactive, Hend; cbn;
    destruct (Z.ltb_spec (clock w) deadline) as [?|_]; try lia; cbn;
    rewrite list_lookup_alter_eq, Htask; repeat split.
Qed.

Lemma watchdog_refreshes_once_after_deadline_witness :
  let w := run [CallStart 5000 4; Resume 0; Elapse 240] (fresh never_fails) in
  issued (snd (resume 0 w)) = issued w ++ [Write 0x10 0x044C [1]] /\
  tasks (snd (resume 0 w)) !! 0%nat = Some (Task WatchdogPing Finished).
Proof.
  intros w.
  destruct (watchdog_refreshes_once_after_deadline w 0 1240 1240)
    as (_ & H1 & _ & H2);
    [reflexivity|vm_compute; discriminate|reflexivity|reflexivity|
     vm_compute; discriminate|].
  split; [exact H1|exact H2].
Defined.

(** X24.  A watchdog task that runs while the session is active and has
    no deadline ends: the test of its loop compares the clock with [None],
    which raises outside the [try] of the loop.  A task that was asleep has
    sent its (0x044C,1) before, a task that had not started yet sends
    nothing; the manager is left as it is. *)
Theorem watchdog_without_deadline_ends (w : World) (handle : nat)
    (state : task_state) :
  tasks w !! handle = Some (Task WatchdogPing state) ->
  is_due (clock w) (Task WatchdogPing state) = true ->
  is_active w = true ->
  control_end_time (manager w) = None ->
  let r := resume handle w in
  fst (watchdog_continues w) = Raises NoneTypeError /\
  fst r = Returns tt /\
  manager (snd r) = manager w /\
  tasks (snd r) =
    alter (fun t => Task (t_kind t) Finished) handle (tasks w) /\
  issued (snd r) =
    issued w ++
    match state with
    | Sleeping _ => [Write 0x10 0x044C [1]]
    | _ => []
    end.
Proof.
  intros Htask Hdue Hactive Hend r. subst r. unfold is_active in Hactive.
  unfold resume. rewrite Htask, Hdue. cbn [t_kind t_state].
  unfold or_task_ends, watchdog_continues.
  destruct state as [|wake_at| |]; try discriminate Hdue;
    cbn [_watchdog_ping];
    unfold watchdog_wakeup, watchdog_continues, sleep_or_finish,
      set_task_state; co_unfold; rewrite Hactive, Hend; cbn.
  - now rewrite app_nil_r.
  - destruct (device_fails w (length (issued w))) as [e|]; cbn;
      rewrite Hactive, Hend; cbn; repeat split.
Qed.

Lemma watchdog_without_deadline_ends_witness :
  is_active active_without_deadline = true /\
  control_end_time (manager active_without_deadline) = None /\
  tasks (snd (resume 0 active_without_deadline)) =
    [Task WatchdogPing Finished; Task (AutoStop 10) Created;
     Task WatchdogPing Cancelled; Task (AutoStop 5) Created] /\
  issued (snd (resume 0 active_without_deadline)) =
    issued active_without_deadline ++ [Write 0x10 0x044C [1]].
Proof.
  split; [reflexivity|]. split; [reflexivity|].
  destruct (watchdog_without_deadline_ends active_without_deadline 0
              (Sleeping 1240))
    as (_ & _ & _ & -> & ->); [reflexivity..|].
  split; reflexivity.
Defined.

(** ** A failing [Start] *)




(** X23.  A [Start] on an idle session whose five setup writes are accepted
    and whose deadline is out of the range of [datetime] (a duration of
    10^10 minutes, say) has already put the device in remote mode and set
    [control_active].  It raises [OverflowError] and creates no task.  When
    the device accepts the two reset writes of the handler's [Stop], the
    session is idle again.  When it refuses the first of them, the session
    stays active with the deadline it had before, and no timer was created
    for it. *)
Theorem start_with_deadline_out_of_range (p d pp : Z) (w : World) (e : exn) :
  is_active w = false ->
  power_percentage p (rated_power_of (data w)) = Returns pp ->
  accepts w 5 ->
  add_minutes (clock w) d = Raises e ->
  let r := start_battery_control p d w in
  fst r = Raises OverflowError /\
  length (tasks (snd r)) = length (tasks w) /\
  (device_fails w (length (issued w) + 5) = None ->
   device_fails w (length (issued w) + 6) = None ->
   is_active (snd r) = false /\
   control_end_time (manager (snd r)) = None /\
   issued_by (start_battery_control p d) w =
     map to_write (registers pp) ++ map to_write reset_registers) /\
  (forall e1, device_fails w (length (issued w) + 5) = Some e1 ->
   is_active (snd r) = true /\
   control_end_time (manager (snd r)) = control_end_time (manager w) /\
   issued_by (start_battery_control p d) w =
     map to_write (registers pp) ++ [Write 0x10 0x044C [0]]).
Proof.
  intros Hidle Hpp Hacc Hend r. subst r. unfold issued_by.
  rewrite (start_from_idle p d w Hidle). unfold start_from, start_failed.
  apply accepts_first_failure in Hacc. rewrite Hpp, Hacc, Hend.
  apply add_minutes_raises in Hend. subst e. cbn [fst snd].
  split; [reflexivity|].
  split; [now rewrite length_tasks_stop_world|].
  unfold stop_world.
  cbn [manager marked_active with_logs with_manager control_active
       set_control_active issued with_issued device_fails first_failure].
  cbv zeta. rewrite length_app.
  change (length (map to_write (registers pp))) with 5%nat.
  replace (S (length (issued w) + 5)) with (length (issued w) + 6)%nat by lia.
  split.
  - intros -> ->. unfold is_active, cancel_watchdog. cbn.
    split; [reflexivity|]. split; [reflexivity|].
    destruct (watchdog_task (manager w)); cbn;
      now rewrite <- app_assoc, drop_app_length.
  - intros e1 ->. unfold is_active, cancel_watchdog. cbn.
    destruct (watchdog_task (manager w)); cbn;
      (split; [reflexivity|]); (split; [reflexivity|]);
      now rewrite <- app_assoc, drop_app_length.
Qed.

Lemma start_with_deadline_out_of_range_witness :
  let w := fresh (fails_at 5 (CommunicationError 1)) in
  fst (start_battery_control 5000 10000000000 w) = Raises OverflowError /\
  is_active (snd (start_battery_control 5000 10000000000 w)) = true /\
  control_end_time (manager (snd (start_battery_control 5000 10000000000 w)))
    = None.
Proof.
  intros w.
  destruct (start_with_deadline_out_of_range 5000 10000000000 250 w
              OverflowError) as (H1 & _ & _ & H2);
    [reflexivity|reflexivity| |reflexivity|].
  - intros i Hi. do 5 (destruct i as [|i]; [reflexivity|]). lia.
  - destruct (H2 (CommunicationError 1) eq_refl) as (H3 & H4 & _).
    split; [exact H1|]. split; [exact H3|exact H4].
Defined.

(** X8.  A cached rated power of 0 makes every [Start] on an idle session
    fail with [ZeroDivisionError] before anything is sent to the device: the
    world is as before, with one more log record. *)
Theorem start_with_zero_rated_power (p d : Z) (w : World) :
  is_active w = false ->
  rated_power_of (data w) = 0 ->
  start_battery_control p d w =
  (Raises ZeroDivisionError,
   with_logs (logs w ++ [(Error, MsgStartFailed ZeroDivisionError)]) w).
Proof.
  intros Hidle Hzero. rewrite (start_from_idle p d w Hidle).
  unfold start_from, start_failed. rewrite Hzero.
  change (power_percentage p 0) with (@Raises Z ZeroDivisionError).
  cbv beta iota. now rewrite stop_world_idle.
Qed.

Lemma start_with_zero_rated_power_witness :
  fst (start_battery_control 5000 10
         (init_world never_fails
            {[ "device_rated_power_sensor"%string := [0] ]} 1000)) =
  Raises ZeroDivisionError.
Proof.
  now rewrite (start_with_zero_rated_power 5000 10
                 (init_world never_fails
                    {[ "device_rated_power_sensor"%string := [0] ]} 1000)).
Defined.

(** ** [Start] and the indicators *)



(** ** [Stop] and the indicators *)

(** X10.  [stop_battery_control] writes to no indicator but "Manual Battery
    Power" and "Manual Control Active", and it neither adds nor removes an
    entry of [virtual_entities]: an indicator that is not registered stays
    absent.  It leaves the cached telemetry and the clock alone. *)
Theorem stop_touches_two_indicators (w : World) (name : string) :
  let w' := snd (stop_battery_control w) in
  (name <> "Manual Battery Power"%string ->
   name <> "Manual Control Active"%string ->
   virtual_entities (manager w') !! name =
     virtual_entities (manager w) !! name) /\
  (virtual_entities (manager w') !! name = None <->
   virtual_entities (manager w) !! name = None) /\
  data w' = data w /\ clock w' = clock w.
Proof.
  intros w'. subst w'. rewrite stop_battery_control_eq. cbn [snd].
  rewrite data_stop_world, clock_stop_world.
  destruct (manager_stop_world w) as [-> |[_ ->]]; [now repeat split|].
  unfold idle_manager. cbn. split; [|split; [|now split]].
  - intros Hp Ha. rewrite lookup_assign_virtual_value_ne by congruence.
    now rewrite lookup_assign_virtual_value_ne by congruence.
  - destruct (decide (name = "Manual Control Active"%string)) as [->|Ha].
    + rewrite lookup_assign_virtual_value.
      rewrite lookup_assign_virtual_value_ne by discriminate.
      now destruct (virtual_entities (manager w) !! _).
    + rewrite lookup_assign_virtual_value_ne by congruence.
      destruct (decide (name = "Manual Battery Power"%string)) as [->|Hp].
      * rewrite lookup_assign_virtual_value.
        now destruct (virtual_entities (manager w) !! _).
      * now rewrite lookup_assign_virtual_value_ne by congruence.
Qed.

Lemma stop_touches_two_indicators_witness :
  let w := snd (register_virtual_entity "Manual Control Duration" (PInt 10)
                  (started never_fails)) in
  virtual_entities (manager (snd (stop_battery_control w)))
    !! "Manual Control Duration"%string = Some (PInt 10).
Proof.
  intros w.
  destruct (stop_touches_two_indicators w "Manual Control Duration")
    as (H & _).
  etrans; [apply H; discriminate|reflexivity].
Defined.

(** ** The stop task of the [battery_control] service *)

Lemma stop_control_due_eq w handle minutes wake_at :
  tasks w !! handle = Some (Task (ServiceStopControl minutes) (Sleeping wake_at)) ->
  wake_at <= clock w ->
  resume handle w =
  (Returns tt,
   with_tasks
     (alter (fun t => Task (t_kind t) Finished) handle (tasks w))
     (snd (stop_control_wakeup w))).
Proof.
  intros Htask Hdue. unfold resume, is_due. rewrite Htask.
  cbn [t_kind t_state stop_control].
  destruct (Z.ltb_spec (clock w) wake_at) as [?|_]; [lia|]. cbn [negb].
  unfold or_task_ends, try_except, bind.
  destruct (stop_control_wakeup_returns w) as (w1 & -> & Ht & _).
  unfold set_task_state. cbn [snd]. now rewrite Ht.
Qed.

Lemma stop_control_wakeup_accepted w :
  accepts w 2 ->
  issued (snd (stop_control_wakeup w)) =
  issued w ++ [Write 0x10 0x044C [0]; Write 0x10 0x0455 [0]].
Proof.
  intros Hacc. unfold stop_control_wakeup. co_unfold.
  pose proof (Hacc 0%nat ltac:(lia)) as H0. rewrite Nat.add_0_r in H0.
  pose proof (Hacc 1%nat ltac:(lia)) as H1.
  rewrite H0. cbn. rewrite length_snoc, <- Nat.add_1_r, H1. cbn.
  now rewrite <- app_assoc.
Qed.

(** X11.  The stop task of the [battery_control] service resets the device
    without looking at the manager: when its sleep is over it issues
    (0x044C,0) and (0x0455,0) even if a session of the manager is active,
    and it leaves the manager as it is (still active, same deadline) and
    every other task, the watchdog included, as it is. *)
Theorem service_stop_ignores_session (w : World) (handle : nat)
    (minutes wake_at : Z) :
  tasks w !! handle =
    Some (Task (ServiceStopControl minutes) (Sleeping wake_at)) ->
  wake_at <= clock w ->
  let r := resume handle w in
  fst r = Returns tt /\
  manager (snd r) = manager w /\
  (forall i, i <> handle -> tasks (snd r) !! i = tasks w !! i) /\
  (accepts w 2 ->
   issued (snd r) =
     issued w ++ [Write 0x10 0x044C [0]; Write 0x10 0x0455 [0]]).
Proof.
  intros Htask Hdue r. subst r.
  rewrite (stop_control_due_eq w handle minutes wake_at Htask Hdue).
  destruct (stop_control_wakeup_returns w) as (w1 & Hw1 & _ & Hm).
  cbn [fst snd manager tasks issued with_tasks]. rewrite Hw1. cbn [snd].
  split; [reflexivity|]. split; [exact Hm|]. split.
  - intros i Hi. now rewrite list_lookup_alter_ne.
  - intros Hacc. rewrite <- (stop_control_wakeup_accepted w Hacc).
    now rewrite Hw1.
Qed.

Lemma service_stop_ignores_session_witness :
  is_active service_over_session = true /\
  is_active (snd (resume 2 service_over_session)) = true /\
  issued (snd (resume 2 service_over_session)) =
    issued service_over_session ++
    [Write 0x10 0x044C [0]; Write 0x10 0x0455 [0]].
Proof.
  split; [reflexivity|].
  destruct (service_stop_ignores_session service_over_session 2 10 1600)
    as (_ & Hm & _ & Hi); [reflexivity|vm_compute; discriminate|].
  split; [unfold is_active; now rewrite Hm|].
  apply Hi. intros i _. reflexivity.
Defined.

(** X12.  The [battery_control] service raises nothing but
    [ServiceValidationError], which wraps the error that occurred.  When it
    fails it has scheduled no stop task and issued no reset write: setup
    writes that the device accepted before the failure stay in force. *)
Theorem service_failure_schedules_no_stop (p d : Z) (w : World) (e : exn) :
  fst (_battery_control p d w) = Raises e ->
  (exists cause, e = ServiceValidationError cause) /\
  tasks (snd (_battery_control p d w)) = tasks w /\
  List.filter is_remote_mode_reset (issued_by (_battery_control p d) w) = [].
Proof.
  unfold issued_by. rewrite _battery_control_eq.
  destruct (power_percentage p (rated_power_of (data w))) as [pp|e'].
  - destruct (first_failure _ _ _) as [[k e']|]; [|discriminate].
    cbn [fst snd]. intros [= <-]. split; [now eexists|].
    repeat (split; [reflexivity|]).
    cbn [issued with_issued]. rewrite drop_app_length.
    do 5 (destruct k as [|k]; [reflexivity|]). reflexivity.
  - cbn [fst snd]. intros [= <-]. split; [now eexists|].
    repeat (split; [reflexivity|]). now rewrite drop_all.
Qed.

Lemma service_failure_schedules_no_stop_witness :
  tasks (snd (_battery_control 5000 10 (fresh (fails_at 3 (CommunicationError 1)))))
  = [].
Proof.
  destruct (service_failure_schedules_no_stop 5000 10
              (fresh (fails_at 3 (CommunicationError 1)))
              (ServiceValidationError (CommunicationError 1)))
    as (_ & H & _); [reflexivity|exact H].
Defined.

(** ** Symmetry of the percentage *)

Lemma binary_round_aux_opp s m e l :
  binary_round_aux prec emax (negb s) m e l =
  SFopp (binary_round_aux prec emax s m e l).
Proof.
  unfold binary_round_aux.
  destruct (shr_fexp prec emax m e l) as [mrs1 e1].
  destruct (shr_fexp prec emax _ e1 loc_Exact) as [mrs2 e2].
  destruct (shr_m mrs2); try reflexivity.
  now destruct (e2 <=? emax - prec).
Qed.

Lemma exact_int_opp n : n <> 0 -> exact_int (- n) = SFopp (exact_int n).
Proof. intros Hn. now destruct n. Qed.

Lemma SFdiv_opp_l x y :
  SFdiv prec emax (SFopp x) y = SFopp (SFdiv prec emax x y).
Proof.
  destruct x as [sx|sx| |sx mx ex], y as [sy|sy| |sy my ey]; cbn;
    try reflexivity; try (now destruct sx, sy).
  destruct (SFdiv_core_binary prec emax (Zpos mx) ex (Zpos my) ey)
    as [[mz ez] lz].
  rewrite <- binary_round_aux_opp. f_equal. now destruct sx, sy.
Qed.

Lemma SFdiv_opp_r x y :
  SFdiv prec emax x (SFopp y) = SFopp (SFdiv prec emax x y).
Proof.
  destruct x as [sx|sx| |sx mx ex], y as [sy|sy| |sy my ey]; cbn;
    try reflexivity; try (now destruct sx, sy).
  destruct (SFdiv_core_binary prec emax (Zpos mx) ex (Zpos my) ey)
    as [[mz ez] lz].
  rewrite <- binary_round_aux_opp. f_equal. now destruct sx, sy.
Qed.

Lemma py_mul_opp x k : py_mul (SFopp x) k = SFopp (py_mul x k).
Proof.
  unfold py_mul.
  destruct x as [sx|sx| |sx mx ex], (float_of_int k) as [sy|sy| |sy my ey];
    cbn; try reflexivity; try (now destruct sx, sy).
  rewrite <- binary_round_aux_opp. f_equal. now destruct sx, sy.
Qed.

Lemma py_int_opp x : py_int (SFopp x) = negated (py_int x).
Proof.
  destruct x as [s|s| |s m e]; cbn; try reflexivity.
  f_equal. destruct s; cbn; lia.
Qed.

Lemma percentage_of_opp q :
  match py_int (py_mul (SFopp q) 1000) with
  | Raises e => Raises e
  | Returns n => Returns (Z.max (-1200) (Z.min 1200 n))
  end =
  negated match py_int (py_mul q 1000) with
          | Raises e => Raises e
          | Returns n => Returns (Z.max (-1200) (Z.min 1200 n))
          end.
Proof.
  rewrite py_mul_opp, py_int_opp.
  destruct (py_int (py_mul q 1000)) as [n|e]; cbn; [|reflexivity].
  f_equal. lia.
Qed.

Lemma percentage_of_quotient_opp x :
  match or_overflow (SFopp x) with
  | Raises e => Raises e
  | Returns q =>
      match py_int (py_mul q 1000) with
      | Raises e => Raises e
      | Returns n => Returns (Z.max (-1200) (Z.min 1200 n))
      end
  end =
  negated match or_overflow x with
          | Raises e => Raises e
          | Returns q =>
              match py_int (py_mul q 1000) with
              | Raises e => Raises e
              | Returns n => Returns (Z.max (-1200) (Z.min 1200 n))
              end
          end.
Proof.
  destruct x as [s|s| |s m e]; cbn [SFopp or_overflow negated];
    try reflexivity.
  apply (percentage_of_opp (S754_finite s m e)).
Qed.

Lemma power_percentage_zero r n :
  power_percentage 0 r = Returns n -> n = 0.
Proof.
  unfold power_percentage, py_truediv.
  destruct (Z.eqb_spec r 0) as [?|Hr]; [discriminate|].
  destruct r as [|m|m]; [contradiction| |]; cbn; now intros [= <-].
Qed.

Lemma power_percentage_opp_power power_watts rated_power :
  power_percentage (- power_watts) rated_power =
  negated (power_percentage power_watts rated_power).
Proof.
  destruct (Z.eq_dec power_watts 0) as [->|Hp].
  - change (- 0) with 0.
    destruct (power_percentage 0 rated_power) as [n|e] eqn:H;
      [|reflexivity].
    apply power_percentage_zero in H. now subst n.
  - unfold power_percentage, py_truediv.
    destruct (rated_power =? 0); [reflexivity|].
    rewrite exact_int_opp, SFdiv_opp_l by exact Hp.
    apply percentage_of_quotient_opp.
Qed.

Lemma power_percentage_opp_rated power_watts rated_power :
  power_percentage power_watts (- rated_power) =
  negated (power_percentage power_watts rated_power).
Proof.
  unfold power_percentage, py_truediv.
  destruct (Z.eqb_spec rated_power 0) as [->|Hr]; [reflexivity|].
  destruct (Z.eqb_spec (- rated_power) 0) as [?|_]; [lia|].
  rewrite exact_int_opp, SFdiv_opp_r by exact Hr.
  apply percentage_of_quotient_opp.
Qed.

(** X13.  The setpoint is an odd function of the requested power and of
    the rated power: reversing the sign of [power_watts] reverses the
    setpoint, with the same magnitude and the same errors, and so does
    reversing the sign of the rated power.  A negative cached reading
    therefore turns a charge request into a discharge setpoint. *)
Theorem power_percentage_odd (power_watts rated_power : Z) :
  power_percentage (- power_watts) rated_power =
    negated (power_percentage power_watts rated_power) /\
  power_percentage power_watts (- rated_power) =
    negated (power_percentage power_watts rated_power).
Proof.
  split;
    [apply power_percentage_opp_power|apply power_percentage_opp_rated].
Qed.

(** ** The percentage at the default rated power *)

Lemma all_from_spec f start n :
  all_from f start n = true ->
  forall p, start <= p < start + Z.of_nat n -> f p = true.
Proof.
  revert start. induction n as [|n IH]; intros start H p Hp; [lia|].
  cbn [all_from] in H. apply andb_true_iff in H as [H1 H2].
  destruct (Z.eq_dec p start) as [->|Hne]; [exact H1|].
  apply (IH (start + 1) H2). lia.
Qed.

Lemma near_exact_at_default_checked :
  all_from near_exact_at_default 0 (Z.to_nat 24001) = true.
Proof. vm_compute. reflexivity. Qed.

(** X14.  With the default rated power of 20000 and every [power_watts]
    that the [battery_control] service admits (-24000 to 24000), the
    computation raises nothing; up to the rated power (at most 20000 in
    magnitude) the setpoint is exactly [power_watts / 20] truncated toward
    zero; above it, the setpoint is the exact truncated and clamped value
    or, because of the rounding of the double-precision quotient, one
    closer to zero. *)
Theorem percentage_at_default_rated_power (power_watts : Z) :
  -24000 <= power_watts <= 24000 ->
  exists n,
    power_percentage power_watts 20000 = Returns n /\
    (Z.abs power_watts <= 20000 -> n = Z.quot power_watts 20) /\
    (n = exact_percentage power_watts 20000 \/
     (20000 < Z.abs power_watts /\
      n = exact_percentage power_watts 20000 - Z.sgn power_watts)).
Proof.
  intros Hrange.
  assert (Hpos : forall p, 0 <= p <= 24000 ->
    exists n,
      power_percentage p 20000 = Returns n /\
      (p <= 20000 -> n = p / 20) /\
      (n = exact_percentage p 20000 \/
       (20000 < p /\ n = exact_percentage p 20000 - 1))).
  { intros p Hp.
    pose proof (all_from_spec _ _ _ near_exact_at_default_checked p) as Hnear.
    specialize (Hnear ltac:(lia)).
    unfold near_exact_at_default in Hnear.
    destruct (power_percentage p 20000) as [n|e] eqn:Hpp; [|discriminate].
    exists n. split; [reflexivity|].
    assert (Hcases : n = exact_percentage p 20000 \/
                     (20000 < p /\ n = exact_percentage p 20000 - 1)).
    { apply orb_true_iff in Hnear as [H|H]; [left; lia|right].
      apply andb_true_iff in H as [H1 H2]. lia. }
    split; [|exact Hcases].
    intros Hle. destruct Hcases as [->|[Hgt _]]; [|lia].
    unfold exact_percentage. rewrite Z.quot_div_nonneg by lia.
    pose proof (Z.mod_pos_bound (p * 1000) 20000 ltac:(lia)).
    pose proof (Z.div_mod p 20 ltac:(lia)).
    pose proof (Z.mod_pos_bound p 20 ltac:(lia)).
    pose proof (Z.div_mod (p * 1000) 20000 ltac:(lia)).
    lia. }
  destruct (Z.le_gt_cases 0 power_watts) as [Hsign|Hsign].
  - destruct (Hpos power_watts ltac:(lia)) as (n & Hn & Hexact & Hnear).
    exists n. split; [exact Hn|]. split.
    + intros Hle. rewrite Z.quot_div_nonneg by lia. apply Hexact. lia.
    + destruct Hnear as [H|[H1 H2]]; [now left|right].
      split; [lia|]. rewrite Z.sgn_pos by lia. exact H2.
  - destruct (Hpos (- power_watts) ltac:(lia)) as (n & Hn & Hexact & Hnear).
    exists (- n). split.
    + pose proof (power_percentage_opp_power (- power_watts) 20000) as Hodd.
      rewrite Z.opp_involutive, Hn in Hodd. exact Hodd.
    + assert (Hex : exact_percentage power_watts 20000 =
                    - exact_percentage (- power_watts) 20000).
      { unfold exact_percentage.
        replace (power_watts * 1000) with (- (- power_watts * 1000)) by lia.
        rewrite Z.quot_opp_l by lia. lia. }
      split.
      * intros Hle. rewrite Hexact by lia.
        rewrite <- (Z.quot_div_nonneg (- power_watts) 20) by lia.
        rewrite Z.quot_opp_l by lia. lia.
      * rewrite Hex. destruct Hnear as [H|[H1 H2]]; [left; lia|right].
        split; [lia|]. rewrite Z.sgn_neg by lia. lia.
Qed.

Lemma percentage_at_default_rated_power_witness :
  exists n, power_percentage 20020 20000 = Returns n /\
            n = exact_percentage 20020 20000 - 1.
Proof.
  destruct (percentage_at_default_rated_power 20020) as (n & Hn & _ & H);
    [lia|].
  exists n. split; [exact Hn|].
  destruct H as [H|[_ H]]; [|exact H].
  vm_compute in Hn. injection Hn as <-. discriminate H.
Defined.

(** ** The switch *)


Lemma async_turn_off_eq name w :
  async_turn_off name w =
  (Returns tt,
   with_manager
     (set_virtual_entities
        (<[name := PBool false]> (virtual_entities (manager (stop_world w))))
        (manager (stop_world w))) (stop_world w)).
Proof.
  unfold async_turn_off, try_except, bind.
  rewrite stop_battery_control_eq. reflexivity.
Qed.

(** X15.  Turning the switch off never raises and always leaves the switch
    off.  When the session was active and the device accepts the two reset
    writes the manager is idle afterwards; when the device rejects one of
    them the switch is off all the same, while the manager still holds the
    session active with its deadline. *)
Theorem turn_off_switch_is_off (self_name : string) (w : World) :
  let r := async_turn_off self_name w in
  fst r = Returns tt /\
  is_on <$> virtual_entities (manager (snd r)) !! self_name = Some false /\
  (accepts w 2 -> is_active (snd r) = false) /\
  (is_active w = true -> ~ accepts w 2 ->
   is_active (snd r) = true /\
   control_end_time (manager (snd r)) = control_end_time (manager w)).
Proof.
  intros r. subst r. rewrite async_turn_off_eq. cbn [fst snd].
  split; [reflexivity|]. split; [|split].
  - cbn. now rewrite lookup_insert_eq.
  - intros Hacc. unfold is_active. cbn.
    destruct (control_active (manager w)) eqn:Hactive.
    + now rewrite (stop_accepted w Hactive Hacc).
    + unfold stop_world. now rewrite Hactive.
  - intros Hactive Hrej.
    destruct (stop_rejected w Hactive Hrej) as (k & e & _ & ->).
    unfold is_active in *. cbn. rewrite manager_cancel_watchdog. auto.
Qed.

Lemma turn_off_switch_is_off_witness :
  let w := snd (register_virtual_entity "Manual Control Active" (PBool true)
                  (started (fails_at 5 (CommunicationError 1)))) in
  is_on <$> virtual_entities (manager (snd (async_turn_off "Manual Control Active" w)))
    !! "Manual Control Active"%string = Some false /\
  is_active (snd (async_turn_off "Manual Control Active" w)) = true.
Proof.
  intros w.
  destruct (turn_off_switch_is_off "Manual Control Active" w)
    as (_ & Hoff & _ & Hrej).
  destruct Hrej as [Hact _].
  - reflexivity.
  - intros H. specialize (H 0%nat ltac:(lia)). discriminate H.
  - split; [exact Hoff|exact Hact].
Defined.

Lemma async_turn_on_eq name order w :
  async_turn_on name order w =
  match pick_entities order (virtual_entities (manager w)) with
  | (Some power_entity, Some duration_entity) =>
      match start_battery_control (number_or 0 power_entity)
              (number_or 1 duration_entity) w with
      | (Returns _, w1) => set_own_value name (PBool true) w1
      | (Raises _, w1) => set_own_value name (PBool false) w1
      end
  | _ => (Returns tt, w)
  end.
Proof.
  unfold async_turn_on, try_except. unfold bind at 1. unfold get_manager.
  destruct (pick_entities order (virtual_entities (manager w)))
    as [[pe|] [de|]]; try reflexivity.
  unfold bind. now destruct (start_battery_control _ _ w) as [[[]|e] w1].
Qed.

Lemma pick_entities_no_power order (entities : gmap string pyval) :
  (forall entity_id, is_Some (entities !! entity_id) ->
     contains "Manual Battery Power" entity_id = false) ->
  fst (pick_entities order entities) = None.
Proof.
  intros Hno. unfold pick_entities.
  assert (Hgen : forall found : option pyval * option pyval,
             fst found = None ->
             fst (foldl (fun found entity_id =>
                    match entities !! entity_id with
                    | None => found
                    | Some entity =>
                        if contains "Manual Battery Power" entity_id
                        then (Some entity, snd found)
                        else if contains "Manual Control Duration" entity_id
                        then (fst found, Some entity)
                        else found
                    end) found order) = None).
  { induction order as [|entity_id order IH]; intros found Hfound;
      [exact Hfound|].
    cbn [foldl]. apply IH.
    destruct (entities !! entity_id) as [entity|] eqn:Hentity;
      [|exact Hfound].
    rewrite (Hno entity_id) by (rewrite Hentity; eauto).
    now destruct (contains "Manual Control Duration" entity_id). }
  now apply Hgen.
Qed.

Lemma pick_entities_no_duration order (entities : gmap string pyval) :
  (forall entity_id, is_Some (entities !! entity_id) ->
     contains "Manual Control Duration" entity_id = false) ->
  snd (pick_entities order entities) = None.
Proof.
  intros Hno. unfold pick_entities.
  assert (Hgen : forall found : option pyval * option pyval,
             snd found = None ->
             snd (foldl (fun found entity_id =>
                    match entities !! entity_id with
                    | None => found
                    | Some entity =>
                        if contains "Manual Battery Power" entity_id
                        then (Some entity, snd found)
                        else if contains "Manual Control Duration" entity_id
                        then (fst found, Some entity)
                        else found
                    end) found order) = None).
  { induction order as [|entity_id order IH]; intros found Hfound;
      [exact Hfound|].
    cbn [foldl]. apply IH.
    destruct (entities !! entity_id) as [entity|] eqn:Hentity;
      [|exact Hfound].
    rewrite (Hno entity_id) by (rewrite Hentity; eauto).
    now destruct (contains "Manual Battery Power" entity_id). }
  now apply Hgen.
Qed.

(** X16.  When no registered indicator has "Manual Battery Power" in its
    name, or none has "Manual Control Duration" in its name, turning the
    switch on does nothing: it returns without an exception, calls neither
    the manager nor the device, and leaves the switch as it was. *)
Theorem turn_on_without_settings_does_nothing
    (self_name : string) (order : list string) (w : World) :
  (forall entity_id,
     is_Some (virtual_entities (manager w) !! entity_id) ->
     contains "Manual Battery Power" entity_id = false) \/
  (forall entity_id,
     is_Some (virtual_entities (manager w) !! entity_id) ->
     contains "Manual Control Duration" entity_id = false) ->
  async_turn_on self_name order w = (Returns tt, w).
Proof.
  intros Hno. rewrite async_turn_on_eq.
  destruct Hno as [Hno|Hno].
  - pose proof (pick_entities_no_power order _ Hno) as Hpick.
    destruct (pick_entities order _) as [pe de]. cbn in Hpick. now subst pe.
  - pose proof (pick_entities_no_duration order _ Hno) as Hpick.
    destruct (pick_entities order _) as [pe de]. cbn in Hpick. subst de.
    now destruct pe.
Qed.

Lemma turn_on_without_settings_does_nothing_witness :
  let w := snd (register_virtual_entity "Manual Control Active" (PBool false)
                  (fresh never_fails)) in
  async_turn_on "Manual Control Active" ["Manual Control Active"%string] w =
  (Returns tt, w).
Proof.
  intros w. apply turn_on_without_settings_does_nothing. left.
  intros entity_id [v Hv]. subst w. cbn in Hv.
  destruct (decide (entity_id = "Manual Control Active"%string)) as [->|Hne].
  - reflexivity.
  - rewrite lookup_insert_ne in Hv by congruence. discriminate Hv.
Defined.



(** ** The register services *)

Lemma read_pairs_at a response indices :
  Forall (fun i => (i < length response)%nat) indices ->
  read_pairs (Some a) response indices =
  Done (map (fun i => (a + Z.of_nat i, nth i response 0)) indices).
Proof.
  induction 1 as [|i indices Hi _ IH]; [reflexivity|].
  cbn [read_pairs map]. rewrite IH.
  destruct (lookup_lt_is_Some_2 response i Hi) as [v Hv]. rewrite Hv.
  apply nth_lookup_Some with (d := 0) in Hv. now rewrite Hv.
Qed.

Lemma read_pairs_short a response indices :
  Exists (fun i => (length response <= i)%nat) indices ->
  read_pairs (Some a) response indices = CallFailed IndexError.
Proof.
  induction indices as [|i indices IH]; intros Hex;
    [now apply Exists_nil in Hex|].
  cbn [read_pairs].
  destruct (response !! i) as [v|] eqn:Hv; [|reflexivity].
  apply Exists_cons in Hex. destruct Hex as [Hi|Hex].
  - apply lookup_lt_Some in Hv. lia.
  - now rewrite (IH Hex).
Qed.

Lemma read_pairs_no_address response indices pairs :
  read_pairs None response indices = Done pairs -> pairs = [].
Proof. destruct indices; cbn; [now intros [= <-]|discriminate]. Qed.

Lemma to_dict_block (a : Z) (f : nat -> Z) (n : nat) (k : Z) :
  to_dict (map (fun i => (a + Z.of_nat i, f i)) (seq 0 n)) !! k =
  if decide (a <= k < a + Z.of_nat n) then Some (f (Z.to_nat (k - a)))
  else None.
Proof.
  unfold to_dict. induction n as [|n IH].
  - cbn. rewrite lookup_empty. destruct (decide _); [lia|reflexivity].
  - rewrite seq_S, map_app, foldl_app. cbn [map foldl fst snd Nat.add].
    destruct (decide (k = a + Z.of_nat n)) as [->|Hne].
    + clear IH. rewrite lookup_insert_eq. destruct (decide _); [|lia].
      do 2 f_equal. lia.
    + rewrite lookup_insert_ne by congruence. rewrite IH.
      destruct (decide _), (decide _); try reflexivity; lia.
Qed.

Lemma read_block code d device a c response :
  int_or (cd_address d) (cd_register d) = Some a ->
  int_or (cd_count d) (cd_quantity d) = Some c ->
  device (Request code (Some a) None (Some c)) = Response (Some response) ->
  c <= Z.of_nat (length response) ->
  exists pairs,
    _read_registers code d device = Done pairs /\
    forall k,
      to_dict pairs !! k =
      if decide (a <= k < a + c) then response !! Z.to_nat (k - a) else None.
Proof.
  intros Ha Hc Hdev Hlen. unfold _read_registers. rewrite Ha, Hc, Hdev.
  rewrite read_pairs_at.
  2:{ apply Forall_forall. intros i Hi. apply elem_of_seq in Hi. lia. }
  eexists. split; [reflexivity|]. intros k.
  rewrite (to_dict_block a (fun i => nth i response 0)).
  destruct (decide _) as [Hk|Hk], (decide _) as [Hk'|Hk'];
    try reflexivity; try lia.
  assert (Hin : (Z.to_nat (k - a) < length response)%nat) by lia.
  destruct (lookup_lt_is_Some_2 response _ Hin) as [v Hv].
  rewrite Hv. f_equal. now apply nth_lookup_Some.
Qed.

(** X18.  A read of [c] registers from address [a], answered by the device
    with at least [c] words, returns the dict that maps [a + i] to the
    [i]-th word for every [i < c] and has no other key; words beyond the
    [c]-th are dropped.  The same holds for holding and for input
    registers. *)
Theorem read_returns_requested_block (fc : function_codes) (d : call_data)
    (device : request -> reply) (a c : Z) (response : list Z) :
  int_or (cd_address d) (cd_register d) = Some a ->
  int_or (cd_count d) (cd_quantity d) = Some c ->
  c <= Z.of_nat (length response) ->
  let block (m : gmap Z Z) :=
    forall k,
      m !! k =
      if decide (a <= k < a + c) then response !! Z.to_nat (k - a) else None in
  (device (Request (READ_HOLDING_REGISTERS fc) (Some a) None (Some c)) =
     Response (Some response) ->
   exists m, _read_holding_registers fc d device = Done m /\ block m) /\
  (device (Request (READ_INPUT_REGISTERS fc) (Some a) None (Some c)) =
     Response (Some response) ->
   exists m, _read_input_registers fc d device = Done m /\ block m).
Proof.
  intros Ha Hc Hlen block. subst block. cbv beta.
  split; intros Hdev;
    destruct (read_block _ d device a c response Ha Hc Hdev Hlen)
      as (pairs & Hread & Hblock);
    exists (to_dict pairs);
    unfold _read_holding_registers, _read_input_registers;
    now rewrite Hread.
Qed.

Lemma read_returns_requested_block_witness :
  exists m,
    _read_holding_registers modbus_codes read_two_from_100 (answers [7; 8; 9])
      = Done m /\
    m !! 101 = Some 8 /\ m !! 102 = None.
Proof.
  destruct (read_returns_requested_block modbus_codes read_two_from_100
              (answers [7; 8; 9]) 100 2 [7; 8; 9]) as [H _];
    [reflexivity|reflexivity|cbn; lia|].
  destruct (H eq_refl) as (m & Hm & Hblock). exists m.
  split; [exact Hm|]. split; [exact (Hblock 101)|exact (Hblock 102)].
Defined.

(** X19.  When the device answers a read with fewer words than were asked
    for, the read fails with the [IndexError] wrapped as "call_failed"; the
    words that did arrive are not returned.  The same holds for holding and
    for input registers. *)
Theorem read_short_response_fails (fc : function_codes) (d : call_data)
    (device : request -> reply) (a c : Z) (response : list Z) :
  int_or (cd_address d) (cd_register d) = Some a ->
  int_or (cd_count d) (cd_quantity d) = Some c ->
  Z.of_nat (length response) < c ->
  (device (Request (READ_HOLDING_REGISTERS fc) (Some a) None (Some c)) =
     Response (Some response) ->
   _read_holding_registers fc d device = CallFailed IndexError) /\
  (device (Request (READ_INPUT_REGISTERS fc) (Some a) None (Some c)) =
     Response (Some response) ->
   _read_input_registers fc d device = CallFailed IndexError).
Proof.
  intros Ha Hc Hlen.
  assert (Hshort :
    read_pairs (Some a) response (seq 0 (Z.to_nat c)) = CallFailed IndexError).
  { apply read_pairs_short. apply Exists_exists. exists (length response).
    split; [|lia]. apply elem_of_seq. lia. }
  split; intros Hdev;
    unfold _read_holding_registers, _read_input_registers, _read_registers;
    now rewrite Ha, Hc, Hdev, Hshort.
Qed.

Lemma read_short_response_fails_witness :
  _read_holding_registers modbus_codes read_two_from_100 (answers [7]) =
  CallFailed IndexError.
Proof.
  destruct (read_short_response_fails modbus_codes read_two_from_100
              (answers [7]) 100 2 [7]) as [H _];
    [reflexivity|reflexivity|cbn; lia|].
  exact (H eq_refl).
Defined.

Lemma read_no_address code d device :
  int_or (cd_address d) (cd_register d) = None ->
  (forall pairs, _read_registers code d device = Done pairs -> pairs = []) /\
  (forall c response,
     int_or (cd_count d) (cd_quantity d) = Some c -> 0 < c ->
     device (Request code None None (Some c)) = Response (Some response) ->
     _read_registers code d device = CallFailed TypeError).
Proof.
  intros Ha. unfold _read_registers. rewrite Ha. split.
  - intros pairs. destruct (device _) as [[response|]|e];
      [|now intros [= <-]|discriminate].
    destruct (int_or (cd_count d) (cd_quantity d)) as [c|]; [|discriminate].
    apply read_pairs_no_address.
  - intros c response -> Hc ->.
    destruct (Z.to_nat c) as [|n] eqn:Hn; [lia|]. reflexivity.
Qed.

(** X20.  A read at address 0 given through the [address] parameter, with
    no [register] parameter, never returns a register: the address reaches
    the device as [None], the result is empty when the handler returns, and
    when the device answers a request for one or more registers the read
    fails with [TypeError] wrapped as "call_failed".  The same holds for
    holding and for input registers. *)
Theorem read_at_address_zero (fc : function_codes) (d : call_data)
    (device : request -> reply) :
  cd_address d = Some 0 -> cd_register d = None ->
  (forall m, _read_holding_registers fc d device = Done m -> m = ∅) /\
  (forall m, _read_input_registers fc d device = Done m -> m = ∅) /\
  (forall c response,
     int_or (cd_count d) (cd_quantity d) = Some c -> 0 < c ->
     (device (Request (READ_HOLDING_REGISTERS fc) None None (Some c)) =
        Response (Some response) ->
      _read_holding_registers fc d device = CallFailed TypeError) /\
     (device (Request (READ_INPUT_REGISTERS fc) None None (Some c)) =
        Response (Some response) ->
      _read_input_registers fc d device = CallFailed TypeError)).
Proof.
  intros Haddress Hregister.
  assert (Ha : int_or (cd_address d) (cd_register d) = None)
    by now rewrite Haddress, Hregister.
  unfold _read_holding_registers, _read_input_registers.
  split; [|split].
  - intros m.
    destruct (read_no_address (READ_HOLDING_REGISTERS fc) d device Ha)
      as [Hdone _].
    destruct (_read_registers _ d device) as [pairs|]; [|discriminate].
    intros [= <-]. now rewrite (Hdone pairs eq_refl).
  - intros m.
    destruct (read_no_address (READ_INPUT_REGISTERS fc) d device Ha)
      as [Hdone _].
    destruct (_read_registers _ d device) as [pairs|]; [|discriminate].
    intros [= <-]. now rewrite (Hdone pairs eq_refl).
  - intros c response Hc Hpos. split; intros Hdev.
    + destruct (read_no_address (READ_HOLDING_REGISTERS fc) d device Ha)
        as [_ Hfail].
      now rewrite (Hfail c response Hc Hpos Hdev).
    + destruct (read_no_address (READ_INPUT_REGISTERS fc) d device Ha)
        as [_ Hfail].
      now rewrite (Hfail c response Hc Hpos Hdev).
Qed.

Lemma read_at_address_zero_witness :
  _read_holding_registers modbus_codes
    (CallData (Some 0) None (Some 2) None None None) (answers [7; 8]) =
  CallFailed TypeError.
Proof.
  destruct (read_at_address_zero modbus_codes
              (CallData (Some 0) None (Some 2) None None None)
              (answers [7; 8])) as (_ & _ & H); [reflexivity|reflexivity|].
  destruct (H 2 [7; 8]) as [Hholding _]; [reflexivity|reflexivity|].
  exact (Hholding eq_refl).
Defined.

(** X21.  A read of 0 registers, with no [quantity] parameter, reaches the
    device with count [None]; whatever words the device answers, even none,
    the read fails with [TypeError] wrapped as "call_failed", and only an
    answer of [None] gives the empty result.  The same holds for holding and
    for input registers. *)
Theorem read_of_count_zero (fc : function_codes) (d : call_data)
    (device : request -> reply) :
  cd_count d = Some 0 -> cd_quantity d = None ->
  let address := int_or (cd_address d) (cd_register d) in
  let outcome_of (r : reply) : handled (gmap Z Z) :=
    match r with
    | Response None => Done ∅
    | Response (Some _) => CallFailed TypeError
    | DeviceRaises e => CallFailed (DeviceError e)
    end in
  _read_holding_registers fc d device =
    outcome_of (device (Request (READ_HOLDING_REGISTERS fc) address None None))
  /\
  _read_input_registers fc d device =
    outcome_of (device (Request (READ_INPUT_REGISTERS fc) address None None)).
Proof.
  intros Hcount Hquantity address outcome_of. subst address outcome_of.
  unfold _read_holding_registers, _read_input_registers, _read_registers.
  rewrite Hcount, Hquantity. cbn [int_or Z.eqb].
  split; now destruct (device _) as [[response|]|e].
Qed.

Lemma read_of_count_zero_witness :
  _read_holding_registers modbus_codes
    (CallData (Some 100) None (Some 0) None None None) (answers []) =
  CallFailed TypeError.
Proof.
  destruct (read_of_count_zero modbus_codes
              (CallData (Some 100) None (Some 0) None None None)
              (answers [])) as [H _]; [reflexivity|reflexivity|].
  exact H.
Defined.

(** X22.  What the write services never send.  With no [register]
    parameter, the address that reaches the device is never 0: address 0
    is sent as [None].  The data of a multiple write is never the empty
    list: an empty [values] is replaced by [value], or by [None] when there
    is no [value].  With only the [register] parameter the address is sent
    as given, 0 included. *)
Theorem write_requests_drop_zero_and_empty (fc : function_codes)
    (d : call_data) :
  (cd_register d = None ->
   rq_address (write_single_request fc d) <> Some 0 /\
   rq_address (write_multiple_request fc d) <> Some 0 /\
   (cd_address d = Some 0 ->
    rq_address (write_single_request fc d) = None /\
    rq_address (write_multiple_request fc d) = None)) /\
  (cd_address d = None ->
   rq_address (write_single_request fc d) = cd_register d /\
   rq_address (write_multiple_request fc d) = cd_register d) /\
  rq_data (write_multiple_request fc d) <> Some (Words []) /\
  (cd_values d = Some [] ->
   rq_data (write_multiple_request fc d) = Word <$> cd_value d).
Proof.
  unfold write_single_request, write_multiple_request. cbn [rq_address rq_data].
  split; [|split; [|split]].
  - intros ->. unfold int_or.
    destruct (cd_address d) as [n|]; [|repeat split; discriminate].
    destruct (n =? 0) eqn:Hn.
    + repeat split; discriminate.
    + apply Z.eqb_neq in Hn.
      assert (Hne : Some n <> Some 0) by congruence.
      split; [exact Hne|]. split; [exact Hne|]. intros Hzero.
      contradiction.
  - now intros ->.
  - unfold values_or. destruct (cd_values d) as [[|v vs]|];
      try discriminate; now destruct (cd_value d).
  - now intros ->.
Qed.

Lemma write_requests_drop_zero_and_empty_witness :
  rq_address (write_single_request modbus_codes
                (CallData (Some 0) None None None (Some 1) None)) = None /\
  rq_address (write_single_request modbus_codes
                (CallData None (Some 0) None None (Some 1) None)) = Some 0.
Proof.
  split.
  - destruct (write_requests_drop_zero_and_empty modbus_codes
                (CallData (Some 0) None None None (Some 1) None))
      as [H _].
    destruct (H eq_refl) as (_ & _ & H0). destruct (H0 eq_refl) as [H1 _].
    exact H1.
  - destruct (write_requests_drop_zero_and_empty modbus_codes
                (CallData None (Some 0) None None (Some 1) None))
      as (_ & H & _).
    destruct (H eq_refl) as [H1 _]. exact H1.
Defined.
